(** * OpenHeadUnit: the CarPlay dongle driver and its message codec

    A shallow embedding of [carplay/messages/readable.js],
    [carplay/messages/sendable.js], [carplay/messages/utils.js] and of the
    [DongleDriver] class (initialise, send, readLoop, start, close), with the
    properties the driver's specification states about them, and further
    properties of the same code, of the device selection of main.js and of
    its caller, the CarPlayManager.

    Conventions.
    - A [Buffer] is the list of the bytes of its ArrayBuffer, each byte a [Z]
      in [0, 256).  The buffers the driver hands to the decoders are built
      with [Buffer.from(arrayBuffer)]: they view the whole ArrayBuffer from
      offset 0, so [data.buffer] holds exactly the bytes of [data].
    - A JS string is the list of its UTF-16 code units.
    - Code that can throw returns an [Outcome]; the methods of the driver
      take and give back the fields of the driver together with the outside
      world: the USB devices behind their handles, the timers, what is left
      to run of calls that were not awaited, and the trace of what was asked of
      the devices, emitted and printed. *)

From Stdlib Require Import ZArith QArith Qround Qminmax List Lia Bool.
From stdpp Require Import base option list strings gmap.
Import ListNotations.

Local Open Scope Z_scope.

(** ** Exceptions and fallible results *)

Inductive JsError : Type :=
| TypeError (msg : string)
| RangeError (msg : string)
| DriverStateError (msg : string)
| HeaderBuildError (msg : string)
| DeviceError (msg : string).   (* whatever a USB handle's own method throws *)

Inductive Outcome (A : Type) : Type :=
| Ok (a : A)
| Throw (e : JsError).
Arguments Ok {A} a.
Arguments Throw {A} e.

Definition obind {A B} (o : Outcome A) (k : A -> Outcome B) : Outcome B :=
  match o with
  | Ok a => k a
  | Throw e => Throw e
  end.

Declare Scope outcome_scope.
Delimit Scope outcome_scope with outcome.
Notation "'let?' x ':=' o 'in' k" := (obind o (fun x => k))
  (at level 10, x name, o at level 100, k at level 200) : outcome_scope.
Local Open Scope outcome_scope.

Definition succeeds {A} (o : Outcome A) : bool :=
  match o with Ok _ => true | Throw _ => false end.

Definition is_RangeError (e : JsError) : bool :=
  match e with RangeError _ => true | _ => false end.

(** ** Buffer: the byte-level reads and writes the codec uses *)

Module Buffer.

Definition bytes := list Z.

Definition byteLength (b : bytes) : Z := Z.of_nat (length b).

(** [b[i]] for an index known to be in range. *)
Definition at_ (b : bytes) (i : Z) : Z := nth (Z.to_nat i) b 0.

Definition out_of_range : JsError :=
  RangeError "Attempt to access memory outside buffer bounds".

(** [first + this[++offset] * 2 ** 8 + this[++offset] * 2 ** 16 + last * 2 ** 24]. *)
Definition uint32le (b : bytes) (offset : Z) : Z :=
  at_ b offset
  + at_ b (offset + 1) * 2 ^ 8
  + at_ b (offset + 2) * 2 ^ 16
  + at_ b (offset + 3) * 2 ^ 24.

(** [readUInt32LE(offset)]: the first and the last byte must exist. *)
Definition readUInt32LE (b : bytes) (offset : Z) : Outcome Z :=
  if (0 <=? offset) && (offset + 4 <=? byteLength b)
  then Ok (uint32le b offset)
  else Throw out_of_range.

(** An IEEE-754 single is kept as its 32-bit pattern: no claim looks
    inside a float that was read. *)
Definition float32 := Z.

Definition readFloatLE (b : bytes) (offset : Z) : Outcome float32 :=
  readUInt32LE b offset.

(** [val | (val & 2**7) * 0x1fffffe]: the byte as a signed number. *)
Definition int8 (val : Z) : Z := if 128 <=? val then val - 256 else val.

(** [readInt8(offset)]. *)
Definition readInt8 (b : bytes) (offset : Z) : Outcome Z :=
  if (0 <=? offset) && (offset + 1 <=? byteLength b)
  then Ok (int8 (at_ b offset))
  else Throw out_of_range.

(** [subarray(start)] for [0 <= start]. *)
Definition subarray (b : bytes) (start : Z) : bytes := drop (Z.to_nat start) b.

Definition int16_of (lo hi : Z) : Z :=
  let u := lo + hi * 2 ^ 8 in
  if 32768 <=? u then u - 65536 else u.

(** Pairs of bytes read as little-endian int16 (the host is little-endian). *)
Fixpoint int16_elements (b : bytes) : list Z :=
  match b with
  | lo :: hi :: rest => int16_of lo hi :: int16_elements rest
  | _ => []
  end.

(** [new Int16Array(buffer, byteOffset)] with the length left out: the
    offset must be aligned and inside the buffer, and the byte length of the
    buffer a multiple of the element size. *)
Definition Int16Array (buffer : bytes) (byteOffset : Z) : Outcome (list Z) :=
  if negb (byteOffset mod 2 =? 0) then
    Throw (RangeError "start offset of Int16Array should be a multiple of 2")
  else if negb (byteLength buffer mod 2 =? 0) then
    Throw (RangeError "byte length of Int16Array should be a multiple of 2")
  else if byteLength buffer <? byteOffset then
    Throw (RangeError "Start offset is outside the bounds of the buffer")
  else Ok (int16_elements (subarray buffer byteOffset)).

(** The four bytes of an unsigned 32-bit integer, least significant first. *)
Definition le32 (n : Z) : bytes :=
  [ Z.land n 255;
    Z.land (Z.shiftr n 8) 255;
    Z.land (Z.shiftr n 16) 255;
    Z.land (Z.shiftr n 24) 255 ].

(** [Buffer.alloc(4)] followed by [writeUInt32LE(value)]: the value is
    checked against [0, 2^32 - 1] and its integer part is stored. *)
Definition writeUInt32LE (value : Q) : Outcome bytes :=
  if Qle_bool 0 value && Qle_bool value (inject_Z 4294967295)
  then Ok (le32 (Qfloor value))
  else Throw (RangeError "The value is out of range.").

Definition concat (bs : list bytes) : bytes := List.concat bs.

End Buffer.

(** ** messages/readable.js *)

Module Readable.
Import Buffer.

Section Decoders.
(** The decoders store the header they are given and never look at it. *)
Context {Header : Type}.

Record Plugged := mkPlugged {
  plugged_header : Header;
  phoneType : Z;
  wifi : option Z          (* [None]: the property was not set *)
}.

Definition new_Plugged (header : Header) (data : bytes) : Outcome Plugged :=
  let wifiAvail := byteLength data =? 8 in
  if wifiAvail then
    let? pt := readUInt32LE data 0 in
    let? w := readUInt32LE data 4 in
    Ok (mkPlugged header pt (Some w))
  else
    let? pt := readUInt32LE data 0 in
    Ok (mkPlugged header pt None).

Record AudioData := mkAudioData {
  audio_header : Header;
  decodeType : Z;
  volume : float32;
  audioType : Z;
  command : option Z;
  volumeDuration : option float32;
  data : option (list Z)   (* the Int16Array of PCM samples *)
}.

Definition new_AudioData (header : Header) (data : bytes) : Outcome AudioData :=
  let? dt := readUInt32LE data 0 in
  let? vol := readFloatLE data 4 in
  let? at_ := readUInt32LE data 8 in
  let amount := byteLength data - 12 in
  if amount =? 1 then
    let? c := readInt8 data 12 in
    Ok (mkAudioData header dt vol at_ (Some c) None None)
  else if amount =? 4 then
    let? d := readFloatLE data 12 in
    Ok (mkAudioData header dt vol at_ None (Some d) None)
  else
    let? pcm := Int16Array data 12 in
    Ok (mkAudioData header dt vol at_ None None (Some pcm)).

End Decoders.
Arguments Plugged : clear implicits.
Arguments AudioData : clear implicits.

End Readable.

(** ** messages/sendable.js: the payloads of SendAudio and SendMultiTouch *)

Module Outbound.
Import Buffer.

(** A number that [writeUInt32LE] accepts and four bytes hold. *)
Definition uint32 (n : Z) : Prop := 0 <= n <= 4294967295.

(** A number an Int16Array element holds. *)
Definition int16 (v : Z) : Prop := -32768 <= v <= 32767.

(** The two bytes an Int16Array holds for an element, low byte first (the
    host is little-endian). *)
Definition int16_bytes (v : Z) : bytes :=
  let u := v mod 65536 in
  [u mod 256; u / 256].

(** [this.data.buffer] for an Int16Array that owns its buffer. *)
Definition Int16Array_buffer (samples : list Z) : bytes :=
  flat_map int16_bytes samples.

(** [SendAudio.getPayload()]; [writeFloatLE(0.0, 4)] leaves four zero
    bytes. *)
Definition SendAudio_getPayload (data : list Z) : Outcome bytes :=
  let? decodeType := writeUInt32LE 5 in
  let volume := [0; 0; 0; 0] in
  let? audioType := writeUInt32LE 3 in
  let audioData := concat [decodeType; volume; audioType] in
  Ok (concat [audioData; Int16Array_buffer data]).

Section MultiTouch.
(** The four bytes [writeFloatLE] stores for a number: the IEEE-754 single
    nearest to it, whose bit pattern is not looked into. *)
Variable writeFloatLE : Q -> bytes.

Record TouchItem := mkTouchItem {
  touch_x : Q;
  touch_y : Q;
  touch_action : Z;
  touch_id : Z
}.

(** [TouchItem.getPayload()]: the two integers are written first. *)
Definition TouchItem_getPayload (t : TouchItem) : Outcome bytes :=
  let? actionB := writeUInt32LE (inject_Z t.(touch_action)) in
  let? idB := writeUInt32LE (inject_Z t.(touch_id)) in
  let xB := writeFloatLE t.(touch_x) in
  let yB := writeFloatLE t.(touch_y) in
  Ok (concat [xB; yB; actionB; idB]).

(** [touchData.map(({ x, y, action }, index) => new TouchItem(x, y, action, index))]. *)
Fixpoint touches_from (index : nat) (touchData : list (Q * Q * Z)) : list TouchItem :=
  match touchData with
  | [] => []
  | (x, y, action) :: rest =>
      mkTouchItem x y action (Z.of_nat index) :: touches_from (S index) rest
  end.

Definition new_SendMultiTouch (touchData : list (Q * Q * Z)) : list TouchItem :=
  touches_from 0 touchData.

(** [this.touches.map(i => i.getPayload())]: the first payload that throws
    ends the map. *)
Fixpoint payloads (touches : list TouchItem) : Outcome (list bytes) :=
  match touches with
  | [] => Ok []
  | t :: rest =>
      let? p := TouchItem_getPayload t in
      let? ps := payloads rest in
      Ok (p :: ps)
  end.

(** [SendMultiTouch.getPayload()]. *)
Definition SendMultiTouch_getPayload (touches : list TouchItem) : Outcome bytes :=
  let? ps := payloads touches in
  Ok (concat ps).

End MultiTouch.

End Outbound.

(** ** messages/utils.js and messages/sendable.js *)

Module Sendable.
Import Buffer Outbound.

(** A JS string: its UTF-16 code units. *)
Definition JSString := list Z.

Definition js (s : string) : JSString :=
  map (fun a => Z.of_N (Ascii.N_of_ascii a)) (String.list_ascii_of_string s).

(** [Buffer.from(s, 'ascii')]: one byte per code unit, its low eight bits. *)
Definition from_ascii (s : JSString) : bytes := map (fun c => Z.land c 255) s.

(** utils.js: [Math.max(min, Math.min(number, max))]. *)
Definition clamp (number min max : Q) : Q := Qmax min (Qmin number max).

Definition Number_of_bool (b : bool) : Q := if b then 1%Q else 0%Q.

Module TouchAction.
Definition Down : Z := 14.
Definition Move : Z := 15.
Definition Up : Z := 16.
End TouchAction.

Module FileAddress.
Definition DPI := js "/tmp/screen_dpi".
Definition NIGHT_MODE := js "/tmp/night_mode".
Definition HAND_DRIVE_MODE := js "/tmp/hand_drive_mode".
Definition CHARGE_MODE := js "/tmp/charge_mode".
Definition BOX_NAME := js "/etc/box_name".
Definition OEM_ICON := js "/etc/oem_icon.png".
Definition AIRPLAY_CONFIG := js "/etc/airplay.conf".
Definition ICON_120 := js "/etc/icon_120x120.png".
Definition ICON_180 := js "/etc/icon_180x180.png".
Definition ICON_250 := js "/etc/icon_256x256.png".
Definition ANDROID_WORK_MODE := js "/etc/android_work_mode".
End FileAddress.

(** The configuration object handed to [start] (main.js, DEFAULT_CONFIG). *)
Record Config := mkConfig {
  width : Z;
  height : Z;
  fps : Z;
  dpi : Z;
  format : Z;
  iBoxVersion : Z;
  phoneWorkMode : Z;
  packetMax : Z;
  boxName : JSString;
  nightMode : bool;
  hand : Z;
  mediaDelay : Z;
  audioTransferMode : bool;
  wifiType : JSString;
  micType : JSString;
  androidWorkMode : bool     (* absent from DEFAULT_CONFIG: falsy *)
}.

Definition DEFAULT_CONFIG : Config :=
  {| width := 800; height := 640; fps := 20; dpi := 160; format := 5;
     iBoxVersion := 2; phoneWorkMode := 2; packetMax := 49152;
     boxName := js "nodePlay"; nightMode := false; hand := 0;
     mediaDelay := 300; audioTransferMode := false;
     wifiType := js "5ghz"; micType := js "os";
     androidWorkMode := false |}.

(** The names of [MessageType] (messages/common.js) that sendable.js uses. *)
Inductive MessageTypeName :=
| Command | Touch | MultiTouch | AudioData | SendFile | HeartBeat | Open
| BoxSettings | LogoType | CloseDongle | DisconnectPhone.

(** An outbound message object, once constructed.  [SendNumber],
    [SendBoolean], [SendString] are [SendFile] objects built by their
    constructors below. *)
Inductive Message :=
| MkSendCommand (value : option Z)        (* [CommandMapping[name]], maybe undefined *)
| MkSendTouch (x y : Q) (action : Z)
| MkSendMultiTouch (touches : list TouchItem)
| MkSendAudio (data : list Z)             (* the elements of the Int16Array *)
| MkSendFile (content : bytes) (fileName : JSString)
| MkHeartBeat
| MkSendOpen (config : Config)
| MkSendBoxSettings (config : Config) (syncTime : option Z)
| MkSendLogoType (logoType : Z)
| MkSendCloseDongle
| MkSendDisconnectPhone.

Section Common.
(** messages/common.js is not part of the sources at hand: the header
    builder, the table of type tags and the table of command codes are
    taken as they are, whatever they hold. *)
Variable asBuffer : Z -> Z -> bytes.              (* MessageHeader.asBuffer(type, length) *)
Variable MessageType : MessageTypeName -> Z.
Variable CommandMapping : JSString -> option Z.
(** [JSON.stringify] of the four-field settings object, and the clock
    read by [getCurrentTimeInMs]. *)
Variable stringify_settings : Z -> Z -> Z -> Z -> JSString.
Variable getCurrentTimeInMs : Z.
(** IEEE double rounding of an exact product. *)
Variable fl : Q -> Q.
(** The four bytes [writeFloatLE] stores for a number. *)
Variable writeFloatLE : Q -> bytes.

Definition new_SendCommand (value : JSString) : Message :=
  MkSendCommand (CommandMapping value).

(** [new SendNumber(content, file)]: the four bytes are written in the
    constructor, which therefore can throw. *)
Definition new_SendNumber (content : Q) (file : JSString) : Outcome Message :=
  let? message := writeUInt32LE content in
  Ok (MkSendFile message file).

Definition new_SendBoolean (content : bool) (file : JSString) : Outcome Message :=
  new_SendNumber (Number_of_bool content) file.

(** [new SendString(content, file)]: what it prints with [console.error],
    and the object. *)
Definition new_SendString (content file : JSString) : list string * Message :=
  ((if 16 <? Z.of_nat (length content) then ["string too long"%string] else []),
   MkSendFile (from_ascii content) file).

Definition type_of (m : Message) : Z :=
  match m with
  | MkSendCommand _ => MessageType Command
  | MkSendTouch _ _ _ => MessageType Touch
  | MkSendMultiTouch _ => MessageType MultiTouch
  | MkSendAudio _ => MessageType AudioData
  | MkSendFile _ _ => MessageType SendFile
  | MkHeartBeat => MessageType HeartBeat
  | MkSendOpen _ => MessageType Open
  | MkSendBoxSettings _ _ => MessageType BoxSettings
  | MkSendLogoType _ => MessageType LogoType
  | MkSendCloseDongle => MessageType CloseDongle
  | MkSendDisconnectPhone => MessageType DisconnectPhone
  end.

(** [SendFile.getFileName] and [SendFile.getLength]. *)
Definition getFileName (name : JSString) : bytes := from_ascii (name ++ [0]).

Definition getLength (data : bytes) : Outcome bytes :=
  writeUInt32LE (inject_Z (byteLength data)).

(** [writeUInt32LE(undefined)]: the value becomes NaN, which passes the
    range check and is stored as zero. *)
Definition writeUInt32LE_opt (v : option Z) : Outcome bytes :=
  match v with
  | Some n => writeUInt32LE (inject_Z n)
  | None => Ok (le32 0)
  end.

(** [getPayload()]; [None] for the classes that have no payload. *)
Definition getPayload (m : Message) : option (Outcome bytes) :=
  match m with
  | MkSendCommand value => Some (writeUInt32LE_opt value)
  | MkSendTouch x y action =>
      Some (let flags := le32 0 in
            let? actionB := writeUInt32LE (inject_Z action) in
            let finalX := clamp (fl (10000 * x)) 0 10000 in
            let finalY := clamp (fl (10000 * y)) 0 10000 in
            let? xB := writeUInt32LE finalX in
            let? yB := writeUInt32LE finalY in
            Ok (concat [actionB; xB; yB; flags]))
  | MkSendMultiTouch touches => Some (SendMultiTouch_getPayload writeFloatLE touches)
  | MkSendAudio data => Some (SendAudio_getPayload data)
  | MkSendFile content fileName =>
      Some (let newFileName := getFileName fileName in
            let? nameLength := getLength newFileName in
            let? contentLength := getLength content in
            Ok (concat [nameLength; newFileName; contentLength; content]))
  | MkSendOpen config =>
      Some (let? width := writeUInt32LE (inject_Z config.(width)) in
            let? height := writeUInt32LE (inject_Z config.(height)) in
            let? fps := writeUInt32LE (inject_Z config.(fps)) in
            let? format := writeUInt32LE (inject_Z config.(format)) in
            let? packetMax := writeUInt32LE (inject_Z config.(packetMax)) in
            let? iBox := writeUInt32LE (inject_Z config.(iBoxVersion)) in
            let? phoneMode := writeUInt32LE (inject_Z config.(phoneWorkMode)) in
            Ok (concat [width; height; fps; format; packetMax; iBox; phoneMode]))
  | MkSendBoxSettings config syncTime =>
      Some (Ok (from_ascii
                  (stringify_settings
                     config.(mediaDelay)
                     (default getCurrentTimeInMs syncTime)
                     config.(width)
                     config.(height))))
  | MkSendLogoType logoType => Some (writeUInt32LE (inject_Z logoType))
  | MkHeartBeat | MkSendCloseDongle | MkSendDisconnectPhone => None
  end.

(** The number the four bytes of a touch coordinate hold: the integer part
    of [clamp(10000 * x, 0, 10000)]. *)
Definition encoded (x : Q) : Z := Qfloor (clamp (fl (10000 * x)) 0 10000).

(** [serialise()]: [SendableMessage] for the classes without payload,
    [SendableMessageWithPayload] for the others. *)
Definition serialise (m : Message) : Outcome bytes :=
  match getPayload m with
  | None => Ok (asBuffer (type_of m) 0)
  | Some payload =>
      let? data := payload in
      let byteLength := byteLength data in
      let header := asBuffer (type_of m) byteLength in
      Ok (concat [header; data])
  end.

(** [serialise()] of [SendableMessageWithPayload], for a SendAudio. *)
Definition SendAudio_serialise (data : list Z) : Outcome bytes :=
  let? payload := SendAudio_getPayload data in
  Ok (concat [asBuffer (MessageType AudioData) (byteLength payload); payload]).

End Common.

End Sendable.

(** ** The DongleDriver class (main.js) *)

Module Driver.
Import Buffer Sendable.

Definition CONFIG_NUMBER : Z := 1.
Definition MAX_ERROR_COUNT : Z := 5.

(** *** The USB handle the collaborator supplies *)

Inductive Direction := DirIn | DirOut.

Definition Direction_eqb (a b : Direction) : bool :=
  match a, b with
  | DirIn, DirIn | DirOut, DirOut => true
  | _, _ => false
  end.

Record USBEndpoint := mkEndpoint {
  direction : Direction;
  endpointNumber : Z;
  packetSize : Z
}.

(** An interface with the endpoints of its current alternate. *)
Record USBInterface := mkInterface {
  interfaceNumber : Z;
  endpoints : list USBEndpoint
}.

Record USBConfiguration := mkConfiguration {
  interfaces : list USBInterface
}.

Inductive TransferStatus := status_ok | status_stall | status_babble.

(** What one [transferIn] settles to: it rejects, it resolves without a
    data buffer, or it resolves with the bytes read. *)
Inductive InResult :=
| InThrows (e : JsError)
| InNoData
| InData (b : bytes).

(** A device object: its two properties the driver reads, and how its
    methods answer.  [on_selectConfiguration n] gives the [configuration]
    property the device shows once the call has resolved. *)
Record USBDevice := mkDevice {
  opened : bool;
  configuration : option USBConfiguration;
  on_selectConfiguration : Z -> Outcome (option USBConfiguration);
  on_claimInterface : Z -> Outcome unit;
  on_close : Outcome unit;
  on_transferOut : Z -> bytes -> Outcome TransferStatus
}.

Definition set_opened (b : bool) (d : USBDevice) : USBDevice :=
  mkDevice b d.(configuration) d.(on_selectConfiguration)
           d.(on_claimInterface) d.(on_close) d.(on_transferOut).

Definition set_configuration (c : option USBConfiguration) (d : USBDevice) : USBDevice :=
  mkDevice d.(opened) c d.(on_selectConfiguration)
           d.(on_claimInterface) d.(on_close) d.(on_transferOut).

(** *** The driver object *)

Record Driver := mkDriver {
  _heartbeatInterval : option nat;     (* the id [setInterval] returned *)
  _device : option nat;                (* a reference into [devices] *)
  _inEP : option USBEndpoint;
  _outEP : option USBEndpoint;
  errorCount : Z
}.

(** [constructor()]. *)
Definition new_DongleDriver : Driver := mkDriver None None None None 0.

(** *** Timers, detached continuations and what the outside observes *)

Record Timer := mkTimer {
  timer_id : nat;
  due : Z;                    (* ms *)
  period : option Z;          (* [Some p]: armed by [setInterval] *)
  job : Message               (* both callbacks of the driver call [send] *)
}.

(** What is left to run of a call that was not awaited. *)
Inductive Task :=
| CloseResume (h : nat).      (* [close()] behind its [await this._device.close()] *)

Section WithCommon.
(** messages/common.js again: the inbound side. *)
Context {MessageHeader ReadableMessage : Type}.
Variable dataLength : Z.                                    (* MessageHeader.dataLength *)
Variable fromBuffer : bytes -> Outcome MessageHeader.
Variable header_length : MessageHeader -> Z.                (* header.length *)
Variable toMessage :
  MessageHeader -> option bytes -> Outcome (option ReadableMessage).
Variable asBuffer : Z -> Z -> bytes.
Variable MessageType : MessageTypeName -> Z.
Variable CommandMapping : JSString -> option Z.
Variable stringify_settings : Z -> Z -> Z -> Z -> JSString.
Variable getCurrentTimeInMs : Z.
Variable fl : Q -> Q.
Variable writeFloatLE : Q -> bytes.

Inductive Event :=
| failure
| message (m : ReadableMessage).

(** What the outside can observe.  Of the [console.log] lines only the
    two that mark the start of the read loop are kept; [console.debug] is
    left out. *)
Inductive Action :=
| CallSelectConfiguration (h : nat) (n : Z)
| CallClaimInterface (h : nat) (n : Z)
| CallClose (h : nat)
| CallTransferOut (h : nat) (ep : Z) (payload : bytes)
| CallTransferIn (h : nat) (ep : Z) (len : Z)
| Emit (e : Event)
| ConsoleLog (s : string)
| ConsoleError (s : string)
| UnhandledRejection (e : JsError).

Record World := mkWorld {
  devices : gmap nat USBDevice;
  clock : Z;
  timers : list Timer;
  next_timer : nat;
  pending : list Task;
  trace : list Action         (* oldest first *)
}.

Definition State : Type := Driver * World.

Definition log (a : Action) (w : World) : World :=
  mkWorld w.(devices) w.(clock) w.(timers) w.(next_timer) w.(pending)
          (w.(trace) ++ [a]).

Definition logs (l : list Action) (w : World) : World :=
  mkWorld w.(devices) w.(clock) w.(timers) w.(next_timer) w.(pending)
          (w.(trace) ++ l).

Definition set_devices (ds : gmap nat USBDevice) (w : World) : World :=
  mkWorld ds w.(clock) w.(timers) w.(next_timer) w.(pending) w.(trace).

Definition set_timers (ts : list Timer) (w : World) : World :=
  mkWorld w.(devices) w.(clock) ts w.(next_timer) w.(pending) w.(trace).

Definition set_clock (c : Z) (w : World) : World :=
  mkWorld w.(devices) c w.(timers) w.(next_timer) w.(pending) w.(trace).

Definition set_pending (ts : list Task) (w : World) : World :=
  mkWorld w.(devices) w.(clock) w.(timers) w.(next_timer) ts w.(trace).

(** [setTimeout] and [setInterval]: a fresh id, the timer armed. *)
Definition arm (delay : Z) (p : option Z) (j : Message) (w : World) : nat * World :=
  let id := w.(next_timer) in
  (id, mkWorld w.(devices) w.(clock)
               (w.(timers) ++ [mkTimer id (w.(clock) + delay) p j])
               (S id) w.(pending) w.(trace)).

Definition setTimeout (j : Message) (delay : Z) (w : World) : nat * World :=
  arm delay None j w.

Definition setInterval (j : Message) (delay : Z) (w : World) : nat * World :=
  arm delay (Some delay) j w.

Definition clearInterval (id : nat) (w : World) : World :=
  set_timers (List.filter (fun t => negb (Nat.eqb t.(timer_id) id)) w.(timers)) w.

(** [d.opened] read through a reference. *)
Definition opened_at (w : World) (h : nat) : bool :=
  match w.(devices) !! h with
  | Some d => d.(opened)
  | None => false
  end.

(** [this._device?.opened]. *)
Definition device_opened (st : State) : bool :=
  match (fst st).(_device) with
  | Some h => opened_at (snd st) h
  | None => false
  end.

Definition set_heartbeat (t : option nat) (s : Driver) : Driver :=
  mkDriver t s.(_device) s.(_inEP) s.(_outEP) s.(errorCount).

Definition set_device (h : option nat) (s : Driver) : Driver :=
  mkDriver s.(_heartbeatInterval) h s.(_inEP) s.(_outEP) s.(errorCount).

Definition set_endpoints (i o : option USBEndpoint) (s : Driver) : Driver :=
  mkDriver s.(_heartbeatInterval) s.(_device) i o s.(errorCount).

Definition set_errorCount (n : Z) (s : Driver) : Driver :=
  mkDriver s.(_heartbeatInterval) s.(_device) s.(_inEP) s.(_outEP) n.

(** What the outside saw of a run: the bulk OUT transfers asked of the
    devices, and the 'failure' events emitted. *)
Definition transfers_out (l : list Action) : list (nat * Z * bytes) :=
  flat_map (fun a => match a with
                     | CallTransferOut h ep payload => [(h, ep, payload)]
                     | _ => []
                     end) l.

Definition failures (l : list Action) : nat :=
  length (List.filter (fun a => match a with Emit failure => true | _ => false end) l).

(** *** close *)

(** [close()] up to its [await]: nothing without a device; otherwise the
    heartbeat is cancelled and the handle's [close()] is called.  The result
    is the handle whose answer the rest of [close] waits for. *)
Definition close_enter (st : State) : option nat * State :=
  let (s, w) := st in
  match s.(_device) with
  | None => (None, st)
  | Some h =>
      let st1 :=
        match s.(_heartbeatInterval) with
        | Some t => (set_heartbeat None s, clearInterval t w)
        | None => (s, w)
        end in
      (Some h, (fst st1, log (CallClose h) (snd st1)))
  end.

(** The rest of [close()], once the handle's [close()] has settled: a
    rejection leaves through the [await]; otherwise the handle is closed and
    the three references are dropped. *)
Definition close_resume (h : nat) (st : State) : Outcome unit * State :=
  let (s, w) := st in
  match w.(devices) !! h with
  | None => (Throw (TypeError "close is not a function"), st)
  | Some d =>
      match d.(on_close) with
      | Throw e => (Throw e, st)
      | Ok _ =>
          (Ok tt,
           (set_endpoints None None (set_device None s),
            set_devices (<[h := set_opened false d]> w.(devices)) w))
      end
  end.

(** [await this.close()]. *)
Definition close (st : State) : Outcome unit * State :=
  match close_enter st with
  | (None, st1) => (Ok tt, st1)
  | (Some h, st1) => close_resume h st1
  end.

(** [this.close()] without [await]: the caller goes on while the rest of
    [close] waits for the handle. *)
Definition close_detached (st : State) : State :=
  match close_enter st with
  | (None, st1) => st1
  | (Some h, (s, w)) => (s, set_pending (w.(pending) ++ [CloseResume h]) w)
  end.

Definition run_task (t : Task) (st : State) : State :=
  match t with
  | CloseResume h =>
      match close_resume h st with
      | (Ok _, st1) => st1
      | (Throw e, (s, w)) => (s, log (UnhandledRejection e) w)
      end
  end.

(** The detached continuations run, oldest first. *)
Definition run_pending (st : State) : State :=
  let (s, w) := st in
  fold_left (fun acc t => run_task t acc) w.(pending) (s, set_pending [] w).

(** *** send *)

Definition serialise_ := serialise asBuffer MessageType stringify_settings
                                   getCurrentTimeInMs fl writeFloatLE.

(** [this._outEP.endpointNumber], a TypeError on [null]. *)
Definition endpointNumber_of (ep : option USBEndpoint) : Outcome Z :=
  match ep with
  | Some e => Ok e.(endpointNumber)
  | None => Throw (TypeError "Cannot read properties of null (reading 'endpointNumber')")
  end.

(** The [try] block of [send] up to the call: the payload, then the
    endpoint number. *)
Definition prepare (m : Message) (s : Driver) : Outcome (Z * bytes) :=
  let? payload := serialise_ m in
  let? ep := endpointNumber_of s.(_outEP) in
  Ok (ep, payload).

(** [send(message)]: [None] is [null]. *)
Definition send (m : Message) (st : State) : option bool * State :=
  let (s, w) := st in
  match s.(_device) with
  | None => (None, st)
  | Some h =>
      match w.(devices) !! h with
      | None => (None, st)
      | Some d =>
          if negb d.(opened) then (None, st)
          else
            match prepare m s with
            | Throw e =>
                (Some false,
                 (s, log (ConsoleError "Failure sending message to dongle") w))
            | Ok (ep, payload) =>
                let w1 := log (CallTransferOut h ep payload) w in
                match d.(on_transferOut) ep payload with
                | Throw e =>
                    (Some false,
                     (s, log (ConsoleError "Failure sending message to dongle") w1))
                | Ok status_ok => (Some true, (s, w1))
                | Ok _ => (Some false, (s, log (ConsoleError "transferResult") w1))
                end
            end
      end
  end.

(** [Promise.all(messages.map(this.send))]: the sends start in order;
    [send] never rejects, so neither does the whole. *)
Fixpoint send_all (ms : list Message) (st : State) : list (option bool) * State :=
  match ms with
  | [] => ([], st)
  | m :: rest =>
      let (r, st1) := send m st in
      let (rs, st2) := send_all rest st1 in
      (r :: rs, st2)
  end.

(** *** readLoop *)

(** How the loop stops: the [while] condition fails, the error ceiling is
    met, a promised body did not come, or it stays suspended in the [await]
    of a [transferIn] that it has called and the device has not answered. *)
Inductive LoopExit :=
| DeviceNotOpen
| CircuitBroken
| BodyMissing
| AwaitingTransfer.

Inductive Step :=
| Continue
| Exit (e : LoopExit).

(** The [catch] clause. *)
Definition caught (e : JsError) (st : State) : State :=
  let (s, w) := st in
  (set_errorCount (s.(errorCount) + 1) s,
   log (ConsoleError
          match e with
          | HeaderBuildError _ => "Error parsing header for data"
          | _ => "Unexpected Error parsing header for data"
          end) w).

(** [header.toMessage(extraData)] and the emit. *)
Definition deliver (header : MessageHeader) (extraData : option bytes)
    (st : State) : State :=
  match toMessage header extraData with
  | Throw e => caught e st
  | Ok None => st
  | Ok (Some m) => (fst st, log (Emit (message m)) (snd st))
  end.

(** One turn of the [while] loop.  [script] holds what the device answers
    to the [transferIn] calls still to come; the turn gives back what is
    left of it.  A [transferIn] is recorded when it is called, whether or
    not the script holds an answer to it. *)
Definition iteration (script : list InResult) (st : State)
    : Step * list InResult * State :=
  let (s, w) := st in
  match s.(_device) with
  | None => (Exit DeviceNotOpen, script, st)
  | Some h =>
      if negb (opened_at w h) then (Exit DeviceNotOpen, script, st)
      else if MAX_ERROR_COUNT <=? s.(errorCount) then
        let (s1, w1) := close_detached st in
        (Exit CircuitBroken, script, (s1, log (Emit failure) w1))
      else
        match endpointNumber_of s.(_inEP) with
        | Throw e => (Continue, script, caught e st)
        | Ok ep =>
            let w1 := log (CallTransferIn h ep dataLength) w in
            match script with
            | [] => (Exit AwaitingTransfer, [], (s, w1))
            | headerData :: script1 =>
                match headerData with
                | InThrows e => (Continue, script1, caught e (s, w1))
                | InNoData =>
                    (Continue, script1,
                     caught (HeaderBuildError "Failed to read header data") (s, w1))
                | InData data =>
                    match fromBuffer data with
                    | Throw e => (Continue, script1, caught e (s, w1))
                    | Ok header =>
                        if header_length header =? 0 then
                          (Continue, script1, deliver header None (s, w1))
                        else
                          let w2 :=
                            log (CallTransferIn h ep (header_length header)) w1 in
                          match script1 with
                          | [] => (Exit AwaitingTransfer, [], (s, w2))
                          | extraDataRes :: script2 =>
                              match extraDataRes with
                              | InThrows e => (Continue, script2, caught e (s, w2))
                              | InNoData =>
                                  (Exit BodyMissing, script2,
                                   (s, log (ConsoleError "Failed to read extra data") w2))
                              | InData b =>
                                  (Continue, script2, deliver header (Some b) (s, w2))
                              end
                          end
                    end
                end
            end
        end
  end.

(** The body of [readLoop], given a number of turns; [None] if they do not
    suffice. *)
Fixpoint readLoop_turns (fuel : nat) (script : list InResult) (st : State)
    : option LoopExit * State :=
  match fuel with
  | O => (None, st)
  | S fuel' =>
      match iteration script st with
      | (Exit e, _, st1) => (Some e, st1)
      | (Continue, script1, st1) => readLoop_turns fuel' script1 st1
      end
  end.

(** A turn that does not stop the loop either takes an answer from the
    script or raises [errorCount] below the ceiling: this many turns are
    always enough. *)
Definition turns_needed (script : list InResult) (st : State) : nat :=
  S (length script + Z.to_nat (MAX_ERROR_COUNT - (fst st).(errorCount))).

Definition readLoop (script : list InResult) (st : State) : option LoopExit * State :=
  let st0 := (fst st, log (ConsoleLog "ReadLoop started") (snd st)) in
  readLoop_turns (turns_needed script st0) script st0.

(** *** initialise *)

Definition find_endpoint (dir : Direction) (eps : list USBEndpoint) : option USBEndpoint :=
  List.find (fun e => Direction_eqb e.(direction) dir) eps.

(** The [try] block of [initialise]. *)
Definition initialise_try (device : nat) (st : State) : Outcome unit * State :=
  let (s, w) := st in
  let s1 := set_device (Some device) s in
  match w.(devices) !! device with
  | None =>
      (Throw (DriverStateError "Illegal state - device not opened"), (s1, w))
  | Some d =>
      if negb d.(opened) then
        (Throw (DriverStateError "Illegal state - device not opened"), (s1, w))
      else
        let w1 := log (CallSelectConfiguration device CONFIG_NUMBER) w in
        match d.(on_selectConfiguration) CONFIG_NUMBER with
        | Throw e => (Throw e, (s1, w1))
        | Ok cfg =>
            let w2 :=
              set_devices (<[device := set_configuration cfg d]> w1.(devices)) w1 in
            match cfg with
            | None =>
                (Throw (DriverStateError "Illegal state - device has no configuration"),
                 (s1, w2))
            | Some c =>
                match c.(interfaces) with
                | [] =>
                    (Throw (TypeError "Cannot destructure property 'interfaceNumber'"),
                     (s1, w2))
                | i0 :: _ =>
                    let inEndpoint := find_endpoint DirIn i0.(endpoints) in
                    let outEndpoint := find_endpoint DirOut i0.(endpoints) in
                    match inEndpoint, outEndpoint with
                    | None, _ =>
                        (Throw (DriverStateError "Illegal state - no IN endpoint found"),
                         (s1, w2))
                    | Some _, None =>
                        (Throw (DriverStateError "Illegal state - no OUT endpoint found"),
                         (s1, w2))
                    | Some i, Some o =>
                        let s2 := set_endpoints (Some i) (Some o) s1 in
                        let w3 := log (CallClaimInterface device i0.(interfaceNumber)) w2 in
                        match d.(on_claimInterface) i0.(interfaceNumber) with
                        | Throw e => (Throw e, (s2, w3))
                        | Ok _ => (Ok tt, (s2, w3))
                        end
                    end
                end
            end
        end
  end.

(** [initialise(device)]: nothing when a device is already held; the
    [catch] calls [close()] without waiting for it and throws again. *)
Definition initialise (device : nat) (st : State) : Outcome unit * State :=
  match (fst st).(_device) with
  | Some _ => (Ok tt, st)
  | None =>
      match initialise_try device st with
      | (Ok _, st1) => (Ok tt, st1)
      | (Throw err, st1) => (Throw err, close_detached st1)
      end
  end.

(** *** start *)

Definition new_SendCommand_ := new_SendCommand CommandMapping.

(** The array [initMessages], with what its constructors print; a
    constructor that throws ends [start]. *)
Definition initMessages (config : Config) : Outcome (list string * list Message) :=
  let? m_dpi := new_SendNumber (inject_Z config.(dpi)) FileAddress.DPI in
  let m_open := MkSendOpen config in
  let? m_night := new_SendBoolean config.(nightMode) FileAddress.NIGHT_MODE in
  let? m_hand := new_SendNumber (inject_Z config.(hand)) FileAddress.HAND_DRIVE_MODE in
  let? m_charge := new_SendBoolean true FileAddress.CHARGE_MODE in
  let (printed, m_name) := new_SendString config.(boxName) FileAddress.BOX_NAME in
  let m_settings := MkSendBoxSettings config None in
  let m_wifi := new_SendCommand_ (js "wifiEnable") in
  let m_band :=
    new_SendCommand_
      (if bool_decide (config.(wifiType) = js "5ghz") then js "wifi5g" else js "wifi24g") in
  let m_mic :=
    new_SendCommand_
      (if bool_decide (config.(micType) = js "box") then js "boxMic" else js "mic") in
  let m_audio :=
    new_SendCommand_
      (if config.(audioTransferMode) then js "audioTransferOn" else js "audioTransferOff") in
  let base :=
    [m_dpi; m_open; m_night; m_hand; m_charge; m_name; m_settings;
     m_wifi; m_band; m_mic; m_audio] in
  if config.(androidWorkMode) then
    let? m_android :=
      new_SendBoolean config.(androidWorkMode) FileAddress.ANDROID_WORK_MODE in
    Ok (printed, base ++ [m_android])
  else Ok (printed, base).

Definition start (config : Config) (st : State) : Outcome unit * State :=
  let (s, w) := st in
  match s.(_device) with
  | None => (Throw (DriverStateError "No device set - call initialise first"), st)
  | Some h =>
      if negb (opened_at w h) then (Ok tt, st)
      else
        let s1 := set_errorCount 0 s in
        match initMessages config with
        | Throw e => (Throw e, (s1, w))
        | Ok (printed, msgs) =>
            let w1 := logs (map ConsoleError printed) w in
            let (_, st2) := send_all msgs (s1, w1) in
            let (_, w3) :=
              setTimeout (new_SendCommand_ (js "wifiConnect")) 1000 (snd st2) in
            let w4 := log (ConsoleLog "Starting readLoop...") w3 in
            (* [this.readLoop()] runs up to its first pending [await] *)
            let (_, st5) := readLoop [] (fst st2, w4) in
            let (id, w6) := setInterval MkHeartBeat 2000 (snd st5) in
            (Ok tt, (set_heartbeat (Some id) (fst st5), w6))
        end
  end.

(** *** The timers firing *)

Definition earlier (a b : Timer) : Timer :=
  if b.(due) <? a.(due) then b else a.

Definition next_due (ts : list Timer) : option Timer :=
  match ts with
  | [] => None
  | t :: rest => Some (fold_left earlier rest t)
  end.

(** A timer fires: the clock reaches its due time, an interval is armed
    again one period later, and the callback sends its message, dropping
    the result. *)
Definition fire (t : Timer) (st : State) : State :=
  let (s, w) := st in
  let others := List.filter (fun x => negb (Nat.eqb x.(timer_id) t.(timer_id))) w.(timers) in
  let armed :=
    match t.(period) with
    | Some p => others ++ [mkTimer t.(timer_id) (t.(due) + p) (Some p) t.(job)]
    | None => others
    end in
  snd (send t.(job) (s, set_clock (Z.max w.(clock) t.(due)) (set_timers armed w))).

(** The next timer due fires, if there is one. *)
Definition tick (st : State) : State :=
  match next_due (snd st).(timers) with
  | None => st
  | Some t => fire t st
  end.

Fixpoint ticks (n : nat) (st : State) : State :=
  match n with
  | O => st
  | S n' => ticks n' (tick st)
  end.

(** *** Words for the statements below *)

(** What [send] puts on the wire for a message: its bytes, if it
    serialises. *)
Definition wire (m : Message) : list bytes :=
  match serialise_ m with
  | Ok payload => [payload]
  | Throw _ => []
  end.

(** [w'] is [w] with [l] added to what was observed, nothing else changed. *)
Definition only_logged (l : list Action) (w w' : World) : Prop :=
  w'.(devices) = w.(devices) /\ w'.(clock) = w.(clock)
  /\ w'.(timers) = w.(timers) /\ w'.(next_timer) = w.(next_timer)
  /\ w'.(pending) = w.(pending) /\ w'.(trace) = w.(trace) ++ l.

(** A header read that gives the loop nothing to parse. *)
Definition header_fails (r : InResult) : Prop :=
  match r with
  | InData _ => False
  | _ => True
  end.

(** What bounds the turns the loop can still take. *)
Definition measure (script : list InResult) (st : State) : nat :=
  (length script + Z.to_nat (MAX_ERROR_COUNT - (fst st).(errorCount)))%nat.


End WithCommon.

Arguments World : clear implicits.
Arguments State : clear implicits.
Arguments Action : clear implicits.
Arguments Event : clear implicits.

End Driver.

(** ** A bench to run the driver on

    One dongle with an IN endpoint 1 and an OUT endpoint 2 on its first
    interface, which answers every call, and stand-ins for what
    messages/common.js provides, used only to run examples. *)

Module Bench.
Import Buffer Sendable Driver.

Definition ep_in : USBEndpoint := mkEndpoint DirIn 1 512.
Definition ep_out : USBEndpoint := mkEndpoint DirOut 2 512.

Definition descriptor : USBConfiguration :=
  mkConfiguration [mkInterface 0 [ep_in; ep_out]].

Definition dongle : USBDevice :=
  mkDevice true None (fun _ => Ok (Some descriptor)) (fun _ => Ok tt) (Ok tt)
           (fun _ _ => Ok status_ok).

(** The same dongle, whose [close()] rejects. *)
Definition stuck_dongle : USBDevice :=
  mkDevice true None (fun _ => Ok (Some descriptor)) (fun _ => Ok tt)
           (Throw (DeviceError "close error")) (fun _ _ => Ok status_ok).

(** The same dongle, not opened. *)
Definition unopened_dongle : USBDevice :=
  mkDevice false None (fun _ => Ok (Some descriptor)) (fun _ => Ok tt) (Ok tt)
           (fun _ _ => Ok status_ok).

(** An open device whose first interface has no endpoint at all. *)
Definition bare_dongle : USBDevice :=
  mkDevice true None (fun _ => Ok (Some (mkConfiguration [mkInterface 0 []])))
           (fun _ => Ok tt) (Ok tt) (fun _ _ => Ok status_ok).


Definition asBuffer (type len : Z) : bytes :=
  concat [le32 1437226410; le32 len; le32 type; le32 0].

Definition MessageType (n : MessageTypeName) : Z :=
  match n with
  | Open => 1 | Touch => 5 | AudioData => 7 | Command => 8 | LogoType => 9
  | DisconnectPhone => 15 | CloseDongle => 21 | MultiTouch => 23
  | BoxSettings => 25 | SendFile => 153 | HeartBeat => 170
  end.

Definition CommandMapping (name : JSString) : option Z :=
  if bool_decide (name = js "wifiEnable") then Some 1000
  else if bool_decide (name = js "wifiConnect") then Some 1002
  else if bool_decide (name = js "wifi24g") then Some 24
  else if bool_decide (name = js "wifi5g") then Some 25
  else if bool_decide (name = js "mic") then Some 7
  else if bool_decide (name = js "boxMic") then Some 15
  else if bool_decide (name = js "audioTransferOn") then Some 22
  else if bool_decide (name = js "audioTransferOff") then Some 23
  else None.

Definition stringify_settings (mediaDelay syncTime w h : Z) : JSString := js "{}".

(** Every coordinate is stored as 0.0. *)
Definition writeFloatLE (q : Q) : bytes := [0; 0; 0; 0].

(** An inbound header, as far as the loop looks at it: type and length. *)
Definition Header : Type := Z * Z.

Definition fromBuffer (b : bytes) : Outcome Header :=
  if (byteLength b =? 16) && (uint32le b 0 =? 1437226410)
  then Ok (uint32le b 8, uint32le b 4)
  else Throw (HeaderBuildError "Invalid buffer").

Definition toMessage (h : Header) (body : option bytes) : Outcome (option (Z * bytes)) :=
  Ok (Some (fst h, default [] body)).

Definition W := World (Z * bytes).
Definition St := State (Z * bytes).

Definition world (d : USBDevice) : W := mkWorld {[ 0%nat := d ]} 0 [] 1 [] [].

(** The driver after a successful [initialise] of device 0. *)
Definition ready : Driver.Driver := mkDriver None (Some 0%nat) (Some ep_in) (Some ep_out) 0.

(** The driver with its error counter at the ceiling. *)
Definition tripped : Driver.Driver :=
  mkDriver None (Some 0%nat) (Some ep_in) (Some ep_out) 5.

Definition send : Message -> St -> option bool * St :=
  Driver.send asBuffer MessageType stringify_settings 0 (fun q => q) writeFloatLE.

Definition readLoop : list InResult -> St -> option LoopExit * St :=
  Driver.readLoop 16 fromBuffer snd toMessage.

Definition readLoop_turns : nat -> list InResult -> St -> option LoopExit * St :=
  Driver.readLoop_turns 16 fromBuffer snd toMessage.

Definition start : Config -> St -> Outcome unit * St :=
  Driver.start 16 fromBuffer snd toMessage asBuffer MessageType CommandMapping
               stringify_settings 0 (fun q => q) writeFloatLE.

Definition tick : St -> St :=
  Driver.tick asBuffer MessageType stringify_settings 0 (fun q => q) writeFloatLE.

Definition ticks : nat -> St -> St :=
  Driver.ticks asBuffer MessageType stringify_settings 0 (fun q => q) writeFloatLE.

End Bench.

(** ** More of messages/readable.js: the decoders of fixed layout *)

Module Inbound.
Import Buffer.

Section Decoders.
Context {Header : Type}.

Record Command := mkCommand {
  command_header : Header;
  value : Z
}.

Definition new_Command (header : Header) (data : bytes) : Outcome Command :=
  let? v := readUInt32LE data 0 in
  Ok (mkCommand header v).

Record ManufacturerInfo := mkManufacturerInfo {
  manufacturer_header : Header;
  a : Z;
  b : Z
}.

Definition new_ManufacturerInfo (header : Header) (data : bytes)
    : Outcome ManufacturerInfo :=
  let? a := readUInt32LE data 0 in
  let? b := readUInt32LE data 4 in
  Ok (mkManufacturerInfo header a b).

Record VideoData := mkVideoData {
  video_header : Header;
  width : Z;
  height : Z;
  flags : Z;
  length_ : Z;                 (* [this.length] *)
  unknown : Z;
  data : bytes
}.

Definition new_VideoData (header : Header) (data : bytes) : Outcome VideoData :=
  let? width := readUInt32LE data 0 in
  let? height := readUInt32LE data 4 in
  let? flags := readUInt32LE data 8 in
  let? len := readUInt32LE data 12 in
  let? unknown := readUInt32LE data 16 in
  Ok (mkVideoData header width height flags len unknown (subarray data 20)).

Record Opened := mkOpened {
  opened_header : Header;
  opened_width : Z;
  opened_height : Z;
  fps : Z;
  format : Z;
  packetMax : Z;
  iBox : Z;
  phoneMode : Z
}.

Definition new_Opened (header : Header) (data : bytes) : Outcome Opened :=
  let? width := readUInt32LE data 0 in
  let? height := readUInt32LE data 4 in
  let? fps := readUInt32LE data 8 in
  let? format := readUInt32LE data 12 in
  let? packetMax := readUInt32LE data 16 in
  let? iBox := readUInt32LE data 20 in
  let? phoneMode := readUInt32LE data 24 in
  Ok (mkOpened header width height fps format packetMax iBox phoneMode).

Record Phase := mkPhase {
  phase_header : Header;
  phase : Z
}.

Definition new_Phase (header : Header) (data : bytes) : Outcome Phase :=
  let? p := readUInt32LE data 0 in
  Ok (mkPhase header p).

End Decoders.
Arguments Command : clear implicits.
Arguments ManufacturerInfo : clear implicits.
Arguments VideoData : clear implicits.
Arguments Opened : clear implicits.
Arguments Phase : clear implicits.

End Inbound.

(** ** The caller: CarPlayManager *)

Module Manager.

(** What storing a number into an Int16Array keeps: its integer part,
    wrapped to 16 bits. *)
Definition truncate (q : Q) : Z :=
  if Qle_bool 0 q then Qfloor q else Qceiling q.

Definition ToInt16 (q : Q) : Z :=
  (truncate q + 32768) mod 65536 - 32768.

(** An element of the Float32Array the microphone callback reads. *)
Inductive Sample :=
| NaN
| NegInfinity
| PosInfinity
| Finite (q : Q).

(** [Math.max(-1, Math.min(1, x))]; [None] is NaN. *)
Definition clamp_unit (x : Sample) : option Q :=
  match x with
  | NaN => None
  | NegInfinity => Some (-1)%Q
  | PosInfinity => Some 1%Q
  | Finite q => Some (Qmax (-1) (Qmin 1 q))
  end.

(** [s < 0 ? s * 0x8000 : s * 0x7FFF]; the product of a float32 number
    with 0x8000 or 0x7FFF is exact in a double. *)
Definition scaled (s : Q) : Q :=
  (if Qle_bool 0 s then s * 32767 else s * 32768)%Q.

(** The microphone callback, one sample:
    [s = Math.max(-1, Math.min(1, x)); int16Data[i] = s < 0 ? s * 0x8000 : s * 0x7FFF].
    NaN is stored as 0. *)
Definition mic_sample (x : Sample) : Z :=
  match clamp_unit x with
  | None => 0
  | Some s => ToInt16 (scaled s)
  end.

(** [handleVideoFrame]: the chunk is ['key'] when [videoData.flags & 1] is
    not zero. *)
Definition is_key_frame (flags : Z) : bool := negb (Z.land flags 1 =? 0).

(** The fields of the manager that [disconnect] reads, apart from the
    microphone and the video decoder: their cleanup touches neither the
    driver nor the device and is left out. *)
Record Manager := mkManager {
  driver : bool;                (* [this.driver] is set *)
  device : option nat;          (* [this.device] *)
  isConnected : bool
}.

Section Disconnect.
Context {ReadableMessage : Type}.

(** The second half of [disconnect()], from [if (this.device)] on: the
    result, whether 'disconnected' was emitted, the manager and the world. *)
Definition disconnect_device (m : Manager) (st : Driver.State ReadableMessage)
    : Outcome unit * bool * (Manager * Driver.State ReadableMessage) :=
  let done w := (Ok tt, true, (mkManager m.(driver) None false, (fst st, w))) in
  let w := snd st in
  match m.(device) with
  | None => (Ok tt, true, (mkManager m.(driver) None false, st))
  | Some h =>
      match w.(Driver.devices) !! h with
      | None => done w
      | Some d =>
          if negb d.(Driver.opened) then done w
          else
            let w1 := Driver.log (Driver.CallClose h) w in
            match d.(Driver.on_close) with
            | Throw e => (Throw e, false, (m, (fst st, w1)))
            | Ok _ =>
                done (Driver.set_devices
                        (<[h := Driver.set_opened false d]> w1.(Driver.devices)) w1)
            end
      end
  end.

(** [disconnect()]. *)
Definition disconnect (m : Manager) (st : Driver.State ReadableMessage)
    : Outcome unit * bool * (Manager * Driver.State ReadableMessage) :=
  if m.(driver) then
    match Driver.close st with
    | (Throw e, st1) => (Throw e, false, (m, st1))
    | (Ok _, st1) => disconnect_device (mkManager false m.(device) m.(isConnected)) st1
    end
  else disconnect_device m st.

End Disconnect.

End Manager.

(** ** Words for the statements about the driver *)

Module Observed.
Import Driver.

(** The errors the [catch] of the read loop printed. *)
Definition catches {R : Type} (l : list (Action R)) : nat :=
  length (List.filter
            (fun a => match a with
                      | ConsoleError s =>
                          String.eqb s "Error parsing header for data"
                          || String.eqb s "Unexpected Error parsing header for data"
                      | _ => false
                      end) l).

(** The messages emitted. *)
Definition messages {R : Type} (l : list (Action R)) : list R :=
  flat_map (fun a => match a with
                     | Emit (message m) => [m]
                     | _ => []
                     end) l.

(** The bulk IN transfers asked of the devices. *)
Definition transfers_in {R : Type} (l : list (Action R)) : list (nat * Z * Z) :=
  flat_map (fun a => match a with
                     | CallTransferIn h ep len => [(h, ep, len)]
                     | _ => []
                     end) l.

(** The calls of a handle's [close()]. *)
Definition closes {R : Type} (l : list (Action R)) : nat :=
  length (List.filter (fun a => match a with CallClose _ => true | _ => false end) l).

Section Frames.
Context {MessageHeader ReadableMessage : Type}.
Variable fromBuffer : Buffer.bytes -> Outcome MessageHeader.
Variable header_length : MessageHeader -> Z.
Variable toMessage :
  MessageHeader -> option Buffer.bytes -> Outcome (option ReadableMessage).

(** A frame as the device sends it: the bytes of its header and, when the
    header announces one, its body. *)
Definition Frame : Type := Buffer.bytes * option Buffer.bytes.

(** What the device answers to the transfers that read the frame. *)
Definition answers (f : Frame) : list InResult :=
  InData (fst f) :: match snd f with
                    | Some body => [InData body]
                    | None => []
                    end.

(** The frame read without error: its header parses, its body is there
    exactly when the header announces one, and [toMessage] does not throw.
    The result is the header with the message, if [toMessage] gave one. *)
Definition parsed (f : Frame) : option (MessageHeader * option ReadableMessage) :=
  match fromBuffer (fst f) with
  | Throw _ => None
  | Ok header =>
      match header_length header =? 0, snd f with
      | true, None | false, Some _ =>
          match toMessage header (snd f) with
          | Ok m => Some (header, m)
          | Throw _ => None
          end
      | _, _ => None
      end
  end.

(** The lengths of the transfers that read the frame. *)
Definition lengths (dataLength : Z) (f : Frame) : list Z :=
  match parsed f with
  | Some (header, _) =>
      dataLength :: (if header_length header =? 0 then [] else [header_length header])
  | None => []
  end.

(** The message the frame is emitted as. *)
Definition emitted (f : Frame) : list ReadableMessage :=
  match parsed f with
  | Some (_, Some m) => [m]
  | _ => []
  end.

End Frames.

End Observed.

(** ** Choosing the USB device (main.js, the 'select-usb-device' handler) *)

Module Selection.

(** An entry of [details.deviceList], as far as the handler reads it. *)
Record USBDeviceInfo := mkInfo {
  vendorId : Z;
  productId : Z;
  deviceId : string
}.

(** [DongleDriver.knownDevices]: vendor and product ids. *)
Definition knownDevices : list (Z * Z) :=
  [(0x1314, 0x1520); (0x1314, 0x1521); (0x05ac, 0x12a8)].

Definition known (device : USBDeviceInfo) : bool :=
  existsb (fun k => (device.(vendorId) =? fst k) && (device.(productId) =? snd k))
          knownDevices.

(** The test of the handler's [find]. *)
Definition is_dongle (device : USBDeviceInfo) : bool :=
  (device.(vendorId) =? 0x1314)
  && ((device.(productId) =? 0x1520) || (device.(productId) =? 0x1521)).

(** What the handler passes to its callback; an absent list is the empty
    list. *)
Definition select_usb_device (deviceList : list USBDeviceInfo) : string :=
  match deviceList with
  | [] => ""
  | first :: _ =>
      match List.find is_dongle deviceList with
      | Some carplayDongle => carplayDongle.(deviceId)
      | None => first.(deviceId)
      end
  end.

End Selection.

(** ** More for the bench *)

Module BenchMore.
Import Sendable Driver.

(** A dongle that is not opened and whose [close()] rejects. *)
Definition jammed_dongle : USBDevice :=
  mkDevice false None (fun _ => Ok (Some Bench.descriptor)) (fun _ => Ok tt)
           (Throw (DeviceError "close error")) (fun _ _ => Ok status_ok).

(** DEFAULT_CONFIG with a [dpi] that four bytes cannot hold. *)
Definition negative_dpi : Config :=
  mkConfig 800 640 20 (-1) 5 2 2 49152 (js "nodePlay") false 0 300 false
           (js "5ghz") (js "os") false.


(** Two frames: one of type 2 without body, one of type 7 with two bytes. *)
Definition two_frames : list Observed.Frame :=
  [(Bench.asBuffer 2 0, None); (Bench.asBuffer 7 2, Some [1; 2])].

End BenchMore.

(** * Properties *)

(** ** The byte-level primitives *)

Module BufferFacts.
Import Buffer.

Lemma byteLength_nonneg (b : bytes) : 0 <= byteLength b.
Proof. unfold byteLength. lia. Qed.

Lemma readUInt32LE_in_range (b : bytes) (offset : Z) :
  0 <= offset -> offset + 4 <= byteLength b ->
  readUInt32LE b offset = Ok (uint32le b offset).
Proof.
  intros H0 H1. unfold readUInt32LE.
  destruct (Z.leb_spec 0 offset); [|lia].
  destruct (Z.leb_spec (offset + 4) (byteLength b)); [|lia].
  reflexivity.
Qed.

Lemma readUInt32LE_short (b : bytes) (offset : Z) :
  byteLength b < offset + 4 -> readUInt32LE b offset = Throw out_of_range.
Proof.
  intros H. unfold readUInt32LE.
  destruct (Z.leb_spec (offset + 4) (byteLength b)); [lia|].
  now rewrite andb_false_r.
Qed.

Lemma readInt8_in_range (b : bytes) (offset : Z) :
  0 <= offset -> offset + 1 <= byteLength b ->
  readInt8 b offset = Ok (int8 (at_ b offset)).
Proof.
  intros H0 H1. unfold readInt8.
  destruct (Z.leb_spec 0 offset); [|lia].
  destruct (Z.leb_spec (offset + 1) (byteLength b)); [|lia].
  reflexivity.
Qed.

(** The four bytes written are those of the number: read back, they give it. *)
Lemma le32_value (n : Z) :
  0 <= n <= 4294967295 -> uint32le (le32 n) 0 = n.
Proof.
  intros Hn. unfold uint32le, le32, at_.
  change (Z.to_nat 0) with 0%nat. change (Z.to_nat (0 + 1)) with 1%nat.
  change (Z.to_nat (0 + 2)) with 2%nat. change (Z.to_nat (0 + 3)) with 3%nat.
  cbn [nth].
  change 255 with (Z.ones 8).
  rewrite !Z.land_ones, !Z.shiftr_div_pow2 by lia.
  change (2 ^ 8) with 256. change (2 ^ 16) with 65536. change (2 ^ 24) with 16777216.
  assert (n / 16777216 < 256) by (apply Z.div_lt_upper_bound; lia).
  assert (0 <= n / 16777216) by (apply Z.div_pos; lia).
  rewrite (Z.mod_small (n / 16777216) 256) by lia.
  pose proof (Z.div_mod n 256 ltac:(lia)).
  pose proof (Z.div_mod (n / 256) 256 ltac:(lia)).
  pose proof (Z.div_mod (n / 65536) 256 ltac:(lia)).
  replace (n / 65536) with (n / 256 / 256) in *
    by (rewrite Z.div_div by lia; reflexivity).
  replace (n / 16777216) with (n / 256 / 256 / 256) in *
    by (rewrite !Z.div_div by lia; reflexivity).
  lia.
Qed.

Lemma le32_length (n : Z) : length (le32 n) = 4%nat.
Proof. reflexivity. Qed.

Lemma writeUInt32LE_Z (n : Z) :
  0 <= n <= 4294967295 -> writeUInt32LE (inject_Z n) = Ok (le32 n).
Proof.
  intros [H0 H1]. unfold writeUInt32LE.
  assert (Ha : Qle_bool 0 (inject_Z n) = true).
  { apply Qle_bool_iff. change 0%Q with (inject_Z 0). now rewrite <- Zle_Qle. }
  assert (Hb : Qle_bool (inject_Z n) (inject_Z 4294967295) = true).
  { apply Qle_bool_iff. now rewrite <- Zle_Qle. }
  rewrite Ha, Hb. cbn [andb]. now rewrite Qfloor_Z.
Qed.

Lemma writeUInt32LE_in_range (q : Q) :
  (0 <= q)%Q -> (q <= inject_Z 4294967295)%Q ->
  writeUInt32LE q = Ok (le32 (Qfloor q)).
Proof.
  intros H0 H1. unfold writeUInt32LE.
  apply Qle_bool_iff in H0, H1. now rewrite H0, H1.
Qed.

Lemma writeUInt32LE_negative (n : Z) :
  n < 0 -> succeeds (writeUInt32LE (inject_Z n)) = false.
Proof.
  intros H. unfold writeUInt32LE.
  destruct (Qle_bool 0 (inject_Z n)) eqn:E; [|reflexivity].
  apply Qle_bool_iff in E. change 0%Q with (inject_Z 0) in E.
  rewrite <- Zle_Qle in E. lia.
Qed.

End BufferFacts.

(** ** Decoding inbound bodies (readable.js) *)

Module ReadableSpec.
Import Buffer Readable BufferFacts.

Lemma int16_elements_length (b : bytes) :
  length (int16_elements b) = Nat.div2 (length b).
Proof.
  enough (H : forall n (l : bytes), (length l <= n)%nat ->
              length (int16_elements l) = Nat.div2 (length l))
    by (apply (H (length b)); lia).
  induction n as [|n IH]; intros l Hl.
  - destruct l; [reflexivity | simpl in Hl; lia].
  - destruct l as [|lo [|hi rest]]; try reflexivity.
    cbn [int16_elements length Nat.div2]. f_equal. apply IH.
    simpl in Hl. lia.
Qed.

Lemma Int16Array_even (data : bytes) :
  12 <= byteLength data -> byteLength data mod 2 = 0 ->
  Int16Array data 12 = Ok (int16_elements (subarray data 12)).
Proof.
  intros Hlen Heven. unfold Int16Array.
  change (12 mod 2 =? 0) with true. cbn [negb].
  rewrite Heven. change (0 =? 0) with true. cbn [negb].
  destruct (Z.ltb_spec (byteLength data) 12); [lia | reflexivity].
Qed.

Lemma Int16Array_odd (data : bytes) :
  byteLength data mod 2 <> 0 ->
  Int16Array data 12 =
  Throw (RangeError "byte length of Int16Array should be a multiple of 2").
Proof.
  intros Hodd. unfold Int16Array.
  change (12 mod 2 =? 0) with true. cbn [negb].
  destruct (Z.eqb_spec (byteLength data mod 2) 0); [contradiction | reflexivity].
Qed.

Section Decoding.
Context {Header : Type} (header : Header).

(** C5, as the code has it: a Plugged body of exactly 8 bytes decodes to
    phoneType and wifi; a body of any other length of at least 4 bytes (so
    one of exactly 4 bytes too) decodes to phoneType with wifi absent; a body
    shorter than 4 bytes does not decode, the read of phoneType throws a
    RangeError. *)
Theorem Plugged_by_length (data : bytes) :
  (byteLength data = 8 ->
   new_Plugged header data =
   Ok (mkPlugged header (uint32le data 0) (Some (uint32le data 4))))
  /\ (byteLength data = 4 ->
      new_Plugged header data = Ok (mkPlugged header (uint32le data 0) None))
  /\ (4 <= byteLength data -> byteLength data <> 8 ->
      new_Plugged header data = Ok (mkPlugged header (uint32le data 0) None))
  /\ (byteLength data < 4 ->
      new_Plugged header data = Throw out_of_range
      /\ is_RangeError out_of_range = true).
Proof.
  assert (Hother : 4 <= byteLength data -> byteLength data <> 8 ->
            new_Plugged header data = Ok (mkPlugged header (uint32le data 0) None)).
  { intros H4 H8. unfold new_Plugged.
    destruct (Z.eqb_spec (byteLength data) 8); [contradiction|].
    now rewrite readUInt32LE_in_range by lia. }
  split; [|split; [|split]].
  - intros H8. unfold new_Plugged. rewrite H8. cbn [Z.eqb Pos.eqb].
    now rewrite !readUInt32LE_in_range by lia.
  - intros H4. apply Hother; lia.
  - exact Hother.
  - intros Hshort. split; [|reflexivity]. unfold new_Plugged.
    destruct (Z.eqb_spec (byteLength data) 8); [lia|].
    now rewrite readUInt32LE_short by lia.
Qed.

(** C6, as the code has it: an AudioData body of at least 12 bytes has
    decodeType, volume and audioType read from its first 12 bytes; with 13
    bytes it decodes to a command, with 16 bytes to a volumeDuration, with any
    other even length to the bytes after the twelfth as int16 samples, half as
    many as there are bytes; with any other odd length the sample array cannot
    be built and the decoding throws a RangeError. *)
Theorem AudioData_by_length (data : bytes) :
  12 <= byteLength data ->
  let dt := uint32le data 0 in
  let vol := uint32le data 4 in
  let aty := uint32le data 8 in
  (byteLength data = 12 + 1 ->
   new_AudioData header data =
   Ok (mkAudioData header dt vol aty (Some (int8 (at_ data 12))) None None))
  /\ (byteLength data = 12 + 4 ->
      new_AudioData header data =
      Ok (mkAudioData header dt vol aty None (Some (uint32le data 12)) None))
  /\ (byteLength data <> 12 + 1 -> byteLength data <> 12 + 4 ->
      byteLength data mod 2 = 0 ->
      new_AudioData header data =
      Ok (mkAudioData header dt vol aty None None
            (Some (int16_elements (subarray data 12))))
      /\ Z.of_nat (length (int16_elements (subarray data 12)))
         = (byteLength data - 12) / 2)
  /\ (byteLength data <> 12 + 1 -> byteLength data mod 2 <> 0 ->
      exists msg, new_AudioData header data = Throw (RangeError msg)).
Proof.
  intros Hlen dt vol aty.
  assert (Hhead : forall k : Z -> Z -> Z -> Outcome (AudioData Header),
            (let? a := readUInt32LE data 0 in
             let? b := readFloatLE data 4 in
             let? c := readUInt32LE data 8 in k a b c) = k dt vol aty).
  { intros k. unfold readFloatLE. now rewrite !readUInt32LE_in_range by lia. }
  split; [|split; [|split; [intros H13 H16 Heven; split|]]].
  - intros H13. unfold new_AudioData. rewrite Hhead, H13.
    change (12 + 1 - 12 =? 1) with true. cbv iota.
    now rewrite readInt8_in_range by lia.
  - intros H16. unfold new_AudioData. rewrite Hhead, H16.
    change (12 + 4 - 12 =? 1) with false. change (12 + 4 - 12 =? 4) with true.
    cbv iota. unfold readFloatLE. now rewrite readUInt32LE_in_range by lia.
  - unfold new_AudioData. rewrite Hhead.
    destruct (Z.eqb_spec (byteLength data - 12) 1); [lia|].
    destruct (Z.eqb_spec (byteLength data - 12) 4); [lia|].
    now rewrite Int16Array_even by assumption.
  - rewrite int16_elements_length. unfold subarray. rewrite length_drop.
    rewrite Nat.div2_div, Nat2Z.inj_div, Nat2Z.inj_sub.
    + unfold byteLength. rewrite Z2Nat.id by lia. reflexivity.
    + unfold byteLength in Hlen. lia.
  - intros H13 Hodd. unfold new_AudioData. rewrite Hhead.
    destruct (Z.eqb_spec (byteLength data - 12) 1); [lia|].
    destruct (Z.eqb_spec (byteLength data - 12) 4) as [E4|].
    + exfalso. apply Hodd. replace (byteLength data) with 16 by lia. reflexivity.
    + rewrite Int16Array_odd by assumption. eauto.
Qed.

End Decoding.

(** C5 as stated fails: a body of five bytes, neither 4 nor 8, decodes. *)
Lemma Plugged_other_length_decodes :
  ~ (forall data : bytes,
        byteLength data <> 8 -> byteLength data <> 4 ->
        succeeds (new_Plugged tt data) = false).
Proof.
  intros H. specialize (H [3; 0; 0; 0; 9]).
  assert (E : succeeds (new_Plugged tt [3; 0; 0; 0; 9]) = true) by reflexivity.
  rewrite H in E; [discriminate | cbv; discriminate | cbv; discriminate].
Qed.

Example Plugged_five_bytes :
  new_Plugged tt [3; 0; 0; 0; 9] = Ok (mkPlugged tt 3 None).
Proof. reflexivity. Qed.

Lemma Plugged_by_length_witness :
  new_Plugged tt [3; 0; 0; 0; 1; 0; 0; 0] = Ok (mkPlugged tt 3 (Some 1))
  /\ new_Plugged tt [5; 0; 0; 0] = Ok (mkPlugged tt 5 None)
  /\ new_Plugged tt [5; 0; 0; 0; 7; 7] = Ok (mkPlugged tt 5 None)
  /\ new_Plugged tt [5; 0; 0] = Throw out_of_range.
Proof.
  split; [|split; [|split]].
  - apply (proj1 (Plugged_by_length tt [3; 0; 0; 0; 1; 0; 0; 0])). reflexivity.
  - apply (proj1 (proj2 (Plugged_by_length tt [5; 0; 0; 0]))). reflexivity.
  - apply (proj1 (proj2 (proj2 (Plugged_by_length tt [5; 0; 0; 0; 7; 7]))));
      cbv; congruence.
  - apply (proj2 (proj2 (proj2 (Plugged_by_length tt [5; 0; 0])))). reflexivity.
Defined.

(** C6 as stated fails: a body of 15 bytes, at least 12 and neither 13 nor
    16, gives no samples, the decoding throws. *)
Lemma AudioData_odd_length_throws :
  ~ (forall data : bytes,
        12 <= byteLength data ->
        byteLength data <> 12 + 1 -> byteLength data <> 12 + 4 ->
        exists m pcm, new_AudioData tt data = Ok m /\ m.(Readable.data) = Some pcm).
Proof.
  intros H.
  destruct (H (repeat 0 15)) as (m & pcm & E & _);
    try (cbv; congruence).
  vm_compute in E. discriminate.
Qed.

Example AudioData_fifteen_bytes :
  new_AudioData tt (repeat 0 15) =
  Throw (RangeError "byte length of Int16Array should be a multiple of 2").
Proof. reflexivity. Qed.

Lemma AudioData_by_length_witness :
  new_AudioData tt [5; 0; 0; 0; 0; 0; 128; 63; 3; 0; 0; 0; 255; 255; 1; 0] =
  Ok (mkAudioData tt 5 1065353216 3 None (Some 131071) None)
  /\ new_AudioData tt [5; 0; 0; 0; 0; 0; 128; 63; 3; 0; 0; 0; 255; 255] =
     Ok (mkAudioData tt 5 1065353216 3 None None (Some [-1])).
Proof.
  pose (d16 := [5; 0; 0; 0; 0; 0; 128; 63; 3; 0; 0; 0; 255; 255; 1; 0]).
  pose (d14 := [5; 0; 0; 0; 0; 0; 128; 63; 3; 0; 0; 0; 255; 255]).
  split.
  - apply (proj1 (proj2 (AudioData_by_length tt d16 ltac:(cbv; congruence)))).
    reflexivity.
  - apply (proj1 (proj2 (proj2 (AudioData_by_length tt d14 ltac:(cbv; congruence)))));
      cbv; congruence.
Defined.

End ReadableSpec.

(** ** Serialising outbound messages (sendable.js, utils.js) *)

Module SendableSpec.
Import Buffer Sendable BufferFacts.

Lemma from_ascii_length (s : JSString) : length (from_ascii s) = length s.
Proof. unfold from_ascii. apply length_map. Qed.

Lemma getFileName_eq (name : JSString) : getFileName name = from_ascii name ++ [0].
Proof. unfold getFileName, from_ascii. now rewrite map_app. Qed.

Lemma clamp_bounds (q : Q) : (0 <= clamp q 0 10000 <= 10000)%Q.
Proof.
  unfold clamp. split.
  - apply Q.le_max_l.
  - apply Q.max_lub; [discriminate | apply Q.le_min_r].
Qed.

Lemma clamp_below (q : Q) : (q <= 0)%Q -> (clamp q 0 10000 == 0)%Q.
Proof.
  intros H. unfold clamp. apply Q.max_l.
  eapply Qle_trans; [apply Q.le_min_l | exact H].
Qed.

Lemma clamp_above (q : Q) : (10000 <= q)%Q -> (clamp q 0 10000 == 10000)%Q.
Proof.
  intros H. unfold clamp. rewrite (Q.min_r q 10000) by exact H.
  apply Q.max_r. discriminate.
Qed.

Lemma clamp_inside (q : Q) : (0 <= q <= 10000)%Q -> (clamp q 0 10000 == q)%Q.
Proof.
  intros [H0 H1]. unfold clamp. rewrite (Q.min_l q 10000) by exact H1.
  now apply Q.max_r.
Qed.

Lemma scale_nonpos (x : Q) : (x <= 0)%Q -> (10000 * x <= 0)%Q.
Proof. unfold Qle. destruct x as [n d]. cbn. lia. Qed.

Lemma scale_nonneg (x : Q) : (0 <= x)%Q -> (0 <= 10000 * x)%Q.
Proof. unfold Qle. destruct x as [n d]. cbn. lia. Qed.

Lemma scale_ge_1 (x : Q) : (1 <= x)%Q -> (10000 <= 10000 * x)%Q.
Proof. unfold Qle. destruct x as [n d]. cbn. lia. Qed.

Lemma scale_le_1 (x : Q) : (x <= 1)%Q -> (10000 * x <= 10000)%Q.
Proof. unfold Qle. destruct x as [n d]. cbn. lia. Qed.

Lemma Qeq_Qle (a b : Q) : (a == b)%Q -> (a <= b)%Q.
Proof. intros H. apply Qle_lteq. now right. Qed.

Section Touch.
Variable asBuffer : Z -> Z -> bytes.
Variable MessageType : MessageTypeName -> Z.
Variable stringify_settings : Z -> Z -> Z -> Z -> JSString.
Variable getCurrentTimeInMs : Z.
Variable fl : Q -> Q.
Variable writeFloatLE : Q -> bytes.
(** Rounding to a double is monotone and leaves 0 and 10000, which are
    doubles, as they are.  (A product that overflows to Infinity is, under
    [Math.min(_, 10000)], any number above 10000.) *)
Hypothesis fl_monotone : forall a b : Q, (a <= b)%Q -> (fl a <= fl b)%Q.
Hypothesis fl_0 : (fl 0 == 0)%Q.
Hypothesis fl_10000 : (fl 10000 == 10000)%Q.

Local Abbreviation encoded := (Sendable.encoded fl).

Lemma encoded_range (x : Q) : 0 <= encoded x <= 10000.
Proof.
  unfold encoded. destruct (clamp_bounds (fl (10000 * x))) as [H0 H1].
  apply Qfloor_resp_le in H0, H1.
  change (Qfloor 0) with 0 in H0. change (Qfloor 10000) with 10000 in H1. lia.
Qed.

Lemma encoded_low (x : Q) : (x <= 0)%Q -> encoded x = 0.
Proof.
  intros Hx. unfold encoded.
  assert (H : (fl (10000 * x) <= 0)%Q).
  { eapply Qle_trans; [apply fl_monotone, scale_nonpos, Hx | apply Qeq_Qle, fl_0]. }
  rewrite (clamp_below _ H). reflexivity.
Qed.

Lemma encoded_high (x : Q) : (1 <= x)%Q -> encoded x = 10000.
Proof.
  intros Hx. unfold encoded.
  assert (H : (10000 <= fl (10000 * x))%Q).
  { eapply Qle_trans;
      [apply Qeq_Qle, Qeq_sym, fl_10000 | apply fl_monotone, scale_ge_1, Hx]. }
  rewrite (clamp_above _ H). reflexivity.
Qed.

Lemma encoded_inside (x : Q) :
  (0 <= x <= 1)%Q -> encoded x = Qfloor (fl (10000 * x)).
Proof.
  intros [H0 H1]. unfold encoded.
  assert (H : (0 <= fl (10000 * x) <= 10000)%Q).
  { split.
    - eapply Qle_trans;
        [apply Qeq_Qle, Qeq_sym, fl_0 | apply fl_monotone, scale_nonneg, H0].
    - eapply Qle_trans;
        [apply fl_monotone, scale_le_1, H1 | apply Qeq_Qle, fl_10000]. }
  now rewrite (clamp_inside _ H).
Qed.

Local Abbreviation getPayload_ := (getPayload stringify_settings getCurrentTimeInMs fl writeFloatLE).
Local Abbreviation serialise_ :=
  (serialise asBuffer MessageType stringify_settings getCurrentTimeInMs fl writeFloatLE).

(** C7: for all rational x and y (every finite double is one), and an
    action that fits 32 bits, a Touch message serialises, never throwing; the
    numbers its payload holds for x and y are 10000 * x and 10000 * y clamped
    to [0, 10000] and cut to an integer, so they lie in [0, 10000], are 0 for a
    coordinate at or below 0 and 10000 for one at or above 1. *)
Theorem SendTouch_clamps (x y : Q) (action : Z) :
  0 <= action <= 4294967295 ->
  let payload := concat [le32 action; le32 (encoded x); le32 (encoded y); le32 0] in
  getPayload_ (MkSendTouch x y action) = Some (Ok payload)
  /\ serialise_ (MkSendTouch x y action)
     = Ok (concat [asBuffer (MessageType Touch) 16; payload])
  /\ uint32le (le32 (encoded x)) 0 = encoded x
  /\ uint32le (le32 (encoded y)) 0 = encoded y
  /\ 0 <= encoded x <= 10000 /\ 0 <= encoded y <= 10000
  /\ ((x <= 0)%Q -> encoded x = 0) /\ ((1 <= x)%Q -> encoded x = 10000)
  /\ ((y <= 0)%Q -> encoded y = 0) /\ ((1 <= y)%Q -> encoded y = 10000)
  /\ ((0 <= x <= 1)%Q -> encoded x = Qfloor (fl (10000 * x)))
  /\ ((0 <= y <= 1)%Q -> encoded y = Qfloor (fl (10000 * y))).
Proof.
  intros Haction payload.
  assert (Hp : getPayload_ (MkSendTouch x y action) = Some (Ok payload)).
  { unfold getPayload.
    rewrite writeUInt32LE_Z by exact Haction. cbn [obind].
    destruct (clamp_bounds (fl (10000 * x))) as [Hx0 Hx1].
    destruct (clamp_bounds (fl (10000 * y))) as [Hy0 Hy1].
    rewrite !writeUInt32LE_in_range;
      try assumption;
      try (eapply Qle_trans; [eassumption | discriminate]).
    reflexivity. }
  pose proof (encoded_range x) as Hrx. pose proof (encoded_range y) as Hry.
  split; [exact Hp|].
  split.
  { unfold serialise. rewrite Hp. reflexivity. }
  split; [apply le32_value; lia|].
  split; [apply le32_value; lia|].
  split; [exact Hrx|]. split; [exact Hry|].
  split; [apply encoded_low|]. split; [apply encoded_high|].
  split; [apply encoded_low|]. split; [apply encoded_high|].
  split; apply encoded_inside.
Qed.

(** C10: a SendString whose content is longer than 16 characters prints
    "string too long" and is built all the same; it serialises, and its
    SendFile payload carries the length of the whole content and every one of
    its characters: after the file name and the four bytes of that length,
    byte i of the content is the low eight bits of character i, for every i
    below the length of the content, and nothing follows the last one.  (The
    lengths are those of strings a JavaScript engine can hold: they fit 32
    bits.) *)
Theorem SendString_too_long_is_sent_whole (content file : JSString) :
  (16 < length content)%nat ->
  Z.of_nat (length content) <= 4294967295 ->
  Z.of_nat (length file) + 1 <= 4294967295 ->
  let payload :=
    concat [le32 (Z.of_nat (length file) + 1); from_ascii file ++ [0];
            le32 (Z.of_nat (length content)); from_ascii content] in
  let start := Z.of_nat (length file) + 9 in
  new_SendString content file
  = (["string too long"%string], MkSendFile (from_ascii content) file)
  /\ length (from_ascii content) = length content
  /\ getPayload_ (snd (new_SendString content file)) = Some (Ok payload)
  /\ serialise_ (snd (new_SendString content file))
     = Ok (concat [asBuffer (MessageType SendFile) (byteLength payload); payload])
  /\ byteLength payload = start + Z.of_nat (length content)
  /\ uint32le (subarray payload (start - 4)) 0 = Z.of_nat (length content)
  /\ subarray payload start = map (fun c => Z.land c 255) content
  /\ (forall i : nat, (i < length content)%nat ->
        at_ payload (start + Z.of_nat i) = Z.land (nth i content 0) 255).
Proof.
  intros Hlong Hc Hf payload start.
  assert (Hp : getPayload_ (MkSendFile (from_ascii content) file) = Some (Ok payload)).
  { unfold getPayload, getLength, byteLength.
    rewrite getFileName_eq, length_app, !from_ascii_length.
    cbn [length]. rewrite Nat2Z.inj_add. change (Z.of_nat 1) with 1.
    rewrite !writeUInt32LE_Z by lia. reflexivity. }
  split.
  { unfold new_SendString.
    destruct (Z.ltb_spec 16 (Z.of_nat (length content))); [reflexivity | lia]. }
  split; [apply from_ascii_length|].
  unfold new_SendString; cbn [snd]. split; [exact Hp|].
  split; [unfold serialise; rewrite Hp; reflexivity|].
  set (name := le32 (Z.of_nat (length file) + 1) ++ from_ascii file ++ [0]).
  set (size := le32 (Z.of_nat (length content))).
  assert (Hpayload : payload = (name ++ size) ++ from_ascii content).
  { unfold payload, name, concat. cbn [List.concat].
    now rewrite app_nil_r, <- !app_assoc. }
  assert (Hname : length name = (length file + 5)%nat).
  { unfold name. rewrite !length_app, from_ascii_length, le32_length. cbn [length]. lia. }
  assert (Hpre : length (name ++ size) = Z.to_nat start).
  { rewrite length_app, Hname. unfold size, start. rewrite le32_length. lia. }
  split.
  { unfold byteLength. rewrite Hpayload, length_app, Hpre, from_ascii_length.
    unfold start. lia. }
  split.
  { unfold subarray. rewrite Hpayload, <- app_assoc.
    replace (Z.to_nat (start - 4)) with (length name) by (unfold start; lia).
    rewrite drop_app_length. unfold size, uint32le, at_.
    change (Z.to_nat 0) with 0%nat. change (Z.to_nat (0 + 1)) with 1%nat.
    change (Z.to_nat (0 + 2)) with 2%nat. change (Z.to_nat (0 + 3)) with 3%nat.
    cbn [le32 app nth]. apply (le32_value (Z.of_nat (length content))). lia. }
  split.
  { unfold subarray. rewrite Hpayload, <- Hpre. apply drop_app_length. }
  intros i Hi. unfold at_.
  replace (Z.to_nat (start + Z.of_nat i)) with (length (name ++ size) + i)%nat
    by (rewrite Hpre; unfold start; lia).
  rewrite Hpayload, app_nth2_plus.
  exact (map_nth (fun c => Z.land c 255) content 0 i).
Qed.

End Touch.

Lemma SendTouch_clamps_witness :
  getPayload (fun _ _ _ _ => []) 0 (fun q => q) Bench.writeFloatLE (MkSendTouch (3 # 2) (-1 # 4) 14)
  = Some (Ok [14; 0; 0; 0; 16; 39; 0; 0; 0; 0; 0; 0; 0; 0; 0; 0]).
Proof.
  refine (proj1 (SendTouch_clamps (fun _ _ => []) (fun _ => 0) (fun _ _ _ _ => []) 0
                   (fun q => q) Bench.writeFloatLE _ _ _ (3 # 2) (-1 # 4) 14 _)).
  - intros a b H. exact H.
  - reflexivity.
  - reflexivity.
  - lia.
Defined.

Lemma SendString_too_long_is_sent_whole_witness :
  new_SendString (js "a-box-name-of-26-characters") [47; 120]
  = (["string too long"%string],
     MkSendFile [97; 45; 98; 111; 120; 45; 110; 97; 109; 101; 45; 111; 102; 45;
                 50; 54; 45; 99; 104; 97; 114; 97; 99; 116; 101; 114; 115]
                [47; 120])
  /\ getPayload (fun _ _ _ _ => []) 0 (fun q => q) Bench.writeFloatLE
       (snd (new_SendString (js "a-box-name-of-26-characters") [47; 120]))
     = Some (Ok [3; 0; 0; 0; 47; 120; 0; 27; 0; 0; 0;
                 97; 45; 98; 111; 120; 45; 110; 97; 109; 101; 45; 111; 102; 45;
                 50; 54; 45; 99; 104; 97; 114; 97; 99; 116; 101; 114; 115])
  /\ at_ [3; 0; 0; 0; 47; 120; 0; 27; 0; 0; 0;
          97; 45; 98; 111; 120; 45; 110; 97; 109; 101; 45; 111; 102; 45;
          50; 54; 45; 99; 104; 97; 114; 97; 99; 116; 101; 114; 115] (11 + 26)
     = Z.land 115 255.
Proof.
  assert (T := SendString_too_long_is_sent_whole (fun _ _ => []) (fun _ => 0)
                 (fun _ _ _ _ => []) 0 (fun q => q) Bench.writeFloatLE
                 (js "a-box-name-of-26-characters") [47; 120]).
  cbv zeta in T.
  destruct T as (A & _ & B & _ & _ & _ & _ & C).
  - vm_compute. lia.
  - vm_compute. discriminate.
  - vm_compute. discriminate.
  - split; [exact A|]. split; [exact B|]. exact (C 26%nat ltac:(vm_compute; lia)).
Defined.

End SendableSpec.

(** ** The driver (main.js) *)

Module DriverSpec.
Import Buffer Outbound Sendable Driver.

Section WithCommon.
Context {MessageHeader ReadableMessage : Type}.
Variable dataLength : Z.
Variable fromBuffer : bytes -> Outcome MessageHeader.
Variable header_length : MessageHeader -> Z.
Variable toMessage :
  MessageHeader -> option bytes -> Outcome (option ReadableMessage).
Variable asBuffer : Z -> Z -> bytes.
Variable MessageType : MessageTypeName -> Z.
Variable CommandMapping : JSString -> option Z.
Variable stringify_settings : Z -> Z -> Z -> Z -> JSString.
Variable getCurrentTimeInMs : Z.
Variable fl : Q -> Q.
Variable writeFloatLE : Q -> bytes.

Local Abbreviation St := (State ReadableMessage).
Local Abbreviation send_ :=
  (send (ReadableMessage := ReadableMessage)
        asBuffer MessageType stringify_settings getCurrentTimeInMs fl writeFloatLE).
Local Abbreviation prepare_ :=
  (prepare asBuffer MessageType stringify_settings getCurrentTimeInMs fl writeFloatLE).
Local Abbreviation iteration_ :=
  (iteration dataLength fromBuffer header_length toMessage).
Local Abbreviation readLoop_turns_ :=
  (readLoop_turns dataLength fromBuffer header_length toMessage).
Local Abbreviation readLoop_ :=
  (readLoop dataLength fromBuffer header_length toMessage).
Local Abbreviation start_ :=
  (start dataLength fromBuffer header_length toMessage asBuffer MessageType
         CommandMapping stringify_settings getCurrentTimeInMs fl writeFloatLE).
Local Abbreviation wire_ :=
  (wire asBuffer MessageType stringify_settings getCurrentTimeInMs fl writeFloatLE).
Local Abbreviation tick_ :=
  (tick (ReadableMessage := ReadableMessage)
        asBuffer MessageType stringify_settings getCurrentTimeInMs fl writeFloatLE).
Local Abbreviation ticks_ :=
  (ticks (ReadableMessage := ReadableMessage)
         asBuffer MessageType stringify_settings getCurrentTimeInMs fl writeFloatLE).

Lemma transfers_out_app (l1 l2 : list (Action ReadableMessage)) :
  transfers_out (l1 ++ l2) = transfers_out l1 ++ transfers_out l2.
Proof. unfold transfers_out. apply flat_map_app. Qed.

Lemma failures_app (l1 l2 : list (Action ReadableMessage)) :
  failures (l1 ++ l2) = (failures l1 + failures l2)%nat.
Proof. unfold failures. now rewrite List.filter_app, length_app. Qed.

Local Abbreviation getPayload_ :=
  (getPayload stringify_settings getCurrentTimeInMs fl writeFloatLE).
Local Abbreviation ser_ :=
  (serialise asBuffer MessageType stringify_settings getCurrentTimeInMs fl writeFloatLE).

(** What [serialise()] gives: the bare header for a message without
    payload, the header with the length of the payload and then the payload
    for the others; it throws when [getPayload()] does. *)
Lemma serialise_cases (m : Message) :
  ser_ m
  = match getPayload_ m with
    | None => Ok (asBuffer (type_of MessageType m) 0)
    | Some (Ok payload) =>
        Ok (asBuffer (type_of MessageType m) (byteLength payload) ++ payload)
    | Some (Throw e) => Throw e
    end.
Proof.
  unfold serialise. destruct (getPayload_ m) as [[payload|e]|]; try reflexivity.
  cbn [obind]. unfold concat. cbn [List.concat]. now rewrite app_nil_r.
Qed.

(** C2: [send] gives one of three results and never throws.  With the
    device not open the result is null and nothing happens at all, so no
    transfer is attempted.  With the device open the result is true or false:
    the message is serialised and, if that did not throw and there is an OUT
    endpoint, exactly one bulk OUT transfer of the serialised bytes is asked
    of the device on that endpoint; the result is true when the transfer
    reports ok, and false when it reports another status, when it throws, and
    when an exception came before it, in which case nothing is transferred.
    The fields of the driver are left as they were.  The bytes are the header
    alone for a message without payload, the header and the payload
    otherwise. *)
Theorem send_tri_state (m : Message) (st : St) :
  let r := fst (send_ m st) in
  let st' := snd (send_ m st) in
  fst st' = fst st
  /\ (snd st').(devices) = (snd st).(devices)
  /\ (device_opened st = false -> r = None /\ st' = st)
  /\ (device_opened st = true ->
      exists h d,
        (fst st).(_device) = Some h /\ (snd st).(devices) !! h = Some d
        /\ (r = Some true \/ r = Some false)
        /\ (forall e, ser_ m = Throw e ->
              r = Some false
              /\ transfers_out (snd st').(trace) = transfers_out (snd st).(trace))
        /\ ((fst st).(_outEP) = None ->
              r = Some false
              /\ transfers_out (snd st').(trace) = transfers_out (snd st).(trace))
        /\ (forall payload eo,
              ser_ m = Ok payload -> (fst st).(_outEP) = Some eo ->
              transfers_out (snd st').(trace)
              = transfers_out (snd st).(trace) ++ [(h, eo.(endpointNumber), payload)]
              /\ match d.(on_transferOut) eo.(endpointNumber) payload with
                 | Ok status_ok => r = Some true
                 | Ok _ => r = Some false
                 | Throw _ => r = Some false
                 end))
  /\ ser_ m
     = match getPayload_ m with
       | None => Ok (asBuffer (type_of MessageType m) 0)
       | Some (Ok payload) =>
           Ok (asBuffer (type_of MessageType m) (byteLength payload) ++ payload)
       | Some (Throw e) => Throw e
       end.
Proof.
  cbn zeta. split; [|split; [|split; [|split; [|apply serialise_cases]]]];
    destruct st as [s w]; unfold device_opened, opened_at, send; cbn [fst snd].
  - destruct (_device s) as [h|]; [|reflexivity].
    destruct (devices w !! h) as [d|]; [|reflexivity].
    destruct (negb (opened d)); [reflexivity|].
    destruct (prepare_ m s) as [[ep payload]|e]; [|reflexivity].
    destruct (on_transferOut d ep payload) as [[| |]|e]; reflexivity.
  - destruct (_device s) as [h|]; [|reflexivity].
    destruct (devices w !! h) as [d|]; [|reflexivity].
    destruct (negb (opened d)); [reflexivity|].
    destruct (prepare_ m s) as [[ep payload]|e]; [|reflexivity].
    destruct (on_transferOut d ep payload) as [[| |]|e]; reflexivity.
  - destruct (_device s) as [h|]; [|split; reflexivity].
    destruct (devices w !! h) as [d|]; [|split; reflexivity].
    destruct (opened d); [discriminate|]. split; reflexivity.
  - destruct (_device s) as [h|] eqn:Hdev; [|discriminate].
    destruct (devices w !! h) as [d|] eqn:Hd; [|discriminate].
    intros Hop. rewrite Hop. cbn [negb].
    exists h, d. split; [reflexivity|]. split; [exact Hd|].
    unfold prepare, serialise_.
    destruct (ser_ m) as [payload|e] eqn:Hser; cbn [obind].
    2: { cbn [fst snd log trace]. rewrite transfers_out_app. cbn [transfers_out flat_map].
         rewrite app_nil_r.
         split; [now right|]. split; [intros; split; reflexivity|].
         split; [intros; split; reflexivity|]. intros; discriminate. }
    destruct (_outEP s) as [eo|] eqn:Hout; cbn [endpointNumber_of obind].
    2: { cbn [fst snd log trace]. rewrite transfers_out_app. cbn [transfers_out flat_map].
         rewrite app_nil_r.
         split; [now right|]. split; [intros; split; reflexivity|].
         split; [intros; split; reflexivity|]. intros; discriminate. }
    assert (Hone : forall (w1 : World ReadableMessage) (l : list (Action ReadableMessage)),
               transfers_out l = [] ->
               w1.(trace) = w.(trace) ++ CallTransferOut h (endpointNumber eo) payload :: l ->
               transfers_out w1.(trace)
               = transfers_out w.(trace) ++ [(h, endpointNumber eo, payload)]).
    { intros w1 l Hl ->. rewrite transfers_out_app. cbn [transfers_out flat_map].
      fold (transfers_out l). now rewrite Hl. }
    destruct (on_transferOut d (endpointNumber eo) payload) as [[| |]|e] eqn:Htr;
      cbn [fst snd];
      (split; [(now left) || (now right)|]);
      (split; [intros; discriminate|]);
      (split; [intros; discriminate|]);
      intros payload' eo' [= <-] [= <-]; rewrite Htr;
      (split; [|reflexivity]).
    + apply (Hone _ []); [reflexivity|]. reflexivity.
    + apply (Hone _ [ConsoleError "transferResult"]); [reflexivity|].
      cbn [log trace]. now rewrite <- app_assoc.
    + apply (Hone _ [ConsoleError "transferResult"]); [reflexivity|].
      cbn [log trace]. now rewrite <- app_assoc.
    + apply (Hone _ [ConsoleError "Failure sending message to dongle"]); [reflexivity|].
      cbn [log trace]. now rewrite <- app_assoc.
Qed.

(** *** close *)


Lemma close_without_device (st : St) :
  (fst st).(_device) = None -> close st = (Ok tt, st).
Proof.
  destruct st as [s w]. cbn [fst]. intros H.
  unfold close, close_enter. now rewrite H.
Qed.

(** [close()] not awaited, on a driver that holds a device. *)
Lemma close_detached_spec (s : Driver) (w : World ReadableMessage) (h : nat) :
  s.(_device) = Some h ->
  exists w2 : World ReadableMessage,
    close_detached (s, w) = (set_heartbeat None s, w2)
    /\ w2.(devices) = w.(devices)
    /\ w2.(trace) = w.(trace) ++ [CallClose h]
    /\ w2.(pending) = w.(pending) ++ [CloseResume h]
    /\ w2.(clock) = w.(clock)
    /\ w2.(timers)
       = match s.(_heartbeatInterval) with
         | Some t => (clearInterval t w).(timers)
         | None => w.(timers)
         end.
Proof.
  intros Hdev. unfold close_detached, close_enter. rewrite Hdev.
  destruct s as [hb dev i o ec]. cbn in Hdev. subst dev.
  destruct hb as [t|]; cbn [_heartbeatInterval fst snd set_heartbeat];
    eexists; (split; [reflexivity|]); repeat split.
Qed.

(** C9, as the code has it: [close()] can be called in every state.
    Without a device it does nothing.  With one, it cancels the heartbeat
    timer and calls the handle's [close()] once; if that succeeds it gives up
    the device and both endpoints, leaves the handle closed, and a further
    [close()] does nothing; if that rejects, the rejection reaches the caller
    and the device and the endpoints are kept. *)
Theorem close_spec (st : St) :
  ((fst st).(_device) = None -> close st = (Ok tt, st))
  /\ (forall h d,
        (fst st).(_device) = Some h -> (snd st).(devices) !! h = Some d ->
        let st' := snd (close st) in
        (fst st').(_heartbeatInterval) = None
        /\ (forall t x, (fst st).(_heartbeatInterval) = Some t ->
                        In x (snd st').(timers) -> x.(timer_id) <> t)
        /\ (snd st').(trace) = (snd st).(trace) ++ [CallClose h]
        /\ (d.(on_close) = Ok tt ->
            fst (close st) = Ok tt
            /\ (fst st').(_device) = None
            /\ (fst st').(_inEP) = None
            /\ (fst st').(_outEP) = None
            /\ opened_at (snd st') h = false
            /\ close st' = (Ok tt, st'))
        /\ (forall e, d.(on_close) = Throw e ->
            fst (close st) = Throw e
            /\ (fst st').(_device) = Some h
            /\ (fst st').(_inEP) = (fst st).(_inEP)
            /\ (fst st').(_outEP) = (fst st).(_outEP))).
Proof.
  split; [apply close_without_device|].
  destruct st as [s w]. cbn [fst snd]. intros h d Hdev Hd.
  unfold close, close_enter. rewrite Hdev.
  destruct (_heartbeatInterval s) as [t|] eqn:Hhb; cbn [fst snd];
    unfold close_resume; cbn [devices log clearInterval set_timers];
    rewrite Hd; destruct (on_close d) as [[]|e] eqn:Hclose; cbn [fst snd].
  all: split; [try reflexivity; exact Hhb|].
  all: split;
    [intros t' x Ht' Hin; try discriminate; injection Ht' as <-;
     revert Hin; cbn; intros Hin; apply List.filter_In in Hin;
     destruct Hin as [_ Hin]; apply negb_true_iff, Nat.eqb_neq in Hin; exact Hin|].
  all: split; [reflexivity|].
  all: split; [intros Hok; try discriminate | intros e' He'; try discriminate].
  all: try (injection He' as <-; repeat split; assumption).
  all: repeat (split; [reflexivity|]).
  all: unfold opened_at; cbn [devices set_devices]; rewrite lookup_insert_eq;
    split; reflexivity.
Qed.

(** *** readLoop *)

(** At the head of the loop with the device open and the counter at the
    ceiling: [close()] is entered, 'failure' is emitted, the loop returns. *)
Lemma iteration_at_ceiling (script : list InResult) (s : Driver)
    (w : World ReadableMessage) (h : nat) (d : USBDevice) :
  s.(_device) = Some h -> w.(devices) !! h = Some d -> d.(opened) = true ->
  MAX_ERROR_COUNT <= s.(errorCount) ->
  iteration_ script (s, w)
  = (Exit CircuitBroken, script,
     (set_heartbeat None s,
      log (Emit failure)
        (set_pending (w.(pending) ++ [CloseResume h])
           (log (CallClose h)
              match s.(_heartbeatInterval) with
              | Some t => clearInterval t w
              | None => w
              end)))).
Proof.
  intros Hdev Hd Hop Hec. unfold iteration, opened_at. rewrite Hdev, Hd, Hop.
  cbn [negb]. destruct (Z.leb_spec MAX_ERROR_COUNT (errorCount s)); [|lia].
  unfold close_detached, close_enter. rewrite Hdev.
  destruct (_heartbeatInterval s) eqn:Hhb; cbn [fst snd]; [reflexivity|].
  destruct s; cbn in *; subst; reflexivity.
Qed.

Lemma failures_log (a : Action ReadableMessage) (w : World ReadableMessage) :
  failures (log a w).(trace)
  = (failures w.(trace) + match a with Emit failure => 1 | _ => 0 end)%nat.
Proof.
  cbn [log trace]. rewrite failures_app. f_equal.
  destruct a as [| | | | |[|]| | |]; reflexivity.
Qed.

(** A turn that goes on emits no 'failure'; one that stops emits one
    exactly when it stops at the ceiling. *)
Lemma iteration_failures (script : list InResult) (st : St) :
  let '(step, _, st') := iteration_ script st in
  failures (snd st').(trace)
  = (failures (snd st).(trace)
     + match step with Exit CircuitBroken => 1 | _ => 0 end)%nat.
Proof.
  destruct st as [s w]. unfold iteration. cbn [snd].
  destruct (_device s) as [h|] eqn:Hdev; [|cbn [snd]; lia].
  destruct (negb (opened_at w h)); [cbn [snd]; lia|].
  destruct (MAX_ERROR_COUNT <=? errorCount s).
  { unfold close_detached, close_enter. rewrite Hdev.
    destruct (_heartbeatInterval s); cbn [fst snd];
      rewrite failures_log; cbn [set_pending trace]; rewrite failures_log;
      cbn [clearInterval set_timers trace]; lia. }
  assert (Hcaught : forall e (w0 : World ReadableMessage),
            failures (trace (snd (caught e (s, w0)))) = failures (trace w0)).
  { intros e w0. cbn [caught snd]. rewrite failures_log. lia. }
  assert (Hdeliver : forall hd x (w0 : World ReadableMessage),
            failures (trace (snd (deliver toMessage hd x (s, w0)))) = failures (trace w0)).
  { intros hd x w0. unfold deliver.
    destruct (toMessage hd x) as [[m|]|e]; [| reflexivity | apply Hcaught].
    cbn [fst snd]. rewrite failures_log. lia. }
  destruct (endpointNumber_of (_inEP s)) as [ep|e]; [|rewrite Hcaught; lia].
  cbn zeta.
  destruct script as [|r1 script1]; [cbn [snd]; rewrite failures_log; lia|].
  destruct r1 as [e| |data].
  - rewrite Hcaught, failures_log. lia.
  - rewrite Hcaught, failures_log. lia.
  - destruct (fromBuffer data) as [header|e].
    2: { rewrite Hcaught, failures_log. lia. }
    destruct (header_length header =? 0).
    { rewrite Hdeliver, failures_log. lia. }
    destruct script1 as [|r2 script2];
      [cbn [snd]; rewrite !failures_log; lia|].
    destruct r2 as [e| |b].
    + rewrite Hcaught, !failures_log. lia.
    + cbn [snd]. rewrite !failures_log. lia.
    + rewrite Hdeliver, !failures_log. lia.
Qed.

(** Over a whole run the loop emits at most one 'failure', and one
    exactly when it stops at the ceiling. *)
Lemma readLoop_turns_failures (fuel : nat) :
  forall (script : list InResult) (st : St),
    failures (snd (snd (readLoop_turns_ fuel script st))).(trace)
    = (failures (snd st).(trace)
       + match fst (readLoop_turns_ fuel script st) with
         | Some CircuitBroken => 1
         | _ => 0
         end)%nat.
Proof.
  induction fuel as [|fuel IH]; intros script st; [cbn; lia|].
  cbn [readLoop_turns].
  pose proof (iteration_failures script st) as Hit.
  destruct (iteration_ script st) as [[step script1] st1].
  destruct step as [|e]; cbn [fst snd].
  - rewrite IH, Hit. lia.
  - rewrite Hit. destruct e; reflexivity.
Qed.

(** The loop never runs out of turns: it always stops in one of the four
    ways of [LoopExit]. *)
Lemma iteration_decreases (script script1 : list InResult) (st st1 : St) :
  iteration_ script st = (Continue, script1, st1) ->
  (measure script1 st1 < measure script st)%nat.
Proof.
  destruct st as [s w]. unfold iteration, measure. cbn [fst].
  destruct (_device s) as [h|]; [|discriminate].
  destruct (negb (opened_at w h)); [discriminate|].
  destruct (Z.leb_spec MAX_ERROR_COUNT (errorCount s)) as [|Hlt].
  { destruct (close_detached (s, w)). discriminate. }
  unfold MAX_ERROR_COUNT in *.
  destruct (endpointNumber_of (_inEP s)) as [ep|e];
    [destruct script as [|[e| |data] script']; [discriminate | | |];
     [| | destruct (fromBuffer data) as [header|e];
          [destruct (header_length header =? 0);
           [|destruct script' as [|[e| |b] script'']; [discriminate| |discriminate|]]|]]|];
    intros [= <- <-]; unfold deliver, caught;
    repeat match goal with
           | |- context [match toMessage ?a ?b with _ => _ end] =>
               destruct (toMessage a b) as [[?|]|?]
           end;
    cbn [fst set_errorCount errorCount length]; lia.
Qed.

Lemma readLoop_turns_enough (fuel : nat) :
  forall (script : list InResult) (st : St),
    (measure script st < fuel)%nat ->
    exists e, fst (readLoop_turns_ fuel script st) = Some e.
Proof.
  induction fuel as [|fuel IH]; intros script st Hfuel; [lia|].
  cbn [readLoop_turns].
  destruct (iteration_ script st) as [[[|e] script1] st1] eqn:Hit.
  - apply IH. apply iteration_decreases in Hit. lia.
  - exists e. reflexivity.
Qed.

Lemma readLoop_returns (script : list InResult) (st : St) :
  exists e, fst (readLoop_ script st) = Some e.
Proof.
  unfold readLoop. apply readLoop_turns_enough.
  unfold turns_needed, measure. lia.
Qed.

(** C4: the loop at its head, the device open and the counter below the
    ceiling, reads a header whose length is not zero and then gets no data
    for the body: it prints "Failed to read extra data" and returns.  The
    driver is the same afterwards, its error counter included, and nothing
    else changed but the record of the two transfers and of the message
    printed: no 'failure' was emitted, no timer touched, nothing closed. *)
Theorem missing_body_stops_loop_silently
    (fuel : nat) (script : list InResult) (s : Driver)
    (w : World ReadableMessage) (h : nat) (d : USBDevice) (ep : USBEndpoint)
    (data : bytes) (header : MessageHeader) :
  s.(_device) = Some h -> w.(devices) !! h = Some d -> d.(opened) = true ->
  s.(errorCount) < MAX_ERROR_COUNT ->
  s.(_inEP) = Some ep ->
  fromBuffer data = Ok header -> header_length header <> 0 ->
  let res := readLoop_turns_ (S fuel) (InData data :: InNoData :: script) (s, w) in
  let w' := snd (snd res) in
  fst res = Some BodyMissing
  /\ fst (snd res) = s
  /\ w'.(trace) = w.(trace) ++
       [CallTransferIn h ep.(endpointNumber) dataLength;
        CallTransferIn h ep.(endpointNumber) (header_length header);
        ConsoleError "Failed to read extra data"]
  /\ failures w'.(trace) = failures w.(trace)
  /\ w'.(devices) = w.(devices) /\ w'.(timers) = w.(timers)
  /\ w'.(pending) = w.(pending) /\ w'.(clock) = w.(clock).
Proof.
  intros Hdev Hd Hop Hec Hin Hhdr Hlen res w'. subst res w'.
  cbn [readLoop_turns]. unfold iteration, opened_at.
  rewrite Hdev, Hd, Hop, Hin. cbn [negb endpointNumber_of].
  destruct (Z.leb_spec MAX_ERROR_COUNT (errorCount s)); [lia|].
  rewrite Hhdr. destruct (Z.eqb_spec (header_length header) 0); [contradiction|].
  cbn [fst snd]. rewrite !failures_log. cbn [log trace devices timers pending clock].
  rewrite <- !app_assoc. cbn [app].
  repeat (split; [reflexivity|]). split; [lia|]. repeat split.
Qed.

Lemma error_ceiling_at_head
    (fuel : nat) (script : list InResult) (s : Driver)
    (w : World ReadableMessage) (h : nat) (d : USBDevice) :
  s.(_device) = Some h -> w.(devices) !! h = Some d -> d.(opened) = true ->
  MAX_ERROR_COUNT <= s.(errorCount) ->
  let res := readLoop_turns_ (S fuel) script (s, w) in
  fst res = Some CircuitBroken
  /\ failures (snd (snd res)).(trace) = S (failures w.(trace))
  /\ (fst (snd res)).(errorCount) = s.(errorCount).
Proof.
  intros Hdev Hd Hop Hec res. subst res. cbn [readLoop_turns].
  rewrite (iteration_at_ceiling script s w h d Hdev Hd Hop Hec). cbn [fst snd].
  split; [reflexivity|]. split; [|reflexivity].
  rewrite failures_log. cbn [set_pending trace]. rewrite failures_log.
  destruct (_heartbeatInterval s); cbn [clearInterval set_timers trace]; lia.
Qed.

Lemma readLoop_turns_S (fuel : nat) (script : list InResult) (st : St) :
  readLoop_turns_ (S fuel) script st
  = match iteration_ script st with
    | (Exit e, _, st1) => (Some e, st1)
    | (Continue, script1, st1) => readLoop_turns_ fuel script1 st1
    end.
Proof. reflexivity. Qed.

(** Below the ceiling, a header read that fails is caught and counted, and
    the loop goes on. *)
Lemma iteration_header_error (r : InResult) (script : list InResult)
    (s : Driver) (w : World ReadableMessage) (h : nat) (d : USBDevice)
    (ep : USBEndpoint) :
  s.(_device) = Some h -> w.(devices) !! h = Some d -> d.(opened) = true ->
  s.(_inEP) = Some ep -> s.(errorCount) < MAX_ERROR_COUNT ->
  header_fails r ->
  exists msg,
    iteration_ (r :: script) (s, w)
    = (Continue, script,
       (set_errorCount (s.(errorCount) + 1) s,
        log (ConsoleError msg)
          (log (CallTransferIn h ep.(endpointNumber) dataLength) w))).
Proof.
  intros Hdev Hd Hop Hin Hec Hr. unfold iteration, opened_at.
  rewrite Hdev, Hd, Hop, Hin. cbn [negb endpointNumber_of].
  destruct (Z.leb_spec MAX_ERROR_COUNT (errorCount s)); [lia|].
  destruct r as [e| |data]; [| |contradiction]; unfold caught; eauto.
Qed.

(** Errors in a row, one per header read, up to the ceiling: the loop
    stops there, and has emitted one 'failure'. *)
Lemma consecutive_errors_trip (errs : list InResult) :
  forall (rest : list InResult) (fuel : nat) (s : Driver)
         (w : World ReadableMessage) (h : nat) (d : USBDevice) (ep : USBEndpoint),
    s.(_device) = Some h -> w.(devices) !! h = Some d -> d.(opened) = true ->
    s.(_inEP) = Some ep ->
    Forall header_fails errs ->
    s.(errorCount) + Z.of_nat (length errs) = MAX_ERROR_COUNT ->
    let res := readLoop_turns_ (S (length errs + fuel)) (errs ++ rest) (s, w) in
    fst res = Some CircuitBroken
    /\ failures (snd (snd res)).(trace) = S (failures w.(trace))
    /\ (fst (snd res)).(errorCount) = MAX_ERROR_COUNT.
Proof.
  induction errs as [|r errs IH];
    intros rest fuel s w h d ep Hdev Hd Hop Hin Herrs Hcount res; subst res.
  - cbn [length Nat.add app] in *.
    assert (Hec : MAX_ERROR_COUNT <= errorCount s) by lia.
    destruct (error_ceiling_at_head fuel rest s w h d Hdev Hd Hop Hec)
      as (H1 & H2 & H3).
    repeat split; try assumption. lia.
  - cbn [length] in Hcount. inversion Herrs as [|? ? Hr Herrs']; subst.
    change (S (length (r :: errs) + fuel)) with (S (S (length errs + fuel))).
    change ((r :: errs) ++ rest) with (r :: errs ++ rest).
    rewrite readLoop_turns_S.
    destruct (iteration_header_error r (errs ++ rest) s w h d ep
                Hdev Hd Hop Hin ltac:(lia) Hr) as [msg ->].
    match goal with
    | |- context [readLoop_turns _ _ _ _ _ _ (?s1, ?w1)] =>
        destruct (IH rest fuel s1 w1 h d ep) as (H1 & H2 & H3);
          [exact Hdev | exact Hd | exact Hop | exact Hin | exact Herrs'
           | cbn [set_errorCount errorCount]; lia | ]
    end.
    rewrite H1, H2, H3. repeat split. rewrite !failures_log. lia.
Qed.

(** *** initialise *)



(** *** start *)

Lemma only_logged_refl (w : World ReadableMessage) : only_logged [] w w.
Proof. unfold only_logged. now rewrite app_nil_r. Qed.

Lemma only_logged_trans (l1 l2 : list (Action ReadableMessage))
    (w w1 w2 : World ReadableMessage) :
  only_logged l1 w w1 -> only_logged l2 w1 w2 -> only_logged (l1 ++ l2) w w2.
Proof.
  unfold only_logged. intros (A1 & A2 & A3 & A4 & A5 & A6) (B1 & B2 & B3 & B4 & B5 & B6).
  rewrite B1, B2, B3, B4, B5, B6, A6, app_assoc. repeat split; assumption.
Qed.

Lemma only_logged_logs (l : list (Action ReadableMessage)) (w : World ReadableMessage) :
  only_logged l w (logs l w).
Proof. unfold only_logged. repeat split. Qed.

(** [send] with the device open and an OUT endpoint at hand: the driver is
    as before, the bytes of the message were handed to the device if there
    are any, and nothing else happened. *)
Lemma send_open (m : Message) (s : Driver) (w : World ReadableMessage)
    (h : nat) (d : USBDevice) (eo : USBEndpoint) :
  s.(_device) = Some h -> w.(devices) !! h = Some d -> d.(opened) = true ->
  s.(_outEP) = Some eo ->
  exists l w',
    snd (send_ m (s, w)) = (s, w')
    /\ only_logged l w w'
    /\ transfers_out l = map (fun p => (h, eo.(endpointNumber), p)) (wire_ m)
    /\ failures l = 0%nat.
Proof.
  intros Hdev Hd Hop Hout. unfold send, prepare, wire.
  rewrite Hdev, Hd, Hop, Hout. cbn [negb endpointNumber_of].
  destruct (serialise_ asBuffer MessageType stringify_settings getCurrentTimeInMs fl writeFloatLE m)
    as [payload|e]; cbn [obind].
  - destruct (on_transferOut d (endpointNumber eo) payload) as [[| |]|e]; cbn [snd].
    + exists [CallTransferOut h (endpointNumber eo) payload]. eexists.
      split; [reflexivity|]. split; [apply only_logged_logs|]. split; reflexivity.
    + exists [CallTransferOut h (endpointNumber eo) payload; ConsoleError "transferResult"].
      eexists. split; [reflexivity|]. split; [|split; reflexivity].
      unfold only_logged. cbn. rewrite <- app_assoc. repeat split.
    + exists [CallTransferOut h (endpointNumber eo) payload; ConsoleError "transferResult"].
      eexists. split; [reflexivity|]. split; [|split; reflexivity].
      unfold only_logged. cbn. rewrite <- app_assoc. repeat split.
    + exists [CallTransferOut h (endpointNumber eo) payload;
              ConsoleError "Failure sending message to dongle"].
      eexists. split; [reflexivity|]. split; [|split; reflexivity].
      unfold only_logged. cbn. rewrite <- app_assoc. repeat split.
  - exists [ConsoleError "Failure sending message to dongle"]. eexists.
    split; [reflexivity|]. split; [apply only_logged_logs|]. split; reflexivity.
Qed.

Lemma send_all_open (ms : list Message) :
  forall (s : Driver) (w : World ReadableMessage) (h : nat) (d : USBDevice)
         (eo : USBEndpoint),
    s.(_device) = Some h -> w.(devices) !! h = Some d -> d.(opened) = true ->
    s.(_outEP) = Some eo ->
    exists l w',
      snd (send_all asBuffer MessageType stringify_settings getCurrentTimeInMs fl writeFloatLE
                    ms (s, w)) = (s, w')
      /\ only_logged l w w'
      /\ transfers_out l
         = map (fun p => (h, eo.(endpointNumber), p)) (flat_map wire_ ms)
      /\ failures l = 0%nat.
Proof.
  induction ms as [|m ms IH]; intros s w h d eo Hdev Hd Hop Hout.
  - exists [], w. cbn. split; [reflexivity|]. split; [apply only_logged_refl|].
    split; reflexivity.
  - cbn [send_all flat_map].
    destruct (send_open m s w h d eo Hdev Hd Hop Hout) as (l1 & w1 & E1 & L1 & T1 & F1).
    destruct (send_ m (s, w)) as [r st1]. cbn [snd] in E1. subst st1.
    assert (Hd1 : w1.(devices) !! h = Some d) by (destruct L1 as [-> _]; exact Hd).
    destruct (IH s w1 h d eo Hdev Hd1 Hop Hout) as (l2 & w2 & E2 & L2 & T2 & F2).
    destruct (send_all _ _ _ _ _ _ ms (s, w1)) as [rs st2]. cbn [snd] in E2. subst st2.
    exists (l1 ++ l2), w2. cbn [snd].
    split; [reflexivity|]. split; [eapply only_logged_trans; eassumption|].
    rewrite transfers_out_app, failures_app, T1, T2, F1, F2, map_app.
    split; reflexivity.
Qed.


(** The loop just started, with nothing received yet: it has asked for a
    header and waits. *)
Lemma readLoop_waits (s : Driver) (w : World ReadableMessage)
    (h : nat) (d : USBDevice) (ei : USBEndpoint) :
  s.(_device) = Some h -> w.(devices) !! h = Some d -> d.(opened) = true ->
  s.(_inEP) = Some ei -> s.(errorCount) < MAX_ERROR_COUNT ->
  readLoop_ [] (s, w)
  = (Some AwaitingTransfer,
     (s, log (CallTransferIn h ei.(endpointNumber) dataLength)
           (log (ConsoleLog "ReadLoop started") w))).
Proof.
  intros Hdev Hd Hop Hin Hec. unfold readLoop, turns_needed.
  cbn [readLoop_turns fst snd]. unfold iteration, opened_at.
  cbn [devices log]. rewrite Hdev, Hd, Hop, Hin. cbn [negb endpointNumber_of].
  destruct (Z.leb_spec MAX_ERROR_COUNT (errorCount s)); [lia | reflexivity].
Qed.

Local Abbreviation burst config :=
  ([ MkSendFile (le32 config.(dpi)) FileAddress.DPI;
     MkSendOpen config;
     MkSendFile (le32 (if config.(nightMode) then 1 else 0)) FileAddress.NIGHT_MODE;
     MkSendFile (le32 config.(hand)) FileAddress.HAND_DRIVE_MODE;
     MkSendFile (le32 1) FileAddress.CHARGE_MODE;
     MkSendFile (from_ascii config.(boxName)) FileAddress.BOX_NAME;
     MkSendBoxSettings config None;
     MkSendCommand (CommandMapping (js "wifiEnable"));
     MkSendCommand
       (CommandMapping
          (if bool_decide (config.(wifiType) = js "5ghz")
           then js "wifi5g" else js "wifi24g"));
     MkSendCommand
       (CommandMapping
          (if bool_decide (config.(micType) = js "box") then js "boxMic" else js "mic"));
     MkSendCommand
       (CommandMapping
          (if config.(audioTransferMode)
           then js "audioTransferOn" else js "audioTransferOff")) ]
   ++ (if config.(androidWorkMode)
       then [MkSendFile (le32 1) FileAddress.ANDROID_WORK_MODE]
       else [])).

Lemma initMessages_burst (config : Config) :
  0 <= config.(dpi) <= 4294967295 -> 0 <= config.(hand) <= 4294967295 ->
  initMessages CommandMapping config
  = Ok (fst (new_SendString config.(boxName) FileAddress.BOX_NAME), burst config).
Proof.
  intros Hdpi Hhand. unfold initMessages, new_SendNumber, new_SendBoolean,
    new_SendNumber, new_SendCommand_, new_SendCommand.
  rewrite !BufferFacts.writeUInt32LE_Z by lia. cbn [obind].
  assert (Hb : forall b : bool,
            writeUInt32LE (Number_of_bool b) = Ok (le32 (if b then 1 else 0))).
  { intros []; reflexivity. }
  rewrite !Hb. cbn [obind new_SendString fst snd].
  destruct (androidWorkMode config); reflexivity.
Qed.




(** *** What leaves for each message of [start] *)

(** A message with a payload on the wire: the header, which gives its type
    and the length of the payload, then the payload. *)
Local Abbreviation framed type payload :=
  (asBuffer (MessageType type) (byteLength payload) ++ payload)%list.

(** A SendFile on the wire. *)
Local Abbreviation file_frame content fileName :=
  (framed SendFile
     (concat [le32 (Z.of_nat (length fileName) + 1); from_ascii fileName ++ [0];
              le32 (byteLength content); content])).

(** A SendCommand on the wire: the code of the name, 0 for a name that has
    none. *)
Local Abbreviation command_frame name :=
  (framed Command (le32 (default 0 (CommandMapping name)))).

Local Abbreviation heartbeat_frame := (asBuffer (MessageType HeartBeat) 0).






(** The configuration messages of [start] on the wire, in the order of
    their sends. *)
Local Abbreviation burst_frames config :=
  ([ file_frame (le32 config.(dpi)) FileAddress.DPI;
     framed Open
       (flat_map le32 [config.(width); config.(height); config.(fps);
                       config.(format); config.(packetMax); config.(iBoxVersion);
                       config.(phoneWorkMode)]);
     file_frame (le32 (if config.(nightMode) then 1 else 0)) FileAddress.NIGHT_MODE;
     file_frame (le32 config.(hand)) FileAddress.HAND_DRIVE_MODE;
     file_frame (le32 1) FileAddress.CHARGE_MODE;
     file_frame (from_ascii config.(boxName)) FileAddress.BOX_NAME;
     framed BoxSettings
       (from_ascii (stringify_settings config.(mediaDelay) getCurrentTimeInMs
                      config.(width) config.(height)));
     command_frame (js "wifiEnable");
     command_frame (if bool_decide (config.(wifiType) = js "5ghz")
                    then js "wifi5g" else js "wifi24g");
     command_frame (if bool_decide (config.(micType) = js "box")
                    then js "boxMic" else js "mic");
     command_frame (if config.(audioTransferMode)
                    then js "audioTransferOn" else js "audioTransferOff") ]
   ++ (if config.(androidWorkMode)
       then [file_frame (le32 1) FileAddress.ANDROID_WORK_MODE]
       else [])%list).




End WithCommon.

(** *** On the bench *)

Import Bench.




Lemma send_tri_state_witness :
  let st := (ready, world dongle) in
  fst (Bench.send MkHeartBeat st) = Some true
  /\ transfers_out (snd (snd (Bench.send MkHeartBeat st))).(trace)
     = [(0%nat, 2, [170; 85; 170; 85; 0; 0; 0; 0; 170; 0; 0; 0; 0; 0; 0; 0])]
  /\ Bench.send MkHeartBeat (ready, world unopened_dongle)
     = (None, (ready, world unopened_dongle)).
Proof.
  assert (T := send_tri_state asBuffer MessageType stringify_settings 0
                 (fun q => q) Bench.writeFloatLE MkHeartBeat (ready, world dongle)).
  assert (U := send_tri_state asBuffer MessageType stringify_settings 0
                 (fun q => q) Bench.writeFloatLE MkHeartBeat
                 (ready, world unopened_dongle)).
  cbv zeta in T, U.
  destruct T as (_ & _ & _ & Hopen & _). destruct U as (_ & _ & Hshut & _).
  destruct (Hopen eq_refl) as (h & d & Hh & Hd & _ & _ & _ & Hsent).
  injection Hh as <-.
  assert (Hdongle : d = dongle) by (vm_compute in Hd; injection Hd as <-; reflexivity).
  subst d.
  destruct (Hsent _ ep_out eq_refl eq_refl) as [Hwire Hresult].
  cbv zeta. split; [exact Hresult|]. split; [exact Hwire|].
  destruct (Hshut eq_refl) as [Hnull Hsame].
  exact (eq_trans (surjective_pairing _) (f_equal2 pair Hnull Hsame)).
Defined.

Example send_on_the_bench :
  fst (Bench.send MkHeartBeat (ready, world dongle)) = Some true
  /\ fst (Bench.send MkHeartBeat (ready, world unopened_dongle)) = None
  /\ fst (Bench.send (MkSendTouch 0 0 (-1)) (ready, world dongle)) = Some false
  /\ fst (Bench.send (MkSendAudio [1; -2]) (ready, world dongle)) = Some true
  /\ fst (Bench.send (MkSendAudio [40000]) (ready, world dongle)) = Some true.
Proof. repeat split. Qed.



Lemma missing_body_stops_loop_silently_witness :
  fst (Bench.readLoop_turns 1 [InData (asBuffer 2 4); InNoData] (ready, world dongle))
  = Some BodyMissing.
Proof.
  refine (proj1 (missing_body_stops_loop_silently 16 fromBuffer snd toMessage
                   0 [] ready (world dongle) 0%nat dongle ep_in (asBuffer 2 4) (2, 4)
                   _ _ _ _ _ _ _)).
  - reflexivity.
  - reflexivity.
  - reflexivity.
  - reflexivity.
  - reflexivity.
  - reflexivity.
  - vm_compute. discriminate.
Defined.



(** On the bench, the remainder of [close()] having run, [send] is null. *)
Example send_after_the_close_completed :
  let st := run_pending (snd (Bench.readLoop [] (tripped, world dongle))) in
  fst st = mkDriver None None None None 5
  /\ fst (Bench.send MkHeartBeat st) = None.
Proof. split; reflexivity. Qed.

Example initialise_without_endpoints :
  fst (initialise 0 (new_DongleDriver, world bare_dongle))
  = Throw (DriverStateError "Illegal state - no IN endpoint found").
Proof. reflexivity. Qed.

(** C9 as stated fails: [close()] on a driver whose handle rejects its own
    [close()] gives the rejection to the caller. *)
Lemma close_can_raise :
  ~ (forall st : Bench.St, fst (close st) = Ok tt).
Proof.
  intros H. specialize (H (ready, world stuck_dongle)).
  vm_compute in H. discriminate.
Qed.

Lemma close_spec_witness :
  close (new_DongleDriver, world dongle) = (Ok tt, (new_DongleDriver, world dongle)).
Proof.
  refine (proj1 (close_spec (ReadableMessage := Z * bytes)
                   (new_DongleDriver, world dongle)) _).
  reflexivity.
Defined.

End DriverSpec.

(** * Further properties *)

(** ** The codec: what is written can be read back *)

Module CodecMore.
Import Buffer Readable Sendable Inbound Outbound BufferFacts.

Lemma at_app_l (l extra : bytes) (i : Z) :
  0 <= i < byteLength l -> at_ (l ++ extra) i = at_ l i.
Proof.
  intros Hi. unfold at_, byteLength in *. apply app_nth1. lia.
Qed.

Lemma at_app_r (pre l : bytes) (i : Z) :
  0 <= i -> at_ (pre ++ l) (byteLength pre + i) = at_ l i.
Proof.
  intros Hi. unfold at_, byteLength.
  rewrite Z2Nat.inj_add, Nat2Z.id by lia. apply app_nth2_plus.
Qed.

Lemma byteLength_app (l1 l2 : bytes) :
  byteLength (l1 ++ l2) = byteLength l1 + byteLength l2.
Proof. unfold byteLength. rewrite length_app. lia. Qed.

(** A read inside a buffer is not changed by what follows it. *)
Lemma readUInt32LE_app_l (l extra : bytes) (off : Z) :
  0 <= off -> off + 4 <= byteLength l ->
  readUInt32LE (l ++ extra) off = readUInt32LE l off.
Proof.
  intros H0 H4.
  rewrite (readUInt32LE_in_range l off) by assumption.
  rewrite readUInt32LE_in_range by (rewrite ?byteLength_app; pose proof (byteLength_nonneg extra); lia).
  unfold uint32le. rewrite !at_app_l by lia. reflexivity.
Qed.

(** A read past a prefix is a read in what follows it. *)
Lemma readUInt32LE_app_r (pre l : bytes) (off : Z) :
  0 <= off ->
  readUInt32LE (pre ++ l) (byteLength pre + off) = readUInt32LE l off.
Proof.
  intros H0. pose proof (byteLength_nonneg pre) as Hpre.
  unfold readUInt32LE. rewrite byteLength_app.
  replace (0 <=? byteLength pre + off) with (0 <=? off)
    by (destruct (Z.leb_spec 0 off), (Z.leb_spec 0 (byteLength pre + off)); lia).
  replace (byteLength pre + off + 4 <=? byteLength pre + byteLength l)
    with (off + 4 <=? byteLength l)
    by (destruct (Z.leb_spec (off + 4) (byteLength l)),
                 (Z.leb_spec (byteLength pre + off + 4) (byteLength pre + byteLength l)); lia).
  unfold uint32le.
  rewrite <- !Z.add_assoc, !at_app_r by lia. reflexivity.
Qed.

(** Four bytes written, then read where they were written. *)
Lemma readUInt32LE_le32 (pre rest : bytes) (n : Z) :
  0 <= n <= 4294967295 ->
  readUInt32LE (pre ++ le32 n ++ rest) (byteLength pre) = Ok n.
Proof.
  intros Hn. replace (byteLength pre) with (byteLength pre + 0) by lia.
  rewrite readUInt32LE_app_r by lia.
  rewrite readUInt32LE_app_l by (unfold byteLength; cbn [length le32]; lia).
  rewrite readUInt32LE_in_range by (unfold byteLength; cbn [length le32]; lia).
  now rewrite le32_value.
Qed.

(** The k-th of a row of 32-bit words, read where it was written. *)
Lemma read_word (ws : list Z) :
  forall (k : nat) (rest : bytes),
    Forall uint32 ws -> (k < length ws)%nat ->
    readUInt32LE (flat_map le32 ws ++ rest) (4 * Z.of_nat k) = Ok (nth k ws 0).
Proof.
  induction ws as [|n ws IH]; intros k rest Hws Hk; [cbn in Hk; lia|].
  inversion Hws as [|? ? Hn Hws']; subst.
  cbn [flat_map]. rewrite <- app_assoc. destruct k as [|k].
  - apply (readUInt32LE_le32 [] (flat_map le32 ws ++ rest) n Hn).
  - replace (4 * Z.of_nat (S k)) with (byteLength (le32 n) + 4 * Z.of_nat k)
      by (unfold byteLength; cbn [length le32]; lia).
    rewrite readUInt32LE_app_r by lia.
    apply IH; [assumption | cbn in Hk; lia].
Qed.

(** A read at a valid offset succeeds exactly when four bytes are there. *)
Lemma readUInt32LE_cases (data : bytes) (off : Z) :
  0 <= off ->
  readUInt32LE data off
  = if off + 4 <=? byteLength data then Ok (uint32le data off) else Throw out_of_range.
Proof.
  intros H. unfold readUInt32LE.
  destruct (Z.leb_spec 0 off); [|lia]. reflexivity.
Qed.

Lemma int16_bytes_value (v : Z) :
  int16 v ->
  int16_of (v mod 65536 mod 256) (v mod 65536 / 256) = v.
Proof.
  intros Hv. unfold int16 in Hv. unfold int16_of.
  change (2 ^ 8) with 256.
  replace (v mod 65536 mod 256 + v mod 65536 / 256 * 256) with (v mod 65536)
    by (pose proof (Z.div_mod (v mod 65536) 256 ltac:(lia)); lia).
  destruct (Z.leb_spec 32768 (v mod 65536)) as [H|H].
  - destruct (Z.le_gt_cases 0 v) as [Hpos|Hneg].
    + rewrite Z.mod_small in H by lia. lia.
    + replace (v mod 65536) with (v + 65536); [lia|].
      apply (Z.mod_unique_pos v 65536 (-1)); lia.
  - destruct (Z.le_gt_cases 0 v) as [Hpos|Hneg].
    + rewrite Z.mod_small by lia. reflexivity.
    + exfalso. replace (v mod 65536) with (v + 65536) in H; [lia|].
      apply (Z.mod_unique_pos v 65536 (-1)); lia.
Qed.

(** The elements of an Int16Array, read back from its bytes. *)
Lemma int16_elements_buffer (samples : list Z) :
  Forall int16 samples ->
  int16_elements (Int16Array_buffer samples) = samples.
Proof.
  induction 1 as [|v l Hv Hl IH]; [reflexivity|].
  unfold Int16Array_buffer in *. cbn [flat_map int16_bytes app int16_elements].
  rewrite IH. f_equal. now apply int16_bytes_value.
Qed.

Lemma Int16Array_buffer_length (samples : list Z) :
  length (Int16Array_buffer samples) = (2 * length samples)%nat.
Proof.
  induction samples as [|v l IH]; [reflexivity|].
  unfold Int16Array_buffer in *. cbn [flat_map int16_bytes app length].
  rewrite IH. lia.
Qed.

(** A number that does not fit 32 bits is refused with a RangeError. *)
Lemma writeUInt32LE_refuses (n : Z) :
  ~ uint32 n ->
  exists e, writeUInt32LE (inject_Z n) = Throw e /\ is_RangeError e = true.
Proof.
  intros Hn. unfold uint32 in Hn. unfold writeUInt32LE.
  destruct (Qle_bool 0 (inject_Z n) && Qle_bool (inject_Z n) (inject_Z 4294967295))
    eqn:E.
  - exfalso. apply Hn. apply andb_prop in E as [E1 E2].
    apply Qle_bool_iff in E1, E2.
    change 0%Q with (inject_Z 0) in E1. rewrite <- Zle_Qle in E1, E2. lia.
  - eexists. split; reflexivity.
Qed.

Section RoundTrips.
Context {Header : Type} (header : Header).
Variable asBuffer : Z -> Z -> bytes.
Variable MessageType : MessageTypeName -> Z.
Variable stringify_settings : Z -> Z -> Z -> Z -> JSString.
Variable getCurrentTimeInMs : Z.
Variable fl : Q -> Q.
Variable writeFloatLE : Q -> bytes.

Local Abbreviation getPayload_ := (getPayload stringify_settings getCurrentTimeInMs fl writeFloatLE).

(** X1: the payload of a SendOpen whose seven numbers fit 32 bits is 28
    bytes long, and the Opened decoder reads the same seven numbers back from
    it, in the same order. *)
Theorem Opened_of_SendOpen (config : Config) :
  uint32 config.(Sendable.width) -> uint32 config.(Sendable.height) ->
  uint32 config.(Sendable.fps) -> uint32 config.(Sendable.format) ->
  uint32 config.(Sendable.packetMax) -> uint32 config.(iBoxVersion) ->
  uint32 config.(phoneWorkMode) ->
  exists payload,
    getPayload_ (MkSendOpen config) = Some (Ok payload)
    /\ byteLength payload = 28
    /\ new_Opened header payload
       = Ok (mkOpened header config.(Sendable.width) config.(Sendable.height)
               config.(Sendable.fps) config.(Sendable.format)
               config.(Sendable.packetMax) config.(iBoxVersion)
               config.(phoneWorkMode)).
Proof.
  intros Hw Hh Hfps Hfmt Hpm Hib Hph.
  set (ws := [config.(Sendable.width); config.(Sendable.height);
              config.(Sendable.fps); config.(Sendable.format);
              config.(Sendable.packetMax); config.(iBoxVersion);
              config.(phoneWorkMode)]).
  exists (flat_map le32 ws). split.
  { unfold getPayload. unfold uint32 in *.
    rewrite !writeUInt32LE_Z by assumption. reflexivity. }
  split; [reflexivity|].
  assert (Hws : Forall uint32 ws)
    by (subst ws; repeat (constructor; [assumption|]); constructor).
  assert (R : forall k, (k < 7)%nat ->
                readUInt32LE (flat_map le32 ws) (4 * Z.of_nat k) = Ok (nth k ws 0)).
  { intros k Hk. rewrite <- (app_nil_r (flat_map le32 ws)).
    apply read_word; [assumption | exact Hk]. }
  pose proof (R 0%nat ltac:(lia)) as R0. pose proof (R 1%nat ltac:(lia)) as R1.
  pose proof (R 2%nat ltac:(lia)) as R2. pose proof (R 3%nat ltac:(lia)) as R3.
  pose proof (R 4%nat ltac:(lia)) as R4. pose proof (R 5%nat ltac:(lia)) as R5.
  pose proof (R 6%nat ltac:(lia)) as R6.
  clear R.
  change (4 * Z.of_nat 0) with 0 in R0. change (4 * Z.of_nat 1) with 4 in R1.
  change (4 * Z.of_nat 2) with 8 in R2. change (4 * Z.of_nat 3) with 12 in R3.
  change (4 * Z.of_nat 4) with 16 in R4. change (4 * Z.of_nat 5) with 20 in R5.
  change (4 * Z.of_nat 6) with 24 in R6.
  unfold new_Opened. rewrite R0, R1, R2, R3, R4, R5, R6. reflexivity.
Qed.

(** X2: the payload of a SendCommand is four bytes, and the Command decoder
    reads from it the code the table gives for the name; a name the table
    does not have is sent, and read back, as 0. *)
Theorem Command_of_SendCommand (CommandMapping : JSString -> option Z)
    (name : JSString) :
  (forall v, CommandMapping name = Some v -> uint32 v) ->
  exists payload,
    getPayload_ (new_SendCommand CommandMapping name) = Some (Ok payload)
    /\ byteLength payload = 4
    /\ new_Command header payload
       = Ok (mkCommand header (default 0 (CommandMapping name))).
Proof.
  intros Hv. unfold new_SendCommand, getPayload, writeUInt32LE_opt.
  destruct (CommandMapping name) as [v|].
  - specialize (Hv v eq_refl). unfold uint32 in Hv.
    exists (le32 v). rewrite writeUInt32LE_Z by assumption.
    split; [reflexivity|]. split; [reflexivity|].
    unfold new_Command.
    rewrite readUInt32LE_in_range by (unfold byteLength; cbn [length le32]; lia).
    rewrite le32_value by assumption. reflexivity.
  - exists (le32 0). split; [reflexivity|]. split; reflexivity.
Qed.

(** X3: a body that starts with five 32-bit words is decoded as a
    VideoData with these five numbers and, as its data, everything that
    follows them; the length the body announces is not compared with the
    number of bytes that follow. *)
Theorem VideoData_layout (w h f l u : Z) (frame : bytes) :
  uint32 w -> uint32 h -> uint32 f -> uint32 l -> uint32 u ->
  new_VideoData header (flat_map le32 [w; h; f; l; u] ++ frame)
  = Ok (mkVideoData header w h f l u frame).
Proof.
  intros Hw Hh Hf Hl Hu.
  set (ws := [w; h; f; l; u]).
  assert (Hws : Forall uint32 ws)
    by (subst ws; repeat (constructor; [assumption|]); constructor).
  assert (R : forall k, (k < 5)%nat ->
                readUInt32LE (flat_map le32 ws ++ frame) (4 * Z.of_nat k)
                = Ok (nth k ws 0))
    by (intros k Hk; apply read_word; [assumption | exact Hk]).
  pose proof (R 0%nat ltac:(lia)) as R0. pose proof (R 1%nat ltac:(lia)) as R1.
  pose proof (R 2%nat ltac:(lia)) as R2. pose proof (R 3%nat ltac:(lia)) as R3.
  pose proof (R 4%nat ltac:(lia)) as R4. clear R.
  change (4 * Z.of_nat 0) with 0 in R0. change (4 * Z.of_nat 1) with 4 in R1.
  change (4 * Z.of_nat 2) with 8 in R2. change (4 * Z.of_nat 3) with 12 in R3.
  change (4 * Z.of_nat 4) with 16 in R4.
  unfold new_VideoData. rewrite R0, R1, R2, R3, R4.
  reflexivity.
Qed.

(** X4: the decoders of fixed layout take any body that is long enough,
    whatever follows the words they read, and throw a RangeError on a shorter
    one: 4 bytes for Command and Phase, 8 for ManufacturerInfo, 20 for
    VideoData, 28 for Opened.  AudioData throws the same error on a body of
    less than 12 bytes. *)
Theorem fixed_layout_bodies (data : bytes) :
  new_Command header data
  = (if 4 <=? byteLength data
     then Ok (mkCommand header (uint32le data 0))
     else Throw out_of_range)
  /\ new_Phase header data
     = (if 4 <=? byteLength data
        then Ok (mkPhase header (uint32le data 0))
        else Throw out_of_range)
  /\ new_ManufacturerInfo header data
     = (if 8 <=? byteLength data
        then Ok (mkManufacturerInfo header (uint32le data 0) (uint32le data 4))
        else Throw out_of_range)
  /\ new_VideoData header data
     = (if 20 <=? byteLength data
        then Ok (mkVideoData header (uint32le data 0) (uint32le data 4)
                   (uint32le data 8) (uint32le data 12) (uint32le data 16)
                   (subarray data 20))
        else Throw out_of_range)
  /\ new_Opened header data
     = (if 28 <=? byteLength data
        then Ok (mkOpened header (uint32le data 0) (uint32le data 4)
                   (uint32le data 8) (uint32le data 12) (uint32le data 16)
                   (uint32le data 20) (uint32le data 24))
        else Throw out_of_range)
  /\ (byteLength data < 12 -> new_AudioData header data = Throw out_of_range).
Proof.
  unfold new_Command, new_Phase, new_ManufacturerInfo, new_VideoData, new_Opened,
    new_AudioData, readFloatLE.
  rewrite !readUInt32LE_cases by lia.
  change (0 + 4) with 4. change (4 + 4) with 8. change (8 + 4) with 12.
  change (12 + 4) with 16. change (16 + 4) with 20. change (20 + 4) with 24.
  change (24 + 4) with 28.
  destruct (Z.leb_spec 4 (byteLength data)), (Z.leb_spec 8 (byteLength data)),
    (Z.leb_spec 12 (byteLength data)), (Z.leb_spec 16 (byteLength data)),
    (Z.leb_spec 20 (byteLength data)), (Z.leb_spec 24 (byteLength data)),
    (Z.leb_spec 28 (byteLength data));
    try lia; repeat split; try reflexivity; intros; lia.
Qed.

(** X5: what SendAudio writes, AudioData reads back: decode type 5, volume
    0, audio type 3 and the same samples.  The exception is a packet of
    exactly two samples: its four bytes of PCM are read as a volume duration
    and the decoded message carries no samples.  On the wire the payload
    follows a header that gives its length, 12 bytes and two for each
    sample. *)
Theorem AudioData_of_SendAudio (samples : list Z) :
  Forall int16 samples ->
  exists payload,
    SendAudio_getPayload samples = Ok payload
    /\ byteLength payload = 12 + 2 * Z.of_nat (length samples)
    /\ (length samples <> 2%nat ->
        new_AudioData header payload
        = Ok (mkAudioData header 5 0 3 None None (Some samples)))
    /\ (length samples = 2%nat ->
        exists duration,
          new_AudioData header payload
          = Ok (mkAudioData header 5 0 3 None (Some duration) None))
    /\ SendAudio_serialise asBuffer MessageType samples
       = Ok (asBuffer (MessageType AudioData) (12 + 2 * Z.of_nat (length samples))
               ++ payload).
Proof.
  intros Hs.
  set (head := [5; 0; 0; 0; 0; 0; 0; 0; 3; 0; 0; 0]).
  exists (head ++ Int16Array_buffer samples).
  assert (Hlen : byteLength (head ++ Int16Array_buffer samples)
                 = 12 + 2 * Z.of_nat (length samples)).
  { unfold byteLength. rewrite length_app, Int16Array_buffer_length.
    subst head. cbn [length]. lia. }
  assert (R0 : readUInt32LE (head ++ Int16Array_buffer samples) 0 = Ok 5)
    by (rewrite readUInt32LE_app_l by (subst head; unfold byteLength; cbn [length]; lia);
        reflexivity).
  assert (R4 : readFloatLE (head ++ Int16Array_buffer samples) 4 = Ok 0)
    by (unfold readFloatLE;
        rewrite readUInt32LE_app_l by (subst head; unfold byteLength; cbn [length]; lia);
        reflexivity).
  assert (R8 : readUInt32LE (head ++ Int16Array_buffer samples) 8 = Ok 3)
    by (rewrite readUInt32LE_app_l by (subst head; unfold byteLength; cbn [length]; lia);
        reflexivity).
  assert (Hpay : SendAudio_getPayload samples = Ok (head ++ Int16Array_buffer samples)).
  { unfold SendAudio_getPayload, concat. cbn [obind writeUInt32LE].
    subst head. cbn. now rewrite app_nil_r. }
  split; [exact Hpay|].
  split; [exact Hlen|].
  cut ((length samples <> 2%nat ->
        new_AudioData header (head ++ Int16Array_buffer samples)
        = Ok (mkAudioData header 5 0 3 None None (Some samples)))
       /\ (length samples = 2%nat ->
           exists duration,
             new_AudioData header (head ++ Int16Array_buffer samples)
             = Ok (mkAudioData header 5 0 3 None (Some duration) None))).
  { intros [A B]. split; [exact A|]. split; [exact B|].
    unfold SendAudio_serialise. rewrite Hpay. cbn [obind]. rewrite Hlen.
    unfold concat. cbn [List.concat]. now rewrite app_nil_r. }
  unfold new_AudioData. rewrite R0, R4, R8. cbn [obind]. rewrite Hlen.
  replace (12 + 2 * Z.of_nat (length samples) - 12)
    with (2 * Z.of_nat (length samples)) by lia.
  destruct (Z.eqb_spec (2 * Z.of_nat (length samples)) 1) as [H1|_]; [lia|].
  split.
  - intros Hn.
    destruct (Z.eqb_spec (2 * Z.of_nat (length samples)) 4) as [H4|_]; [lia|].
    unfold Int16Array. rewrite Hlen.
    replace ((12 + 2 * Z.of_nat (length samples)) mod 2) with 0
      by (replace (12 + 2 * Z.of_nat (length samples))
            with (12 + Z.of_nat (length samples) * 2) by lia;
          rewrite Z.mod_add by lia; reflexivity).
    change (negb (12 mod 2 =? 0)) with false. cbn [negb Z.eqb].
    destruct (Z.ltb_spec (12 + 2 * Z.of_nat (length samples)) 12); [lia|].
    unfold subarray. change (Z.to_nat 12) with (length head).
    rewrite drop_app_length, int16_elements_buffer by assumption.
    reflexivity.
  - intros Hn.
    destruct (Z.eqb_spec (2 * Z.of_nat (length samples)) 4) as [_|H4]; [|lia].
    unfold readFloatLE.
    rewrite readUInt32LE_in_range by lia.
    eexists. reflexivity.
Qed.

(** X6: the payload of a SendFile can be taken apart again: the length of
    the name with its closing NUL, the name (the low eight bits of each
    character) and the NUL, the length of the content, the content. *)
Theorem SendFile_layout (content : bytes) (fileName : JSString) :
  Z.of_nat (length fileName) + 1 <= 4294967295 ->
  byteLength content <= 4294967295 ->
  let n := Z.of_nat (length fileName) in
  exists payload,
    getPayload_ (MkSendFile content fileName) = Some (Ok payload)
    /\ byteLength payload = n + 9 + byteLength content
    /\ readUInt32LE payload 0 = Ok (n + 1)
    /\ (forall i, (i < length fileName)%nat ->
          at_ payload (4 + Z.of_nat i) = Z.land (nth i fileName 0) 255)
    /\ at_ payload (4 + n) = 0
    /\ readUInt32LE payload (n + 5) = Ok (byteLength content)
    /\ subarray payload (n + 9) = content.
Proof.
  intros Hname Hcontent n.
  pose proof (byteLength_nonneg content) as Hc0.
  set (name := from_ascii fileName).
  assert (Hnl : length name = length fileName) by apply SendableSpec.from_ascii_length.
  set (front := le32 (n + 1) ++ name ++ [0]).
  assert (Hfront : byteLength front = n + 5).
  { unfold front, byteLength. rewrite !length_app, Hnl. cbn [length le32]. lia. }
  exists (front ++ le32 (byteLength content) ++ content).
  split.
  { unfold getPayload, getLength.
    rewrite SendableSpec.getFileName_eq. fold name.
    replace (byteLength (name ++ [0])) with (n + 1)
      by (unfold byteLength; rewrite length_app, Hnl; cbn [length]; lia).
    rewrite !writeUInt32LE_Z by lia.
    unfold front, concat. cbn [obind List.concat].
    now rewrite app_nil_r, <- !app_assoc. }
  split.
  { rewrite !byteLength_app, Hfront. unfold byteLength at 1. cbn [length le32]. lia. }
  split.
  { unfold front. rewrite <- !app_assoc.
    apply (readUInt32LE_le32 [] _ (n + 1)). lia. }
  split.
  { intros i Hi. unfold front. rewrite <- !app_assoc.
    change 4 with (byteLength (le32 (n + 1))). rewrite at_app_r by lia.
    rewrite at_app_l by (unfold byteLength; lia).
    unfold at_, name, from_ascii. rewrite Nat2Z.id.
    exact (map_nth (fun c => Z.land c 255) fileName 0 i). }
  split.
  { unfold front. rewrite <- !app_assoc.
    change 4 with (byteLength (le32 (n + 1))). rewrite at_app_r by lia.
    replace n with (byteLength name + 0) by (unfold byteLength; lia).
    rewrite at_app_r by lia. reflexivity. }
  split.
  { rewrite <- Hfront. apply readUInt32LE_le32. lia. }
  unfold subarray.
  replace (Z.to_nat (n + 9)) with (length (front ++ le32 (byteLength content))).
  - now rewrite app_assoc, drop_app_length.
  - rewrite length_app. unfold byteLength in Hfront. cbn [length le32]. lia.
Qed.

(** X7: a SendNumber of a number that fits 32 bits is a SendFile whose
    content is that number: after the name, the payload holds the length 4
    and the number itself.  A number out of range makes the constructor
    throw a RangeError; SendBoolean, which sends 1 or 0, never throws. *)
Theorem SendNumber_layout (number : Z) (file : JSString) :
  Z.of_nat (length file) + 1 <= 4294967295 ->
  let n := Z.of_nat (length file) in
  (uint32 number ->
   exists payload,
     new_SendNumber (inject_Z number) file = Ok (MkSendFile (le32 number) file)
     /\ getPayload_ (MkSendFile (le32 number) file) = Some (Ok payload)
     /\ byteLength payload = n + 13
     /\ readUInt32LE payload (n + 5) = Ok 4
     /\ readUInt32LE payload (n + 9) = Ok number)
  /\ (~ uint32 number ->
      exists e, new_SendNumber (inject_Z number) file = Throw e
                /\ is_RangeError e = true)
  /\ (forall b : bool,
        new_SendBoolean b file = Ok (MkSendFile (le32 (if b then 1 else 0)) file)).
Proof.
  intros Hname n. split; [|split].
  - intros Hnum. unfold uint32 in Hnum.
    set (name := from_ascii file).
    assert (Hnl : length name = length file) by apply SendableSpec.from_ascii_length.
    set (front := le32 (n + 1) ++ name ++ [0] ++ le32 4).
    assert (Hfront : byteLength front = n + 9).
    { unfold front, byteLength. rewrite !length_app, Hnl. cbn [length le32]. lia. }
    exists (front ++ le32 number ++ []).
    split.
    { unfold new_SendNumber. now rewrite writeUInt32LE_Z by assumption. }
    split.
    { unfold getPayload, getLength.
      rewrite SendableSpec.getFileName_eq. fold name.
      replace (byteLength (name ++ [0])) with (n + 1)
        by (unfold byteLength; rewrite length_app, Hnl; cbn [length]; lia).
      change (byteLength (le32 number)) with 4.
      rewrite !writeUInt32LE_Z by lia.
      unfold front, concat. cbn [obind List.concat].
      now rewrite <- !app_assoc. }
    split.
    { rewrite !byteLength_app, Hfront. unfold byteLength. cbn [length le32]. lia. }
    split.
    { unfold front.
      replace (n + 5) with (byteLength (le32 (n + 1) ++ name ++ [0]))
        by (unfold byteLength; rewrite !length_app, Hnl; cbn [length le32]; lia).
      replace ((le32 (n + 1) ++ name ++ [0] ++ le32 4) ++ le32 number ++ [])
        with ((le32 (n + 1) ++ name ++ [0]) ++ le32 4 ++ le32 number ++ [])
        by (now rewrite <- !app_assoc).
      apply readUInt32LE_le32. lia. }
    rewrite <- Hfront. apply readUInt32LE_le32. lia.
  - intros Hnum. destruct (writeUInt32LE_refuses number Hnum) as (e & He & Hr).
    exists e. unfold new_SendNumber. rewrite He. split; [reflexivity | exact Hr].
  - intros [|]; reflexivity.
Qed.

End RoundTrips.

(** X8: with its bounds in order, [clamp] gives a number between them: the
    number itself when it lies between them, the nearer bound otherwise.
    With the bounds the wrong way round it gives the lower bound it was
    given, whatever the number. *)
Theorem clamp_spec (number min max : Q) :
  ((min <= max)%Q ->
   (min <= clamp number min max)%Q
   /\ (clamp number min max <= max)%Q
   /\ ((number <= min)%Q -> (clamp number min max == min)%Q)
   /\ ((min <= number)%Q -> (number <= max)%Q -> (clamp number min max == number)%Q)
   /\ ((max <= number)%Q -> (clamp number min max == max)%Q))
  /\ ((max < min)%Q -> (clamp number min max == min)%Q).
Proof.
  unfold clamp. split.
  - intros Hmm. split; [apply Q.le_max_l|].
    split; [apply Q.max_lub; [exact Hmm | apply Q.le_min_r]|].
    split.
    { intros H. apply Q.max_l. eapply Qle_trans; [apply Q.le_min_l | exact H]. }
    split.
    { intros Hlo Hhi. rewrite (Q.min_l number max) by exact Hhi.
      now apply Q.max_r. }
    intros H. rewrite (Q.min_r number max) by exact H. now apply Q.max_r.
  - intros Hinv. apply Q.max_l.
    eapply Qle_trans; [apply Q.le_min_r | now apply Qlt_le_weak].
Qed.

Lemma Opened_of_SendOpen_witness :
  exists payload,
    getPayload (fun _ _ _ _ => []) 0 (fun q => q) Bench.writeFloatLE (MkSendOpen DEFAULT_CONFIG)
    = Some (Ok payload)
    /\ byteLength payload = 28
    /\ new_Opened tt payload = Ok (mkOpened tt 800 640 20 5 49152 2 2).
Proof.
  apply (Opened_of_SendOpen tt (fun _ _ _ _ => []) 0 (fun q => q) Bench.writeFloatLE DEFAULT_CONFIG);
    unfold uint32; cbn; lia.
Defined.

Lemma Command_of_SendCommand_witness :
  exists payload,
    getPayload (fun _ _ _ _ => []) 0 (fun q => q) Bench.writeFloatLE
      (new_SendCommand Bench.CommandMapping (js "wifiConnect"))
    = Some (Ok payload)
    /\ byteLength payload = 4
    /\ new_Command tt payload = Ok (mkCommand tt 1002).
Proof.
  apply (Command_of_SendCommand tt (fun _ _ _ _ => []) 0 (fun q => q) Bench.writeFloatLE
           Bench.CommandMapping (js "wifiConnect")).
  intros v Hv. vm_compute in Hv. injection Hv as <-. unfold uint32. lia.
Defined.

Lemma VideoData_layout_witness :
  new_VideoData tt (flat_map le32 [800; 480; 1; 3; 0] ++ [1; 2; 3])
  = Ok (mkVideoData tt 800 480 1 3 0 [1; 2; 3]).
Proof.
  apply (VideoData_layout tt 800 480 1 3 0 [1; 2; 3]); unfold uint32; lia.
Defined.

Lemma AudioData_of_SendAudio_witness :
  exists payload,
    SendAudio_getPayload [-1; 0; 32767] = Ok payload
    /\ byteLength payload = 18
    /\ new_AudioData tt payload
       = Ok (mkAudioData tt 5 0 3 None None (Some [-1; 0; 32767])).
Proof.
  destruct (AudioData_of_SendAudio tt (fun _ _ => []) (fun _ => 0) [-1; 0; 32767])
    as (payload & Hp & Hl & Hd & _).
  - repeat (constructor; [unfold int16; lia|]). constructor.
  - exists payload. split; [exact Hp|]. split; [exact Hl|].
    apply Hd. cbn [length]. lia.
Defined.

Lemma SendFile_layout_witness :
  exists payload,
    getPayload (fun _ _ _ _ => []) 0 (fun q => q) Bench.writeFloatLE (MkSendFile [7; 8] (js "/a"))
    = Some (Ok payload)
    /\ byteLength payload = 13
    /\ readUInt32LE payload 0 = Ok 3
    /\ at_ payload 6 = 0
    /\ readUInt32LE payload 7 = Ok 2
    /\ subarray payload 11 = [7; 8].
Proof.
  destruct (SendFile_layout (fun _ _ _ _ => []) 0 (fun q => q) Bench.writeFloatLE [7; 8] (js "/a"))
    as (payload & Hp & Hl & Hn & _ & Hz & Hc & Hs);
    [vm_compute; discriminate | vm_compute; discriminate |].
  exists payload. split; [exact Hp|]. split; [exact Hl|]. split; [exact Hn|].
  split; [exact Hz|]. split; [exact Hc | exact Hs].
Defined.

Lemma SendNumber_layout_witness :
  new_SendNumber (inject_Z 160) FileAddress.DPI
  = Ok (MkSendFile [160; 0; 0; 0] FileAddress.DPI)
  /\ new_SendBoolean true FileAddress.DPI
     = Ok (MkSendFile [1; 0; 0; 0] FileAddress.DPI).
Proof.
  split.
  - destruct (proj1 (SendNumber_layout (fun _ _ _ _ => []) 0 (fun q => q) Bench.writeFloatLE 160
                       FileAddress.DPI ltac:(vm_compute; discriminate)))
      as (payload & Hn & _); [unfold uint32; lia | exact Hn].
  - exact (proj2 (proj2 (SendNumber_layout (fun _ _ _ _ => []) 0 (fun q => q) Bench.writeFloatLE 160
                           FileAddress.DPI ltac:(vm_compute; discriminate))) true).
Defined.

Lemma fixed_layout_bodies_witness :
  new_AudioData tt [1; 2; 3] = Throw out_of_range.
Proof.
  apply (proj2 (proj2 (proj2 (proj2 (proj2 (fixed_layout_bodies tt [1; 2; 3])))))).
  reflexivity.
Defined.

Lemma clamp_spec_witness :
  (clamp 5 0 10 == 5)%Q /\ (clamp 5 10 0 == 10)%Q.
Proof.
  split.
  - apply (proj1 (proj2 (proj2 (proj2 (proj1 (clamp_spec 5 0 10) ltac:(discriminate))))));
      discriminate.
  - apply (proj2 (clamp_spec 5 10 0)). reflexivity.
Defined.

End CodecMore.

(** ** The caller's conversions (CarPlayManager) *)

Module ManagerSpec.
Import Buffer Inbound Outbound Manager BufferFacts.

Lemma truncate_range (p : Q) (lo hi : Z) :
  (inject_Z lo <= p)%Q -> (p <= inject_Z hi)%Q -> lo <= truncate p <= hi.
Proof.
  intros Hlo Hhi. unfold truncate. destruct (Qle_bool 0 p).
  - split.
    + rewrite <- (Qfloor_Z lo). now apply Qfloor_resp_le.
    + rewrite <- (Qfloor_Z hi). now apply Qfloor_resp_le.
  - split.
    + rewrite <- (Qceiling_Z lo). now apply Qceiling_resp_le.
    + rewrite <- (Qceiling_Z hi). now apply Qceiling_resp_le.
Qed.

Lemma truncate_eq (p p' : Q) : (p == p')%Q -> truncate p = truncate p'.
Proof.
  intros H. unfold truncate. rewrite H. destruct (Qle_bool 0 p').
  - now rewrite H.
  - now rewrite H.
Qed.

Lemma truncate_monotone (p p' : Q) : (p <= p')%Q -> truncate p <= truncate p'.
Proof.
  intros H. unfold truncate.
  destruct (Qle_bool 0 p) eqn:E, (Qle_bool 0 p') eqn:E'.
  - now apply Qfloor_resp_le.
  - apply Qle_bool_iff in E.
    assert (Qle_bool 0 p' = true) by (apply Qle_bool_iff; eapply Qle_trans; eassumption).
    congruence.
  - apply Z.le_trans with 0.
    + change 0 with (Qceiling 0). apply Qceiling_resp_le.
      apply Qnot_lt_le. intros Hlt. apply Qlt_le_weak in Hlt.
      apply Qle_bool_iff in Hlt. congruence.
    + change 0 with (Qfloor 0). apply Qfloor_resp_le. now apply Qle_bool_iff.
  - now apply Qceiling_resp_le.
Qed.

Lemma ToInt16_small (p : Q) :
  (inject_Z (-32768) <= p)%Q -> (p <= inject_Z 32767)%Q -> ToInt16 p = truncate p.
Proof.
  intros Hlo Hhi. pose proof (truncate_range p _ _ Hlo Hhi).
  unfold ToInt16. rewrite Z.mod_small by lia. lia.
Qed.

Lemma scaled_range (s : Q) :
  (-1 <= s)%Q -> (s <= 1)%Q ->
  (inject_Z (-32768) <= scaled s)%Q /\ (scaled s <= inject_Z 32767)%Q.
Proof.
  intros Hlo Hhi. unfold scaled. destruct (Qle_bool 0 s) eqn:E.
  - apply Qle_bool_iff in E.
    unfold Qle in *. destruct s as [a b]. cbn in *. lia.
  - assert (Hneg : (s < 0)%Q).
    { apply Qnot_le_lt. intros H. apply Qle_bool_iff in H. congruence. }
    unfold Qle, Qlt in *. destruct s as [a b]. cbn in *. lia.
Qed.

Lemma scaled_monotone (s s' : Q) : (s <= s')%Q -> (scaled s <= scaled s')%Q.
Proof.
  intros H. unfold scaled.
  destruct (Qle_bool 0 s) eqn:E, (Qle_bool 0 s') eqn:E'.
  - apply Qmult_le_compat_r; [exact H | discriminate].
  - apply Qle_bool_iff in E.
    assert (Qle_bool 0 s' = true) by (apply Qle_bool_iff; eapply Qle_trans; eassumption).
    congruence.
  - apply Qle_bool_iff in E'.
    assert (Hneg : (s < 0)%Q).
    { apply Qnot_le_lt. intros H0. apply Qle_bool_iff in H0. congruence. }
    unfold Qle, Qlt in *. destruct s as [a b], s' as [a' b']. cbn in *. nia.
  - apply Qmult_le_compat_r; [exact H | discriminate].
Qed.

Lemma clamp_unit_range (q : Q) :
  (-1 <= Qmax (-1) (Qmin 1 q))%Q /\ (Qmax (-1) (Qmin 1 q) <= 1)%Q.
Proof.
  split.
  - apply Q.le_max_l.
  - apply Q.max_lub; [discriminate | apply Q.le_min_l].
Qed.

(** X9: every sample the microphone callback stores is a 16-bit number
    that did not wrap: NaN is stored as 0, samples of 1 and above
    (+Infinity too) as 32767, samples of -1 and below as -32768, 0 as 0, and
    a larger sample is never stored as a smaller number. *)
Theorem mic_sample_range (x : Sample) :
  int16 (mic_sample x)
  /\ mic_sample NaN = 0
  /\ mic_sample PosInfinity = 32767
  /\ mic_sample NegInfinity = -32768
  /\ (forall q, (1 <= q)%Q -> mic_sample (Finite q) = 32767)
  /\ (forall q, (q <= -1)%Q -> mic_sample (Finite q) = -32768)
  /\ (forall q, (q == 0)%Q -> mic_sample (Finite q) = 0)
  /\ (forall q q', (q <= q')%Q -> mic_sample (Finite q) <= mic_sample (Finite q')).
Proof.
  assert (Hfin : forall q,
             mic_sample (Finite q) = truncate (scaled (Qmax (-1) (Qmin 1 q)))).
  { intros q. unfold mic_sample, clamp_unit.
    destruct (clamp_unit_range q) as [Hlo Hhi].
    destruct (scaled_range _ Hlo Hhi) as [Hl Hh].
    now apply ToInt16_small. }
  assert (Hat : forall q s, (Qmax (-1) (Qmin 1 q) == s)%Q ->
                            mic_sample (Finite q) = truncate (scaled s)).
  { intros q s Hs. rewrite Hfin. apply truncate_eq. unfold scaled.
    rewrite Hs. destruct (Qle_bool 0 s); now rewrite Hs. }
  split.
  { destruct x as [| | |q]; try (unfold int16; cbv; split; congruence).
    rewrite Hfin. unfold int16.
    destruct (clamp_unit_range q) as [Hlo Hhi].
    destruct (scaled_range _ Hlo Hhi) as [Hl Hh].
    now apply truncate_range. }
  split; [reflexivity|]. split; [reflexivity|]. split; [reflexivity|].
  split.
  { intros q Hq. rewrite (Hat q 1%Q); [reflexivity|].
    rewrite (Q.min_l 1 q) by exact Hq. apply Q.max_r. discriminate. }
  split.
  { intros q Hq. rewrite (Hat q (-1)%Q); [reflexivity|].
    apply Q.max_l. eapply Qle_trans; [apply Q.le_min_r | exact Hq]. }
  split.
  { intros q Hq. rewrite (Hat q 0%Q); [reflexivity|].
    rewrite Hq. reflexivity. }
  intros q q' Hq. rewrite !Hfin.
  apply truncate_monotone, scaled_monotone.
  apply Q.max_le_compat_l, Q.min_le_compat_l, Hq.
Qed.

(** X10: a body of at least 20 bytes is a VideoData, and whether
    [handleVideoFrame] takes it for a key frame depends on one bit of it: the
    lowest bit of its ninth byte. *)
Theorem key_frame_bit {Header : Type} (header : Header) (data : bytes) :
  20 <= byteLength data ->
  exists v,
    new_VideoData header data = Ok v
    /\ is_key_frame v.(flags) = Z.odd (at_ data 8).
Proof.
  intros Hlen. unfold new_VideoData.
  rewrite !readUInt32LE_in_range by lia. cbn [obind].
  eexists. split; [reflexivity|]. cbn [flags].
  unfold is_key_frame.
  assert (E : Z.land (uint32le data 8) 1 = at_ data 8 mod 2).
  { change 1 with (Z.ones 1). rewrite Z.land_ones by lia.
    change (2 ^ Z.ones 1) with 2. unfold uint32le.
    replace (at_ data 8 + at_ data (8 + 1) * 2 ^ 8 + at_ data (8 + 2) * 2 ^ 16
             + at_ data (8 + 3) * 2 ^ 24)
      with (at_ data 8
            + (at_ data (8 + 1) * 128 + at_ data (8 + 2) * 32768
               + at_ data (8 + 3) * 8388608) * 2) by lia.
    now rewrite Z.mod_add by lia. }
  rewrite E, Zmod_odd.
  now destruct (Z.odd (at_ data 8)).
Qed.

Lemma mic_sample_range_witness :
  mic_sample (Finite (3 # 2)) = 32767 /\ mic_sample (Finite (-2)) = -32768.
Proof.
  split.
  - apply (proj1 (proj2 (proj2 (proj2 (proj2 (mic_sample_range NaN))))) (3 # 2)).
    discriminate.
  - apply (proj1 (proj2 (proj2 (proj2 (proj2 (proj2 (mic_sample_range NaN)))))) (-2)%Q).
    discriminate.
Defined.

Lemma key_frame_bit_witness :
  exists v,
    new_VideoData tt (flat_map le32 [800; 480; 1; 0; 0]) = Ok v
    /\ is_key_frame v.(flags) = true.
Proof.
  apply (key_frame_bit tt (flat_map le32 [800; 480; 1; 0; 0])). cbv. congruence.
Defined.

End ManagerSpec.

(** ** More of the driver: whole runs of the read loop, start and close together *)

Module DriverMore.
Import Buffer Sendable Driver Observed Outbound.

Section WithCommon.
Context {MessageHeader ReadableMessage : Type}.
Variable dataLength : Z.
Variable fromBuffer : bytes -> Outcome MessageHeader.
Variable header_length : MessageHeader -> Z.
Variable toMessage :
  MessageHeader -> option bytes -> Outcome (option ReadableMessage).
Variable asBuffer : Z -> Z -> bytes.
Variable MessageType : MessageTypeName -> Z.
Variable CommandMapping : JSString -> option Z.
Variable stringify_settings : Z -> Z -> Z -> Z -> JSString.
Variable getCurrentTimeInMs : Z.
Variable fl : Q -> Q.
Variable writeFloatLE : Q -> bytes.

Local Abbreviation St := (State ReadableMessage).
Local Abbreviation send_ :=
  (send (ReadableMessage := ReadableMessage)
        asBuffer MessageType stringify_settings getCurrentTimeInMs fl writeFloatLE).
Local Abbreviation iteration_ :=
  (iteration dataLength fromBuffer header_length toMessage).
Local Abbreviation readLoop_turns_ :=
  (readLoop_turns dataLength fromBuffer header_length toMessage).
Local Abbreviation readLoop_ :=
  (readLoop dataLength fromBuffer header_length toMessage).
Local Abbreviation start_ :=
  (start dataLength fromBuffer header_length toMessage asBuffer MessageType
         CommandMapping stringify_settings getCurrentTimeInMs fl writeFloatLE).
Local Abbreviation tick_ :=
  (tick (ReadableMessage := ReadableMessage)
        asBuffer MessageType stringify_settings getCurrentTimeInMs fl writeFloatLE).
Local Abbreviation ticks_ :=
  (ticks (ReadableMessage := ReadableMessage)
         asBuffer MessageType stringify_settings getCurrentTimeInMs fl writeFloatLE).

(** *** Counting over a run of the read loop *)

Lemma catches_app (l1 l2 : list (Action ReadableMessage)) :
  catches (l1 ++ l2) = (catches l1 + catches l2)%nat.
Proof. unfold catches. now rewrite List.filter_app, length_app. Qed.

Lemma closes_app (l1 l2 : list (Action ReadableMessage)) :
  closes (l1 ++ l2) = (closes l1 + closes l2)%nat.
Proof. unfold closes. now rewrite List.filter_app, length_app. Qed.

Lemma catches_log (a : Action ReadableMessage) (w : World ReadableMessage) :
  catches (log a w).(trace) = (catches w.(trace) + catches [a])%nat.
Proof. cbn [log trace]. apply catches_app. Qed.

Lemma closes_log (a : Action ReadableMessage) (w : World ReadableMessage) :
  closes (log a w).(trace) = (closes w.(trace) + closes [a])%nat.
Proof. cbn [log trace]. apply closes_app. Qed.

(** The [catch] clause counts one error and prints one of its two lines. *)
Lemma caught_counts (e : JsError) (s : Driver) (w : World ReadableMessage) :
  (fst (caught e (s, w))).(errorCount) = s.(errorCount) + 1
  /\ catches (snd (caught e (s, w))).(trace) = S (catches w.(trace))
  /\ closes (snd (caught e (s, w))).(trace) = closes w.(trace).
Proof.
  cbn [caught fst snd errorCount set_errorCount].
  rewrite catches_log, closes_log.
  split; [reflexivity|]. split; [destruct e; cbn; lia | cbn; lia].
Qed.

(** What a turn of the loop does to the counter: it rises by one for each
    error caught and is otherwise left alone; a turn at the ceiling calls
    [close()] and catches nothing. *)
Lemma iteration_accounting (script : list InResult) (st : St) :
  let '(step, _, st') := iteration_ script st in
  (fst st').(errorCount) - Z.of_nat (catches (snd st').(trace))
  = (fst st).(errorCount) - Z.of_nat (catches (snd st).(trace))
  /\ (fst st).(errorCount) <= (fst st').(errorCount)
  /\ (fst st').(errorCount) <= Z.max (fst st).(errorCount) MAX_ERROR_COUNT
  /\ closes (snd st').(trace)
     = (closes (snd st).(trace)
        + match step with Exit CircuitBroken => 1 | _ => 0 end)%nat
  /\ (step = Exit CircuitBroken -> MAX_ERROR_COUNT <= (fst st).(errorCount)).
Proof.
  destruct st as [s w]. unfold iteration. cbn [fst snd].
  assert (Hsame : forall (w0 : World ReadableMessage) (l : list (Action ReadableMessage)),
            catches l = 0%nat -> closes l = 0%nat ->
            w0.(trace) = w.(trace) ++ l ->
            errorCount s - Z.of_nat (catches w0.(trace))
            = errorCount s - Z.of_nat (catches w.(trace))
            /\ errorCount s <= errorCount s
            /\ errorCount s <= Z.max (errorCount s) MAX_ERROR_COUNT
            /\ closes w0.(trace) = (closes w.(trace) + 0)%nat).
  { intros w0 l Hc Hk ->. rewrite catches_app, closes_app, Hc, Hk.
    repeat split; lia. }
  destruct (_device s) as [h|] eqn:Hdev.
  2: { destruct (Hsame w [] eq_refl eq_refl (eq_sym (app_nil_r _))) as (A & B & C & D).
       cbn [fst snd]. repeat split; try assumption. discriminate. }
  destruct (negb (opened_at w h)).
  { destruct (Hsame w [] eq_refl eq_refl (eq_sym (app_nil_r _))) as (A & B & C & D).
    cbn [fst snd]. repeat split; try assumption. discriminate. }
  destruct (Z.leb_spec MAX_ERROR_COUNT (errorCount s)) as [Hge|Hlt].
  { unfold close_detached, close_enter. rewrite Hdev.
    destruct (_heartbeatInterval s); cbn [fst snd errorCount set_heartbeat];
      rewrite catches_log, closes_log; cbn [set_pending trace];
      rewrite catches_log, closes_log; cbn [clearInterval set_timers trace];
      cbn [catches closes List.filter length]; repeat split; try lia. }
  assert (Hcaught : forall e (w0 : World ReadableMessage) (l : list (Action ReadableMessage)),
            catches l = 0%nat -> closes l = 0%nat ->
            w0.(trace) = w.(trace) ++ l ->
            errorCount (fst (caught e (s, w0)))
            - Z.of_nat (catches (trace (snd (caught e (s, w0)))))
            = errorCount s - Z.of_nat (catches w.(trace))
            /\ errorCount s <= errorCount (fst (caught e (s, w0)))
            /\ errorCount (fst (caught e (s, w0))) <= Z.max (errorCount s) MAX_ERROR_COUNT
            /\ closes (trace (snd (caught e (s, w0)))) = (closes w.(trace) + 0)%nat).
  { intros e w0 l Hc Hk Hw0.
    destruct (caught_counts e s w0) as (E1 & E2 & E3).
    rewrite E1, E2, E3, Hw0, catches_app, closes_app, Hc, Hk.
    repeat split; lia. }
  assert (Hdeliver : forall hd x (w0 : World ReadableMessage) (l : list (Action ReadableMessage)),
            catches l = 0%nat -> closes l = 0%nat ->
            w0.(trace) = w.(trace) ++ l ->
            errorCount (fst (deliver toMessage hd x (s, w0)))
            - Z.of_nat (catches (trace (snd (deliver toMessage hd x (s, w0)))))
            = errorCount s - Z.of_nat (catches w.(trace))
            /\ errorCount s <= errorCount (fst (deliver toMessage hd x (s, w0)))
            /\ errorCount (fst (deliver toMessage hd x (s, w0)))
               <= Z.max (errorCount s) MAX_ERROR_COUNT
            /\ closes (trace (snd (deliver toMessage hd x (s, w0))))
               = (closes w.(trace) + 0)%nat).
  { intros hd x w0 l Hc Hk Hw0. unfold deliver.
    destruct (toMessage hd x) as [[m|]|e].
    - cbn [fst snd]. apply (Hsame _ (l ++ [Emit (message m)])).
      + rewrite catches_app, Hc. reflexivity.
      + rewrite closes_app, Hk. reflexivity.
      + cbn [log trace]. rewrite Hw0. now rewrite app_assoc.
    - now apply (Hsame w0 l).
    - now apply (Hcaught e w0 l). }
  assert (Hfin : forall (P Q R T : Prop) (x : Step),
            P /\ Q /\ R /\ T -> x <> Exit CircuitBroken ->
            P /\ Q /\ R /\ T /\ (x = Exit CircuitBroken -> MAX_ERROR_COUNT <= errorCount s)).
  { intros P Q R T x (A & B & C & D) Hx. repeat split; try assumption.
    intros E. contradiction. }
  destruct (endpointNumber_of (_inEP s)) as [ep|e].
  2: { apply Hfin; [|discriminate].
       apply (Hcaught e w []); [reflexivity | reflexivity | now rewrite app_nil_r]. }
  cbn zeta.
  destruct script as [|r1 script1].
  { cbn [fst snd]. apply Hfin; [|discriminate].
    now apply (Hsame _ [CallTransferIn h ep dataLength]). }
  destruct r1 as [e| |data].
  - apply Hfin; [|discriminate]. now apply (Hcaught e _ [CallTransferIn h ep dataLength]).
  - apply Hfin; [|discriminate]. now apply (Hcaught _ _ [CallTransferIn h ep dataLength]).
  - destruct (fromBuffer data) as [header|e].
    2: { apply Hfin; [|discriminate].
         now apply (Hcaught e _ [CallTransferIn h ep dataLength]). }
    destruct (header_length header =? 0).
    { apply Hfin; [|discriminate].
      now apply (Hdeliver _ _ _ [CallTransferIn h ep dataLength]). }
    destruct script1 as [|r2 script2].
    { cbn [fst snd]. apply Hfin; [|discriminate].
      apply (Hsame _ [CallTransferIn h ep dataLength;
                      CallTransferIn h ep (header_length header)]);
        [reflexivity | reflexivity |].
      cbn [log trace]. now rewrite <- app_assoc. }
    destruct r2 as [e| |b].
    + apply Hfin; [|discriminate].
      apply (Hcaught e _ [CallTransferIn h ep dataLength;
                          CallTransferIn h ep (header_length header)]);
        [reflexivity | reflexivity |].
      cbn [log trace]. now rewrite <- app_assoc.
    + cbn [fst snd]. apply Hfin; [|discriminate].
      apply (Hsame _ [CallTransferIn h ep dataLength;
                      CallTransferIn h ep (header_length header);
                      ConsoleError "Failed to read extra data"]);
        [reflexivity | reflexivity |].
      cbn [log trace]. now rewrite <- !app_assoc.
    + apply Hfin; [|discriminate].
      apply (Hdeliver _ _ _ [CallTransferIn h ep dataLength;
                             CallTransferIn h ep (header_length header)]);
        [reflexivity | reflexivity |].
      cbn [log trace]. now rewrite <- app_assoc.
Qed.

Lemma readLoop_turns_accounting (fuel : nat) :
  forall (script : list InResult) (st : St),
    let res := readLoop_turns_ fuel script st in
    (fst (snd res)).(errorCount) - Z.of_nat (catches (snd (snd res)).(trace))
    = (fst st).(errorCount) - Z.of_nat (catches (snd st).(trace))
    /\ (fst st).(errorCount) <= (fst (snd res)).(errorCount)
    /\ (fst (snd res)).(errorCount) <= Z.max (fst st).(errorCount) MAX_ERROR_COUNT
    /\ closes (snd (snd res)).(trace)
       = (closes (snd st).(trace)
          + match fst res with Some CircuitBroken => 1 | _ => 0 end)%nat
    /\ (fst res = Some CircuitBroken -> MAX_ERROR_COUNT <= (fst (snd res)).(errorCount)).
Proof.
  induction fuel as [|fuel IH]; intros script st.
  { cbn. repeat split; try lia. discriminate. }
  cbn zeta. rewrite DriverSpec.readLoop_turns_S.
  pose proof (iteration_accounting script st) as Hit.
  destruct (iteration_ script st) as [[step script1] st1].
  destruct Hit as (A & B & C & D & E).
  destruct step as [|e]; cbn [fst snd].
  - specialize (IH script1 st1). cbn zeta in IH.
    destruct IH as (A' & B' & C' & D' & E').
    split; [lia|]. split; [lia|]. split; [lia|]. split; [lia|]. exact E'.
  - split; [lia|]. split; [lia|]. split; [lia|].
    split; [destruct e; cbn in *; lia|].
    intros [= ->]. specialize (E eq_refl). lia.
Qed.

Lemma transfers_in_app (l1 l2 : list (Action ReadableMessage)) :
  transfers_in (l1 ++ l2) = transfers_in l1 ++ transfers_in l2.
Proof. unfold transfers_in. apply flat_map_app. Qed.

(** The [transferIn] calls in a trace. *)
Local Abbreviation calls l := (length (transfers_in l)).

Lemma calls_log (a : Action ReadableMessage) (w : World ReadableMessage) :
  calls (log a w).(trace) = (calls w.(trace) + calls [a])%nat.
Proof. cbn [log trace]. now rewrite transfers_in_app, length_app. Qed.

Lemma caught_calls (e : JsError) (st : St) :
  calls (snd (caught e st)).(trace) = calls (snd st).(trace).
Proof.
  destruct st as [s w]. cbn [caught snd]. rewrite calls_log.
  destruct e; cbn; lia.
Qed.

Lemma deliver_calls (hd : MessageHeader) (x : option bytes) (st : St) :
  calls (snd (deliver toMessage hd x st)).(trace) = calls (snd st).(trace).
Proof.
  unfold deliver. destruct (toMessage hd x) as [[m|]|e].
  - cbn [snd]. rewrite calls_log. cbn. lia.
  - reflexivity.
  - apply caught_calls.
Qed.

(** Every [transferIn] of a turn takes its answer from the script, but the
    one the script has no answer to: the turn then ends waiting in it, the
    script exhausted. *)
Lemma iteration_calls (script : list InResult) (st : St) :
  let '(step, script1, st') := iteration_ script st in
  (calls (snd st').(trace) + length script1
   = calls (snd st).(trace) + length script
     + match step with Exit AwaitingTransfer => 1 | _ => 0 end)%nat
  /\ (step = Exit AwaitingTransfer ->
      script1 = []
      /\ exists l h ep len, (snd st').(trace) = l ++ [CallTransferIn h ep len]).
Proof.
  destruct st as [s w]. unfold iteration. cbn [fst snd].
  destruct (_device s) as [h|] eqn:Hdev; [|cbn [snd]; split; [lia | discriminate]].
  destruct (negb (opened_at w h)); [cbn [snd]; split; [lia | discriminate]|].
  destruct (MAX_ERROR_COUNT <=? errorCount s).
  { unfold close_detached, close_enter. rewrite Hdev.
    destruct (_heartbeatInterval s); cbn [fst snd];
      rewrite calls_log; cbn [set_pending trace]; rewrite calls_log;
      cbn [clearInterval set_timers trace]; (split; [cbn; lia | discriminate]). }
  destruct (endpointNumber_of (_inEP s)) as [ep|e].
  2: { rewrite caught_calls. cbn [snd]. split; [lia | discriminate]. }
  cbn zeta.
  destruct script as [|r1 script1].
  { cbn [snd]. rewrite calls_log. split; [cbn; lia|]. intros _.
    split; [reflexivity|]. now exists w.(trace), h, ep, dataLength. }
  destruct r1 as [e| |data].
  - rewrite caught_calls. cbn [snd]. rewrite calls_log. split; [cbn; lia | discriminate].
  - rewrite caught_calls. cbn [snd]. rewrite calls_log. split; [cbn; lia | discriminate].
  - destruct (fromBuffer data) as [header|e].
    2: { rewrite caught_calls. cbn [snd]. rewrite calls_log.
         split; [cbn; lia | discriminate]. }
    destruct (header_length header =? 0).
    { rewrite deliver_calls. cbn [snd]. rewrite calls_log.
      split; [cbn; lia | discriminate]. }
    destruct script1 as [|r2 script2].
    { cbn [snd]. rewrite !calls_log. split; [cbn; lia|]. intros _.
      split; [reflexivity|].
      now exists (log (CallTransferIn h ep dataLength) w).(trace), h, ep,
                 (header_length header). }
    destruct r2 as [e| |b].
    + rewrite caught_calls. cbn [snd]. rewrite !calls_log.
      split; [cbn; lia | discriminate].
    + cbn [snd]. rewrite !calls_log. split; [cbn; lia | discriminate].
    + rewrite deliver_calls. cbn [snd]. rewrite !calls_log.
      split; [cbn; lia | discriminate].
Qed.

Lemma readLoop_turns_calls (fuel : nat) :
  forall (script : list InResult) (st : St) (e : LoopExit),
    fst (readLoop_turns_ fuel script st) = Some e ->
    let trace' := (snd (snd (readLoop_turns_ fuel script st))).(trace) in
    (e = AwaitingTransfer ->
       calls trace' = S (calls (snd st).(trace) + length script)
       /\ exists l h ep len, trace' = l ++ [CallTransferIn h ep len])
    /\ (e <> AwaitingTransfer ->
       (calls trace' <= calls (snd st).(trace) + length script)%nat).
Proof.
  induction fuel as [|fuel IH]; intros script st e He; [discriminate He|].
  revert He. cbn zeta. rewrite DriverSpec.readLoop_turns_S.
  pose proof (iteration_calls script st) as Hit.
  destruct (iteration_ script st) as [[step script1] st1].
  destruct Hit as (A & B).
  destruct step as [|x]; cbn [fst snd].
  - intros He. specialize (IH script1 st1 e He). cbn zeta in IH.
    destruct IH as (I1 & I2). split.
    + intros Hw. destruct (I1 Hw) as (C & L). split; [lia | exact L].
    + intros Hw. specialize (I2 Hw). lia.
  - intros [= ->]. split.
    + intros ->. destruct (B eq_refl) as (-> & L). cbn [length] in A.
      split; [lia | exact L].
    + intros Hw. destruct e; try lia. contradiction.
Qed.

(** X11: on every finite sequence of answers of the device the run of the
    read loop ends after finitely many turns, in one of two ways.  Either it
    returns (the device is not open, the error counter is at the ceiling, or
    a body is missing), and then every [transferIn] it made was answered; or
    it is left waiting in a [transferIn] that the sequence has no answer to,
    having made one call more than there are answers, that call the last
    thing it did.  It calls [close()] and emits 'failure' only when it
    returns at the error ceiling: once each then, and never otherwise. *)
Theorem readLoop_stops (script : list InResult) (st : St) :
  exists e,
    let trace' := (snd (snd (readLoop_ script st))).(trace) in
    fst (readLoop_ script st) = Some e
    /\ failures trace'
       = (failures (snd st).(trace)
          + match e with CircuitBroken => 1 | _ => 0 end)%nat
    /\ closes trace'
       = (closes (snd st).(trace)
          + match e with CircuitBroken => 1 | _ => 0 end)%nat
    /\ (e = AwaitingTransfer ->
          length (transfers_in trace')
          = S (length (transfers_in (snd st).(trace)) + length script)
          /\ exists l h ep len, trace' = l ++ [CallTransferIn h ep len])
    /\ (e <> AwaitingTransfer ->
          (length (transfers_in trace')
           <= length (transfers_in (snd st).(trace)) + length script)%nat).
Proof.
  destruct (DriverSpec.readLoop_returns dataLength fromBuffer header_length toMessage
              script st) as [e He].
  exists e. cbn zeta. split; [exact He|].
  unfold readLoop in *.
  set (st0 := (fst st, log (ConsoleLog "ReadLoop started") (snd st))) in *.
  pose proof (DriverSpec.readLoop_turns_failures dataLength fromBuffer header_length
                toMessage (turns_needed script st0) script st0) as F.
  destruct (readLoop_turns_accounting (turns_needed script st0) script st0)
    as (_ & _ & _ & K & _).
  pose proof (readLoop_turns_calls (turns_needed script st0) script st0 e He) as T.
  cbn zeta in T.
  assert (H0 : calls (snd st0).(trace) = calls (snd st).(trace)).
  { unfold st0. cbn [snd]. rewrite calls_log. cbn. lia. }
  rewrite H0 in T.
  rewrite He in F, K. split.
  - rewrite F. unfold st0. cbn [snd]. rewrite DriverSpec.failures_log. lia.
  - split.
    + rewrite K. unfold st0. cbn [snd]. rewrite closes_log. cbn. lia.
    + exact T.
Qed.

(** X12: over a run of the read loop the error counter rises by one for
    each error the loop catches, and by nothing else: it is never lowered, a
    frame that is delivered does not reset it, so that the errors that stop
    the loop need not follow one another.  A counter that starts at or below
    the ceiling never passes it, and the loop stops at the ceiling only with
    the counter there. *)
Theorem errorCount_accounting (script : list InResult) (st : St) :
  let res := readLoop_ script st in
  let st' := snd res in
  (fst st').(errorCount)
  = (fst st).(errorCount)
    + (Z.of_nat (catches (snd st').(trace)) - Z.of_nat (catches (snd st).(trace)))
  /\ (catches (snd st).(trace) <= catches (snd st').(trace))%nat
  /\ (fst st).(errorCount) <= (fst st').(errorCount)
  /\ (fst st').(errorCount) <= Z.max (fst st).(errorCount) MAX_ERROR_COUNT
  /\ (fst res = Some CircuitBroken -> MAX_ERROR_COUNT <= (fst st').(errorCount)).
Proof.
  cbn zeta. unfold readLoop.
  set (st0 := (fst st, log (ConsoleLog "ReadLoop started") (snd st))).
  destruct (readLoop_turns_accounting (turns_needed script st0) script st0)
    as (A & B & C & _ & E).
  assert (H0 : catches (snd st0).(trace) = catches (snd st).(trace)).
  { unfold st0. cbn [snd]. rewrite catches_log. cbn. lia. }
  rewrite H0 in A. change (fst st0) with (fst st) in *.
  split; [lia|]. split; [lia|]. split; [exact B|]. split; [exact C | exact E].
Qed.

(** *** Frames that arrive whole *)

Local Abbreviation parsed_ := (parsed fromBuffer header_length toMessage).
Local Abbreviation lengths_ := (lengths fromBuffer header_length toMessage dataLength).
Local Abbreviation emitted_ := (emitted fromBuffer header_length toMessage).

Lemma messages_app (l1 l2 : list (Action ReadableMessage)) :
  messages (l1 ++ l2) = messages l1 ++ messages l2.
Proof. unfold messages. apply flat_map_app. Qed.

(** One turn of the loop on a frame that is read without error. *)
Lemma iteration_frame (f : Frame) (rest : list InResult) (s : Driver)
    (w : World ReadableMessage) (h : nat) (d : USBDevice) (ep : USBEndpoint) :
  s.(_device) = Some h -> w.(devices) !! h = Some d -> d.(opened) = true ->
  s.(_inEP) = Some ep -> s.(errorCount) < MAX_ERROR_COUNT ->
  is_Some (parsed_ f) ->
  exists l w',
    iteration_ (answers f ++ rest) (s, w) = (Continue, rest, (s, w'))
    /\ only_logged l w w'
    /\ messages l = emitted_ f
    /\ transfers_in l = map (fun len => (h, ep.(endpointNumber), len)) (lengths_ f)
    /\ transfers_out l = [] /\ failures l = 0%nat /\ catches l = 0%nat.
Proof.
  intros Hdev Hd Hop Hin Hlt [[header om] Hp].
  destruct f as [hd body]. unfold lengths, emitted. rewrite Hp.
  unfold parsed in Hp. cbn [fst snd] in Hp.
  unfold iteration, opened_at. rewrite Hdev, Hd, Hop, Hin. cbn [negb endpointNumber_of].
  destruct (Z.leb_spec MAX_ERROR_COUNT (errorCount s)); [lia|].
  cbn [answers fst snd app].
  destruct (fromBuffer hd) as [header'|e]; [|discriminate].
  destruct (header_length header' =? 0) eqn:Hz, body as [b|]; try discriminate.
  - destruct (toMessage header' None) as [om'|e] eqn:Ht; [|discriminate].
    injection Hp as <- <-. rewrite Hz. cbn [app].
    unfold deliver. rewrite Ht.
    destruct om' as [m|].
    + exists [CallTransferIn h (endpointNumber ep) dataLength; Emit (message m)].
      eexists. split; [reflexivity|].
      split; [|repeat split].
      unfold only_logged. cbn [log devices clock timers next_timer pending trace fst snd].
      repeat split. now rewrite <- !app_assoc.
    + exists [CallTransferIn h (endpointNumber ep) dataLength].
      eexists. split; [reflexivity|].
      split; [|repeat split].
      unfold only_logged. cbn [log devices clock timers next_timer pending trace fst snd].
      repeat split.
  - destruct (toMessage header' (Some b)) as [om'|e] eqn:Ht; [|discriminate].
    injection Hp as <- <-. rewrite Hz. cbn [app].
    unfold deliver. rewrite Ht.
    destruct om' as [m|].
    + exists [CallTransferIn h (endpointNumber ep) dataLength;
              CallTransferIn h (endpointNumber ep) (header_length header');
              Emit (message m)].
      eexists. split; [reflexivity|].
      split; [|repeat split].
      unfold only_logged. cbn [log devices clock timers next_timer pending trace fst snd].
      repeat split. now rewrite <- !app_assoc.
    + exists [CallTransferIn h (endpointNumber ep) dataLength;
              CallTransferIn h (endpointNumber ep) (header_length header')].
      eexists. split; [reflexivity|].
      split; [|repeat split].
      unfold only_logged. cbn [log devices clock timers next_timer pending trace fst snd].
      repeat split. now rewrite <- !app_assoc.
Qed.

Lemma answers_length (frames : list Frame) :
  (length frames <= length (flat_map answers frames))%nat.
Proof.
  induction frames as [|[hd body] frames IH]; [reflexivity|].
  cbn [flat_map]. rewrite length_app.
  destruct body; cbn [answers fst snd length]; lia.
Qed.

Lemma frames_run (frames : list Frame) :
  forall (k : nat) (s : Driver) (w : World ReadableMessage) (h : nat)
         (d : USBDevice) (ep : USBEndpoint),
    s.(_device) = Some h -> w.(devices) !! h = Some d -> d.(opened) = true ->
    s.(_inEP) = Some ep -> s.(errorCount) < MAX_ERROR_COUNT ->
    Forall (fun f => is_Some (parsed_ f)) frames ->
    exists l w',
      readLoop_turns_ (S (length frames + k)) (flat_map answers frames) (s, w)
      = (Some AwaitingTransfer, (s, w'))
      /\ only_logged (l ++ [CallTransferIn h ep.(endpointNumber) dataLength]) w w'
      /\ messages l = flat_map emitted_ frames
      /\ transfers_in l
         = map (fun len => (h, ep.(endpointNumber), len)) (flat_map lengths_ frames)
      /\ transfers_out l = [] /\ failures l = 0%nat /\ catches l = 0%nat.
Proof.
  induction frames as [|f frames IH]; intros k s w h d ep Hdev Hd Hop Hin Hlt Hall.
  - exists [], (log (CallTransferIn h ep.(endpointNumber) dataLength) w). split.
    { rewrite DriverSpec.readLoop_turns_S. cbn [flat_map].
      unfold iteration, opened_at. rewrite Hdev, Hd, Hop, Hin.
      cbn [negb endpointNumber_of].
      destruct (Z.leb_spec MAX_ERROR_COUNT (errorCount s)); [lia | reflexivity]. }
    split; [unfold only_logged; repeat split|]. repeat split.
  - inversion Hall as [|? ? Hf Hrest]; subst.
    destruct (iteration_frame f (flat_map answers frames) s w h d ep
                Hdev Hd Hop Hin Hlt Hf)
      as (l1 & w1 & E1 & L1 & M1 & T1 & O1 & F1 & C1).
    assert (Hd1 : w1.(devices) !! h = Some d)
      by (destruct L1 as (D & _); now rewrite D).
    destruct (IH k s w1 h d ep Hdev Hd1 Hop Hin Hlt Hrest)
      as (l2 & w2 & E2 & L2 & M2 & T2 & O2 & F2 & C2).
    exists (l1 ++ l2), w2.
    split.
    { cbn [length Nat.add flat_map]. rewrite DriverSpec.readLoop_turns_S, E1. exact E2. }
    split; [rewrite <- app_assoc; eapply DriverSpec.only_logged_trans; eassumption|].
    cbn [flat_map].
    rewrite messages_app, transfers_in_app, DriverSpec.transfers_out_app,
      DriverSpec.failures_app, catches_app, M1, M2, T1, T2, O1, O2, F1, F2, C1, C2,
      map_app.
    repeat split.
Qed.

(** X13: frames that arrive whole are emitted one by one, in the order of
    their arrival: the loop reads each header with a transfer of the header
    length and each body with a transfer of the length its header gives (none
    for a length of zero), emits the message [toMessage] makes of it, or
    nothing when it makes none, and then asks for the next header.  After the
    last frame it has asked for one header more and waits in that transfer.
    The driver is left as it was, its error counter too, and nothing is sent,
    closed or reported as a failure. *)
Theorem frames_are_delivered_in_order (frames : list Frame) (s : Driver)
    (w : World ReadableMessage) (h : nat) (d : USBDevice) (ep : USBEndpoint) :
  s.(_device) = Some h -> w.(devices) !! h = Some d -> d.(opened) = true ->
  s.(_inEP) = Some ep -> s.(errorCount) < MAX_ERROR_COUNT ->
  Forall (fun f => is_Some (parsed_ f)) frames ->
  let on_bus := map (fun len => (h, ep.(endpointNumber), len)) in
  let waiting := CallTransferIn h ep.(endpointNumber) dataLength in
  exists l w',
    readLoop_ (flat_map answers frames) (s, w) = (Some AwaitingTransfer, (s, w'))
    /\ only_logged (ConsoleLog "ReadLoop started" :: l ++ [waiting]) w w'
    /\ messages l = flat_map emitted_ frames
    /\ transfers_in l = on_bus (flat_map lengths_ frames)
    /\ transfers_in w'.(trace)
       = transfers_in w.(trace) ++ on_bus (flat_map lengths_ frames ++ [dataLength])
    /\ transfers_out l = [] /\ failures l = 0%nat /\ catches l = 0%nat
    /\ closes l = 0%nat.
Proof.
  intros Hdev Hd Hop Hin Hlt Hall on_bus waiting.
  unfold readLoop, turns_needed. cbn [fst snd].
  set (w0 := log (ConsoleLog "ReadLoop started") w).
  pose proof (answers_length frames) as Hlen.
  set (n := (length (flat_map answers frames)
             + Z.to_nat (MAX_ERROR_COUNT - errorCount s))%nat).
  replace n with (length frames + (n - length frames))%nat by lia.
  destruct (frames_run frames (n - length frames) s w0 h d ep Hdev Hd Hop Hin Hlt Hall)
    as (l & w' & E & (L1 & L2 & L3 & L4 & L5 & L6) & M & T & O & F & C).
  exists l, w'. split; [exact E|].
  split.
  { unfold only_logged. rewrite L1, L2, L3, L4, L5, L6. unfold w0.
    cbn [log devices clock timers next_timer pending trace].
    repeat split. now rewrite <- app_assoc. }
  split; [exact M|]. split; [exact T|].
  split.
  { rewrite L6. unfold w0. cbn [log trace].
    rewrite !transfers_in_app, T. unfold on_bus. rewrite map_app.
    rewrite <- app_assoc. reflexivity. }
  split; [exact O|]. split; [exact F|].
  split; [exact C|].
  pose proof (readLoop_turns_accounting
                (S (length frames + (n - length frames)))
                (flat_map answers frames) (s, w0)) as K.
  cbn zeta in K. rewrite E in K. cbn [fst snd] in K.
  destruct K as (_ & _ & _ & K & _).
  rewrite L6, !closes_app in K. cbn in K. lia.
Qed.

(** *** start *)

(** [start] on an open device with a configuration that can be sent. *)
Lemma start_runs (config : Config) (s : Driver) (w : World ReadableMessage)
    (h : nat) (d : USBDevice) (ei eo : USBEndpoint) :
  s.(_device) = Some h -> w.(devices) !! h = Some d -> d.(opened) = true ->
  s.(_inEP) = Some ei -> s.(_outEP) = Some eo ->
  0 <= config.(dpi) <= 4294967295 -> 0 <= config.(hand) <= 4294967295 ->
  let id := w.(next_timer) in
  let connect := MkSendCommand (CommandMapping (js "wifiConnect")) in
  exists (l : list (Action ReadableMessage)) (w' : World ReadableMessage),
    start_ config (s, w)
    = (Ok tt, (mkDriver (Some (S id)) (Some h) (Some ei) (Some eo) 0, w'))
    /\ w'.(devices) = w.(devices) /\ w'.(clock) = w.(clock)
    /\ w'.(pending) = w.(pending)
    /\ w'.(next_timer) = S (S id)
    /\ w'.(timers)
       = w.(timers) ++ [mkTimer id (w.(clock) + 1000) None connect;
                        mkTimer (S id) (w.(clock) + 2000) (Some 2000) MkHeartBeat]
    /\ w'.(trace) = w.(trace) ++ l
    /\ failures l = 0%nat.
Proof.
  intros Hdev Hd Hop Hin Hout Hdpi Hhand id connect.
  unfold start, opened_at. rewrite Hdev, Hd, Hop. cbn [negb].
  rewrite (DriverSpec.initMessages_burst CommandMapping config Hdpi Hhand).
  set (printed := fst (new_SendString (boxName config) FileAddress.BOX_NAME)).
  set (s1 := set_errorCount 0 s).
  set (w1 := logs (map ConsoleError printed) w).
  assert (Hd1 : w1.(devices) !! h = Some d) by exact Hd.
  match goal with
  | |- context [send_all _ _ _ _ _ _ ?ms (s1, w1)] =>
      destruct (DriverSpec.send_all_open asBuffer MessageType stringify_settings
                  getCurrentTimeInMs fl writeFloatLE ms s1 w1 h d eo Hdev Hd1 Hop Hout)
        as (l & w2 & E & (L1 & L2 & L3 & L4 & L5 & L6) & T & F);
      destruct (send_all asBuffer MessageType stringify_settings getCurrentTimeInMs fl writeFloatLE
                  ms (s1, w1)) as [rs st2]
  end.
  cbn [snd] in E. subst st2. cbn [fst snd].
  unfold setTimeout, setInterval, arm. cbn [fst snd].
  rewrite DriverSpec.readLoop_waits with (h := h) (d := d) (ei := ei);
    [| exact Hdev | cbn [devices log]; now rewrite L1 | exact Hop | exact Hin
     | reflexivity ].
  cbn [fst snd next_timer log]. rewrite L4.
  exists (map ConsoleError printed ++ l
          ++ [ConsoleLog "Starting readLoop..."; ConsoleLog "ReadLoop started";
              CallTransferIn h ei.(endpointNumber) dataLength]).
  eexists. split.
  { unfold s1. destruct s as [hb dev i o ec]. cbn in Hdev, Hin, Hout.
    subst dev i o. reflexivity. }
  cbn [devices clock pending timers trace log next_timer].
  rewrite L1, L2, L3, L5, L6. cbn [devices clock pending timers trace logs next_timer w1].
  split; [reflexivity|]. split; [reflexivity|]. split; [reflexivity|].
  split; [reflexivity|]. split; [now rewrite <- app_assoc|].
  split; [now rewrite <- !app_assoc|].
  assert (Hp : forall p : list string,
             failures (map (ConsoleError (ReadableMessage := ReadableMessage)) p) = 0%nat).
  { induction p as [|x p IH]; [reflexivity | assumption]. }
  rewrite !DriverSpec.failures_app, Hp, F. reflexivity.
Qed.

(** X14: [start] builds its messages before it sends any: with a [dpi] or
    a [hand] that does not fit 32 bits it throws a RangeError after it has
    reset the error counter, and nothing else has happened: nothing was sent,
    no timer armed, the read loop not begun. *)
Theorem start_rejects_bad_numbers (config : Config) (s : Driver)
    (w : World ReadableMessage) (h : nat) (d : USBDevice) :
  s.(_device) = Some h -> w.(devices) !! h = Some d -> d.(opened) = true ->
  ~ uint32 config.(dpi) \/ ~ uint32 config.(hand) ->
  exists e,
    start_ config (s, w) = (Throw e, (set_errorCount 0 s, w))
    /\ is_RangeError e = true.
Proof.
  intros Hdev Hd Hop Hbad.
  assert (Hinit : exists e, initMessages CommandMapping config = Throw e
                            /\ is_RangeError e = true).
  { unfold initMessages, new_SendBoolean, new_SendNumber.
    destruct (writeUInt32LE (inject_Z (dpi config))) as [b1|e1] eqn:E1.
    2: { exists e1. split; [reflexivity|].
         unfold writeUInt32LE in E1.
         destruct (_ && _) in E1; [discriminate|]. now injection E1 as <-. }
    destruct Hbad as [Hbad|Hbad].
    { destruct (CodecMore.writeUInt32LE_refuses _ Hbad) as (e & He & _). congruence. }
    destruct (CodecMore.writeUInt32LE_refuses _ Hbad) as (e & He & Hr).
    exists e. cbn [obind]. rewrite He.
    destruct (nightMode config); cbn; split; [reflexivity | exact Hr | reflexivity | exact Hr]. }
  destruct Hinit as (e & He & Hr).
  exists e. unfold start, opened_at. rewrite Hdev, Hd, Hop. cbn [negb].
  rewrite He. split; [reflexivity | exact Hr].
Qed.

(** *** close *)

(** X15: after a [close()] that returned, the driver holds no device and
    is inert: [send] gives null and transfers nothing, [start] throws "No
    device set", the read loop returns at once, and another [close()] does
    nothing. *)
Theorem inert_after_close (st : St) (config : Config) (m : Message)
    (script : list InResult) :
  fst (close st) = Ok tt ->
  let st' := snd (close st) in
  (fst st').(_device) = None
  /\ send_ m st' = (None, st')
  /\ start_ config st'
     = (Throw (DriverStateError "No device set - call initialise first"), st')
  /\ readLoop_ script st'
     = (Some DeviceNotOpen, (fst st', log (ConsoleLog "ReadLoop started") (snd st')))
  /\ close st' = (Ok tt, st').
Proof.
  intros Hok st'.
  assert (Hnone : (fst st').(_device) = None).
  { subst st'. revert Hok. destruct st as [s w]. unfold close, close_enter.
    destruct (_device s) as [h|] eqn:Hdev; [|intros _; exact Hdev].
    unfold close_resume.
    destruct (_heartbeatInterval s); cbn [fst snd];
      (destruct (_ !! h) as [d|]; [|discriminate]);
      (destruct (on_close d); [|discriminate]); reflexivity. }
  destruct st' as [s' w']. cbn [fst snd] in *.
  split; [exact Hnone|].
  split; [unfold send; now rewrite Hnone|].
  split; [unfold start; now rewrite Hnone|].
  split.
  { unfold readLoop, turns_needed. cbn [readLoop_turns fst snd].
    unfold iteration. cbn [fst snd]. now rewrite Hnone. }
  apply DriverSpec.close_without_device. exact Hnone.
Qed.

(** X16: [close()] cancels the heartbeat, not the connect command that
    [start] has put off by a second.  Closed right after [start], the driver
    still has that timer armed; it fires one second after the start, its
    [send] finds no device, and nothing is transferred. *)
Theorem close_leaves_connect_timer (config : Config) (s : Driver)
    (w : World ReadableMessage) (h : nat) (d : USBDevice) (ei eo : USBEndpoint) :
  s.(_device) = Some h -> w.(devices) !! h = Some d -> d.(opened) = true ->
  s.(_inEP) = Some ei -> s.(_outEP) = Some eo ->
  0 <= config.(dpi) <= 4294967295 -> 0 <= config.(hand) <= 4294967295 ->
  w.(timers) = [] -> d.(on_close) = Ok tt ->
  let st1 := snd (start_ config (s, w)) in
  let st2 := snd (close st1) in
  let st3 := tick_ st2 in
  fst (close st1) = Ok tt
  /\ fst st2 = mkDriver None None None None 0
  /\ (snd st2).(timers)
     = [mkTimer w.(next_timer) (w.(clock) + 1000) None
          (MkSendCommand (CommandMapping (js "wifiConnect")))]
  /\ fst st3 = fst st2
  /\ (snd st3).(timers) = []
  /\ (snd st3).(clock) = w.(clock) + 1000
  /\ (snd st3).(trace) = (snd st2).(trace).
Proof.
  intros Hdev Hd Hop Hin Hout Hdpi Hhand Hnone Hclose.
  destruct (start_runs config s w h d ei eo Hdev Hd Hop Hin Hout Hdpi Hhand)
    as (l & w' & E & D & C & P & N & Ti & Tr & F).
  cbn zeta. rewrite E. cbn [snd].
  rewrite Hnone in Ti. cbn [app] in Ti.
  set (w2 := set_devices (<[h := set_opened false d]> w'.(devices))
               (log (CallClose h) (clearInterval (S (next_timer w)) w'))).
  assert (Hc : close (mkDriver (Some (S (next_timer w))) (Some h) (Some ei) (Some eo) 0, w')
               = (Ok tt, (mkDriver None None None None 0, w2))).
  { unfold close, close_enter. cbn [_device _heartbeatInterval fst snd].
    unfold close_resume. cbn [clearInterval set_timers log devices].
    rewrite D, Hd, Hclose. unfold w2. rewrite D. reflexivity. }
  rewrite Hc. cbn [fst snd].
  assert (HT : timers w2
               = [mkTimer (next_timer w) (clock w + 1000) None
                    (MkSendCommand (CommandMapping (js "wifiConnect")))]).
  { unfold w2. cbn [set_devices log clearInterval set_timers timers]. rewrite Ti.
    cbn [List.filter timer_id]. rewrite Nat.eqb_refl.
    replace (next_timer w =? S (next_timer w))%nat with false
      by (symmetry; apply Nat.eqb_neq; lia).
    reflexivity. }
  split; [reflexivity|]. split; [reflexivity|]. split; [exact HT|].
  unfold tick. cbn [snd]. rewrite HT. cbn [next_due fold_left].
  unfold fire. rewrite HT. cbn [timer_id period due job List.filter].
  rewrite Nat.eqb_refl. cbn [negb].
  unfold send. cbn [_device fst snd set_clock set_timers timers clock trace].
  split; [reflexivity|]. split; [reflexivity|].
  split; [|reflexivity].
  unfold w2. cbn [set_devices log clearInterval set_timers clock]. rewrite C. lia.
Qed.

(** X17: [start] called a second time arms a second connect timer and a
    second heartbeat after those of the first call, and keeps only the id of
    the second heartbeat: [close()] then cancels the second heartbeat, which
    is no longer among the timers, and nothing else; the first heartbeat stays
    armed, with nothing in the driver that still knows it. *)
Theorem second_start_leaks_heartbeat (config : Config) (s : Driver)
    (w : World ReadableMessage) (h : nat) (d : USBDevice) (ei eo : USBEndpoint) :
  s.(_device) = Some h -> w.(devices) !! h = Some d -> d.(opened) = true ->
  s.(_inEP) = Some ei -> s.(_outEP) = Some eo ->
  0 <= config.(dpi) <= 4294967295 -> 0 <= config.(hand) <= 4294967295 ->
  let st1 := snd (start_ config (s, w)) in
  let st2 := snd (start_ config st1) in
  let st3 := snd (close st2) in
  let first := mkTimer (S w.(next_timer)) (w.(clock) + 2000) (Some 2000) MkHeartBeat in
  let id := w.(next_timer) in
  let connect := MkSendCommand (CommandMapping (js "wifiConnect")) in
  let connect1 := mkTimer id (w.(clock) + 1000) None connect in
  let connect2 := mkTimer (S (S id)) (w.(clock) + 1000) None connect in
  let second := mkTimer (S (S (S id))) (w.(clock) + 2000) (Some 2000) MkHeartBeat in
  (fst st1).(_heartbeatInterval) = Some (S w.(next_timer))
  /\ fst (start_ config st1) = Ok tt
  /\ (fst st2).(_heartbeatInterval) = Some (S (S (S w.(next_timer))))
  /\ In first (snd st2).(timers)
  /\ (fst st3).(_heartbeatInterval) = None
  /\ In first (snd st3).(timers)
  /\ (d.(on_close) = Ok tt -> close st3 = (Ok tt, st3))
  /\ (snd st2).(timers) = w.(timers) ++ [connect1; first; connect2; second]
  /\ (snd st3).(timers)
     = List.filter (fun t => negb (Nat.eqb t.(timer_id) (S (S (S id)))))
         (snd st2).(timers)
  /\ ~ In second (snd st3).(timers)
  /\ (w.(timers) = [] -> (snd st3).(timers) = [connect1; first; connect2]).
Proof.
  intros Hdev Hd Hop Hin Hout Hdpi Hhand.
  destruct (start_runs config s w h d ei eo Hdev Hd Hop Hin Hout Hdpi Hhand)
    as (l & w1 & E & D & C & P & N & Ti & Tr & F).
  cbn zeta. rewrite E. cbn [snd fst _heartbeatInterval].
  assert (Hd1 : w1.(devices) !! h = Some d) by now rewrite D.
  destruct (start_runs config
              (mkDriver (Some (S (next_timer w))) (Some h) (Some ei) (Some eo) 0)
              w1 h d ei eo eq_refl Hd1 Hop eq_refl eq_refl Hdpi Hhand)
    as (l2 & w2 & E2 & D2 & C2 & P2 & N2 & Ti2 & Tr2 & F2).
  rewrite E2. cbn [snd fst _heartbeatInterval]. rewrite N.
  split; [reflexivity|]. split; [reflexivity|]. split; [reflexivity|].
  assert (Hin2 : In (mkTimer (S (next_timer w)) (clock w + 2000) (Some 2000) MkHeartBeat)
                    (timers w2)).
  { rewrite Ti2, Ti. apply in_or_app. left. apply in_or_app. right.
    right. left. reflexivity. }
  split; [exact Hin2|].
  assert (Hshape : exists (s3 : Driver) (w3 : World ReadableMessage),
             snd (close (mkDriver (Some (S (S (S (next_timer w))))) (Some h)
                           (Some ei) (Some eo) 0, w2)) = (s3, w3)
             /\ s3.(_heartbeatInterval) = None
             /\ w3.(timers) = (clearInterval (S (S (S (next_timer w)))) w2).(timers)
             /\ (on_close d = Ok tt -> s3.(_device) = None)).
  { unfold close, close_enter. cbn [_device _heartbeatInterval fst snd].
    unfold close_resume.
    replace (devices (log (CallClose h) (clearInterval (S (S (S (next_timer w)))) w2)) !! h)
      with (Some d) by (cbn [log clearInterval set_timers devices]; now rewrite D2).
    destruct (on_close d) as [[]|e] eqn:Hc; cbn [fst snd]; eexists; eexists;
      (split; [reflexivity|]); (split; [reflexivity|]);
      (split; [reflexivity|]); [reflexivity | discriminate]. }
  destruct Hshape as (s3 & w3 & E3 & H3 & T3 & D3).
  rewrite E3. cbn [fst snd].
  split; [exact H3|].
  split.
  { rewrite T3. cbn [clearInterval set_timers timers]. apply List.filter_In.
    split; [exact Hin2|]. cbn [timer_id].
    replace (S (next_timer w) =? S (S (S (next_timer w))))%nat with false
      by (symmetry; apply Nat.eqb_neq; lia).
    reflexivity. }
  split; [intros Hc; apply DriverSpec.close_without_device; cbn [fst]; now apply D3|].
  assert (HT2 : timers w2
                = timers w
                  ++ [mkTimer (next_timer w) (clock w + 1000) None
                        (MkSendCommand (CommandMapping (js "wifiConnect")));
                      mkTimer (S (next_timer w)) (clock w + 2000) (Some 2000) MkHeartBeat;
                      mkTimer (S (S (next_timer w))) (clock w + 1000) None
                        (MkSendCommand (CommandMapping (js "wifiConnect")));
                      mkTimer (S (S (S (next_timer w)))) (clock w + 2000) (Some 2000)
                        MkHeartBeat]).
  { rewrite Ti2, Ti, N, C, <- app_assoc. reflexivity. }
  split; [exact HT2|].
  split; [rewrite T3; reflexivity|].
  split.
  { rewrite T3. cbn [clearInterval set_timers timers]. intros Hsecond.
    apply List.filter_In in Hsecond as [_ Hsecond]. cbn [timer_id] in Hsecond.
    rewrite Nat.eqb_refl in Hsecond. discriminate Hsecond. }
  intros Hnone. rewrite T3. cbn [clearInterval set_timers timers].
  rewrite HT2, Hnone. cbn [app List.filter timer_id].
  rewrite (proj2 (Nat.eqb_neq (next_timer w) (S (S (S (next_timer w)))))) by lia.
  rewrite (proj2 (Nat.eqb_neq (S (next_timer w)) (S (S (S (next_timer w)))))) by lia.
  rewrite (proj2 (Nat.eqb_neq (S (S (next_timer w))) (S (S (S (next_timer w)))))) by lia.
  rewrite Nat.eqb_refl. reflexivity.
Qed.

(** *** initialise *)

(** Whatever becomes of the [try] block, the driver has taken the device,
    and nothing was asked of the device but its configuration and its
    interface. *)
Lemma initialise_try_shape (device : nat) (s : Driver)
    (w : World ReadableMessage) (d : USBDevice) :
  w.(devices) !! device = Some d ->
  exists (s1 : Driver) (w1 : World ReadableMessage) (d1 : USBDevice)
         (asked : list (Action ReadableMessage)),
    snd (initialise_try device (s, w)) = (s1, w1)
    /\ s1.(_device) = Some device
    /\ s1.(_heartbeatInterval) = s.(_heartbeatInterval)
    /\ s1.(errorCount) = s.(errorCount)
    /\ w1.(devices) !! device = Some d1
    /\ d1.(on_close) = d.(on_close)
    /\ w1.(trace) = w.(trace) ++ asked
    /\ closes asked = 0%nat /\ transfers_out asked = []
    /\ w1.(timers) = w.(timers) /\ w1.(pending) = w.(pending).
Proof.
  intros Hd. unfold initialise_try. rewrite Hd.
  destruct (opened d); cbn [negb].
  2: { exists (set_device (Some device) s), w, d, [].
       rewrite app_nil_r. repeat split; assumption. }
  destruct (on_selectConfiguration d CONFIG_NUMBER) as [cfg|e].
  2: { eexists _, _, d, [CallSelectConfiguration device CONFIG_NUMBER].
       split; [reflexivity|]. repeat split. exact Hd. }
  assert (Hafter : forall (s1 : Driver) (r : Outcome unit),
            s1.(_device) = Some device ->
            s1.(_heartbeatInterval) = s.(_heartbeatInterval) ->
            s1.(errorCount) = s.(errorCount) ->
            forall extra, closes extra = 0%nat -> transfers_out extra = [] ->
            exists (s1' : Driver) (w1 : World ReadableMessage) (d1 : USBDevice)
                   (asked : list (Action ReadableMessage)),
              snd (r, (s1, logs extra
                             (set_devices
                                (<[device := set_configuration cfg d]>
                                   (log (CallSelectConfiguration device CONFIG_NUMBER) w).(devices))
                                (log (CallSelectConfiguration device CONFIG_NUMBER) w))))
              = (s1', w1)
              /\ s1'.(_device) = Some device
              /\ s1'.(_heartbeatInterval) = s.(_heartbeatInterval)
              /\ s1'.(errorCount) = s.(errorCount)
              /\ w1.(devices) !! device = Some d1
              /\ d1.(on_close) = d.(on_close)
              /\ w1.(trace) = w.(trace) ++ asked
              /\ closes asked = 0%nat /\ transfers_out asked = []
              /\ w1.(timers) = w.(timers) /\ w1.(pending) = w.(pending)).
  { intros s1 r H1 H2 H3 extra Hc Ht.
    eexists _, _, (set_configuration cfg d),
      (CallSelectConfiguration device CONFIG_NUMBER :: extra).
    split; [reflexivity|].
    cbn [devices set_devices log logs trace timers pending].
    split; [exact H1|]. split; [exact H2|]. split; [exact H3|].
    split; [apply lookup_insert_eq|]. split; [reflexivity|].
    split; [now rewrite <- app_assoc|].
    split; [exact Hc|]. split; [exact Ht|]. split; reflexivity. }
  assert (Hlogs0 : forall w0 : World ReadableMessage, logs [] w0 = w0).
  { intros [? ? ? ? ? ?]. unfold logs. cbn. now rewrite app_nil_r. }
  destruct cfg as [c|].
  2: { rewrite <- (Hlogs0 (set_devices _ _)). now apply Hafter. }
  destruct (interfaces c) as [|i0 rest].
  { rewrite <- (Hlogs0 (set_devices _ _)). now apply Hafter. }
  destruct (find_endpoint DirIn (endpoints i0)) as [i|].
  2: { rewrite <- (Hlogs0 (set_devices _ _)). now apply Hafter. }
  destruct (find_endpoint DirOut (endpoints i0)) as [o|].
  2: { rewrite <- (Hlogs0 (set_devices _ _)). now apply Hafter. }
  assert (Hlog1 : forall (a : Action ReadableMessage) (w0 : World ReadableMessage),
            log a w0 = logs [a] w0) by reflexivity.
  rewrite (Hlog1 (CallClaimInterface device (interfaceNumber i0))).
  destruct (on_claimInterface d (interfaceNumber i0)); now apply Hafter.
Qed.


(** X19: when [initialise] throws, for whatever reason, it has called
    [close()] once and sent nothing, and it leaves that [close()] to finish
    by itself.  If the handle's [close()] succeeds, the driver ends up with no
    device and no endpoint.  If it rejects, nobody handles the rejection and
    the driver keeps the device: every later [initialise], of this or of
    another device, then returns at once without doing anything. *)
Theorem failed_initialise_cleanup (device : nat) (s : Driver)
    (w : World ReadableMessage) (d : USBDevice) (err : JsError) :
  s.(_device) = None -> w.(devices) !! device = Some d -> w.(pending) = [] ->
  fst (initialise device (s, w)) = Throw err ->
  let st1 := snd (initialise device (s, w)) in
  let st2 := run_pending st1 in
  (fst st1).(_device) = Some device
  /\ closes (snd st1).(trace) = S (closes w.(trace))
  /\ transfers_out (snd st1).(trace) = transfers_out w.(trace)
  /\ (snd st1).(pending) = [CloseResume device]
  /\ (d.(on_close) = Ok tt ->
      fst st2 = mkDriver None None None None s.(errorCount)
      /\ opened_at (snd st2) device = false
      /\ (snd st2).(trace) = (snd st1).(trace))
  /\ (forall e, d.(on_close) = Throw e ->
        (fst st2).(_device) = Some device
        /\ (snd st2).(trace) = (snd st1).(trace) ++ [UnhandledRejection e]
        /\ forall device', initialise device' st2 = (Ok tt, st2)).
Proof.
  intros Hnone Hd Hpend Hthrow. cbn zeta.
  unfold initialise in *. cbn [fst] in *. rewrite Hnone in *.
  destruct (initialise_try_shape device s w d Hd)
    as (s1 & w1 & d1 & asked & E & Dv & Hb & Ec & Hd1 & Hcl & Tr & Kc & To & Ti & Pe).
  destruct (initialise_try device (s, w)) as [[[]|err'] st1]; [discriminate|].
  cbn [snd] in E. subst st1. cbn [fst snd] in *.
  destruct (DriverSpec.close_detached_spec s1 w1 device Dv)
    as (w2 & E2 & D2 & T2 & P2 & _ & _).
  rewrite E2. cbn [fst snd set_heartbeat _device].
  split; [exact Dv|].
  split; [rewrite T2, Tr, !closes_app, Kc; cbn; lia|].
  split.
  { rewrite T2, Tr, !DriverSpec.transfers_out_app, To. cbn. now rewrite !app_nil_r. }
  split; [now rewrite P2, Pe, Hpend|].
  assert (Hrun : run_pending (set_heartbeat None s1, w2)
                 = run_task (CloseResume device) (set_heartbeat None s1, set_pending [] w2)).
  { unfold run_pending. rewrite P2, Pe, Hpend. reflexivity. }
  rewrite Hrun. unfold run_task, close_resume.
  cbn [set_pending devices]. rewrite D2, Hd1, Hcl.
  split.
  - intros Hok. rewrite Hok. cbn [fst snd].
    split.
    { destruct s1; cbn in *; subst; reflexivity. }
    split; [|reflexivity].
    unfold opened_at. cbn [set_devices devices]. now rewrite lookup_insert_eq.
  - intros e He. rewrite He. cbn [fst snd set_heartbeat _device log trace].
    split; [exact Dv|]. split; [reflexivity|].
    intros device'. cbn [fst set_heartbeat _device]. now rewrite Dv.
Qed.

(** The rest of a [close()] whose handle answers. *)
Lemma run_task_ok (s : Driver) (w : World ReadableMessage) (h : nat) (d : USBDevice) :
  w.(devices) !! h = Some d -> d.(on_close) = Ok tt ->
  run_task (CloseResume h) (s, w)
  = (set_endpoints None None (set_device None s),
     set_devices (<[h := set_opened false d]> w.(devices)) w).
Proof.
  intros Hd Hok. unfold run_task, close_resume. now rewrite Hd, Hok.
Qed.

(** X20: [close()] can be repeated once it has finished, not while it
    runs: a second [close()] entered while the first still waits for the
    handle finds the device still held and calls the handle's [close()] a
    second time.  When the handle's [close()] succeeds both calls finish, and
    the driver is left without device. *)
Theorem overlapping_closes (s : Driver) (w : World ReadableMessage)
    (h : nat) (d : USBDevice) :
  s.(_device) = Some h -> w.(devices) !! h = Some d -> w.(pending) = [] ->
  let st1 := close_detached (s, w) in
  let st2 := close_detached st1 in
  let st3 := run_pending st2 in
  closes (snd st1).(trace) = S (closes w.(trace))
  /\ closes (snd st2).(trace) = S (S (closes w.(trace)))
  /\ (snd st2).(pending) = [CloseResume h; CloseResume h]
  /\ (d.(on_close) = Ok tt ->
      fst st3 = mkDriver None None None None s.(errorCount)
      /\ (snd st3).(trace) = (snd st2).(trace)
      /\ opened_at (snd st3) h = false
      /\ close st3 = (Ok tt, st3)).
Proof.
  intros Hdev Hd Hpend. cbn zeta.
  destruct (DriverSpec.close_detached_spec s w h Hdev)
    as (w1 & E1 & D1 & T1 & P1 & _ & _).
  rewrite E1.
  destruct (DriverSpec.close_detached_spec (set_heartbeat None s) w1 h Hdev)
    as (w2 & E2 & D2 & T2 & P2 & _ & _).
  rewrite E2. cbn [fst snd].
  split; [rewrite T1, closes_app; cbn; lia|].
  split; [rewrite T2, T1, !closes_app; cbn; lia|].
  split; [now rewrite P2, P1, Hpend|].
  intros Hok.
  assert (Hrun : run_pending (set_heartbeat None (set_heartbeat None s), w2)
                 = run_task (CloseResume h)
                     (run_task (CloseResume h)
                        (set_heartbeat None (set_heartbeat None s), set_pending [] w2))).
  { unfold run_pending. rewrite P2, P1, Hpend. reflexivity. }
  rewrite Hrun.
  rewrite (run_task_ok _ (set_pending [] w2) h d)
    by (cbn [set_pending devices]; rewrite ?D2, ?D1; assumption).
  rewrite (run_task_ok _ _ h (set_opened false d))
    by (cbn [set_devices devices]; first [apply lookup_insert_eq | exact Hok]).
  cbn [fst snd set_devices set_pending trace devices].
  split; [destruct s; reflexivity|].
  split; [reflexivity|].
  split; [unfold opened_at; cbn [set_devices devices]; now rewrite lookup_insert_eq|].
  apply DriverSpec.close_without_device. reflexivity.
Qed.

End WithCommon.

(** *** On the bench *)

Import Bench BenchMore.

Lemma frames_are_delivered_in_order_witness :
  exists l w',
    Bench.readLoop (flat_map answers two_frames) (ready, world dongle)
    = (Some AwaitingTransfer, (ready, w'))
    /\ messages l = [(2, []); (7, [1; 2])]
    /\ transfers_in l = [(0%nat, 1, 16); (0%nat, 1, 16); (0%nat, 1, 2)]
    /\ transfers_in w'.(trace)
       = [(0%nat, 1, 16); (0%nat, 1, 16); (0%nat, 1, 2); (0%nat, 1, 16)].
Proof.
  destruct (frames_are_delivered_in_order 16 fromBuffer snd toMessage two_frames
              ready (world dongle) 0%nat dongle ep_in)
    as (l & w' & E & _ & M & T & U & _); try reflexivity.
  - repeat constructor; eexists; vm_compute; reflexivity.
  - exists l, w'. split; [exact E|]. split; [exact (eq_trans M eq_refl)|].
    split; [exact (eq_trans T eq_refl) | exact (eq_trans U eq_refl)].
Defined.

Lemma start_rejects_bad_numbers_witness :
  exists e,
    Bench.start negative_dpi (ready, world dongle) = (Throw e, (ready, world dongle))
    /\ is_RangeError e = true.
Proof.
  apply (start_rejects_bad_numbers 16 fromBuffer snd toMessage asBuffer MessageType
           CommandMapping stringify_settings 0 (fun q => q) Bench.writeFloatLE
           negative_dpi ready (world dongle) 0%nat dongle);
    try reflexivity.
  left. unfold uint32. cbn. lia.
Defined.

Lemma inert_after_close_witness :
  Bench.send MkHeartBeat (snd (close (ready, world dongle)))
  = (None, snd (close (ready, world dongle))).
Proof.
  refine (proj1 (proj2 (inert_after_close 16 fromBuffer snd toMessage asBuffer
                          MessageType CommandMapping stringify_settings 0 (fun q => q) Bench.writeFloatLE
                          (ready, world dongle) DEFAULT_CONFIG MkHeartBeat [] _))).
  reflexivity.
Defined.

Lemma close_leaves_connect_timer_witness :
  (snd (snd (close (snd (Bench.start DEFAULT_CONFIG (ready, world dongle)))))).(timers)
  = [mkTimer 1 1000 None (MkSendCommand (Some 1002))].
Proof.
  refine (proj1 (proj2 (proj2
            (close_leaves_connect_timer 16 fromBuffer snd toMessage asBuffer
               MessageType CommandMapping stringify_settings 0 (fun q => q) Bench.writeFloatLE
               DEFAULT_CONFIG ready (world dongle) 0%nat dongle ep_in ep_out
               _ _ _ _ _ _ _ _ _)))); try reflexivity.
  - vm_compute. split; discriminate.
  - vm_compute. split; discriminate.
Defined.

Lemma second_start_leaks_heartbeat_witness :
  let st2 := snd (Bench.start DEFAULT_CONFIG
                    (snd (Bench.start DEFAULT_CONFIG (ready, world dongle)))) in
  (snd st2).(timers)
  = [mkTimer 1 1000 None (MkSendCommand (Some 1002));
     mkTimer 2 2000 (Some 2000) MkHeartBeat;
     mkTimer 3 1000 None (MkSendCommand (Some 1002));
     mkTimer 4 2000 (Some 2000) MkHeartBeat]
  /\ (snd (snd (close st2))).(timers)
     = [mkTimer 1 1000 None (MkSendCommand (Some 1002));
        mkTimer 2 2000 (Some 2000) MkHeartBeat;
        mkTimer 3 1000 None (MkSendCommand (Some 1002))]
  /\ (fst (snd (close st2))).(_heartbeatInterval) = None.
Proof.
  assert (T := second_start_leaks_heartbeat 16 fromBuffer snd toMessage asBuffer
                 MessageType CommandMapping stringify_settings 0 (fun q => q)
                 Bench.writeFloatLE DEFAULT_CONFIG ready (world dongle) 0%nat dongle
                 ep_in ep_out).
  cbv zeta in T.
  destruct T as (_ & _ & _ & _ & A & _ & _ & B & _ & _ & C); try reflexivity.
  - vm_compute. split; discriminate.
  - vm_compute. split; discriminate.
  - cbv zeta. split; [exact B|]. split; [exact (C eq_refl) | exact A].
Defined.


Lemma failed_initialise_cleanup_witness :
  (fst (run_pending (snd (initialise 0 (new_DongleDriver, world jammed_dongle))))).(_device)
  = Some 0%nat.
Proof.
  refine (proj1 (proj2 (proj2 (proj2 (proj2 (proj2
            (failed_initialise_cleanup (ReadableMessage := Z * bytes) 0%nat
               new_DongleDriver (world jammed_dongle) jammed_dongle
               (DriverStateError "Illegal state - device not opened") _ _ _ _)))))
            (DeviceError "close error") _)); reflexivity.
Defined.

Lemma errorCount_accounting_witness :
  MAX_ERROR_COUNT
  <= (fst (snd (Bench.readLoop [] (tripped, world dongle)))).(errorCount).
Proof.
  apply (proj2 (proj2 (proj2 (proj2
           (errorCount_accounting 16 fromBuffer snd toMessage []
              (tripped, world dongle)))))).
  reflexivity.
Defined.

Lemma overlapping_closes_witness :
  closes (snd (close_detached (close_detached (ready, world dongle)))).(trace) = 2%nat.
Proof.
  refine (proj1 (proj2 (overlapping_closes (ReadableMessage := Z * bytes) ready
                          (world dongle) 0%nat dongle _ _ _))); reflexivity.
Defined.

End DriverMore.

(** ** Choosing the USB device *)

Module SelectionSpec.
Import Selection.

Lemma find_first (pre post : list USBDeviceInfo) (d : USBDeviceInfo) :
  is_dongle d = true -> Forall (fun x => is_dongle x = false) pre ->
  List.find is_dongle (pre ++ d :: post) = Some d.
Proof.
  intros Hd Hpre. induction Hpre as [|x pre Hx Hpre IH]; cbn [app List.find].
  - now rewrite Hd.
  - now rewrite Hx.
Qed.

Lemma find_none (l : list USBDeviceInfo) :
  Forall (fun x => is_dongle x = false) l -> List.find is_dongle l = None.
Proof.
  induction 1 as [|x l Hx Hl IH]; cbn [List.find]; [reflexivity|].
  now rewrite Hx.
Qed.

(** X21: the handler answers with the id of the first device of the list
    that has the vendor id 0x1314 and the product id 0x1520 or 0x1521; when
    the list has none it answers with the id of the first device, whatever
    it is, and with the empty string when the list is empty.  The devices it
    looks for are known devices of the driver, but not all of them: the third
    known device, 0x05ac:0x12a8, is chosen only when it comes first in a list
    without the other two. *)
Theorem select_usb_device_spec :
  select_usb_device [] = ""%string
  /\ (forall pre d post,
        is_dongle d = true -> Forall (fun x => is_dongle x = false) pre ->
        select_usb_device (pre ++ d :: post) = d.(deviceId))
  /\ (forall first rest,
        Forall (fun x => is_dongle x = false) (first :: rest) ->
        select_usb_device (first :: rest) = first.(deviceId))
  /\ (forall d, is_dongle d = true -> known d = true)
  /\ (forall id, known (mkInfo 0x05ac 0x12a8 id) = true
                 /\ is_dongle (mkInfo 0x05ac 0x12a8 id) = false).
Proof.
  split; [reflexivity|]. split; [|split; [|split]].
  - intros pre d post Hd Hpre. unfold select_usb_device.
    rewrite (find_first pre post d Hd Hpre).
    destruct pre; reflexivity.
  - intros first rest Hall. unfold select_usb_device.
    now rewrite (find_none _ Hall).
  - intros d Hd. unfold is_dongle in Hd. unfold known, knownDevices.
    cbn [existsb fst snd].
    apply andb_prop in Hd as [Hv Hp]. rewrite Hv. cbn [andb].
    apply orb_prop in Hp as [Hp|Hp]; rewrite Hp; cbn [orb];
      [reflexivity | now rewrite orb_true_r].
  - intros id. split; reflexivity.
Qed.

Lemma select_usb_device_spec_witness :
  select_usb_device [mkInfo 0x05ac 0x12a8 "carlinkit"; mkInfo 0x1314 0x1521 "dongle"]
  = "dongle"%string.
Proof.
  apply (proj1 (proj2 select_usb_device_spec)
           [mkInfo 0x05ac 0x12a8 "carlinkit"] (mkInfo 0x1314 0x1521 "dongle") []).
  - reflexivity.
  - repeat constructor.
Defined.

End SelectionSpec.

(** ** SendMultiTouch *)

Module MultiTouchSpec.
Import Buffer Sendable Outbound BufferFacts CodecMore.

Section MultiTouch.
Variable writeFloatLE : Q -> bytes.
Hypothesis writeFloatLE_length : forall q, length (writeFloatLE q) = 4%nat.

Local Abbreviation payloads_ := (payloads writeFloatLE).

Lemma take_front (a rest : bytes) :
  length a = 4%nat -> take 4 (a ++ rest) = a.
Proof. intros H. rewrite <- H. apply take_app_length. Qed.

(** The payloads of the items numbered from [i] on, laid end to end. *)
Lemma payloads_layout (touchData : list (Q * Q * Z)) :
  forall i : nat,
    Forall (fun t => uint32 (snd t)) touchData ->
    Z.of_nat (i + length touchData) <= 4294967296 ->
    exists ps,
      payloads_ (touches_from i touchData) = Ok ps
      /\ byteLength (concat ps) = 16 * Z.of_nat (length touchData)
      /\ forall (k : nat) (x y : Q) (action : Z),
           touchData !! k = Some (x, y, action) ->
           take 4 (drop (16 * k) (concat ps)) = writeFloatLE x
           /\ take 4 (drop (16 * k + 4) (concat ps)) = writeFloatLE y
           /\ readUInt32LE (concat ps) (16 * Z.of_nat k + 8) = Ok action
           /\ readUInt32LE (concat ps) (16 * Z.of_nat k + 12) = Ok (Z.of_nat (i + k)).
Proof.
  induction touchData as [|[[x0 y0] a0] rest IH]; intros i Hall Hn.
  - exists []. split; [reflexivity|]. split; [reflexivity|].
    intros k x y action Hk. discriminate.
  - inversion Hall as [|? ? Ha Hrest]; subst. cbn [snd] in Ha. unfold uint32 in Ha.
    cbn [length] in Hn.
    destruct (IH (S i) Hrest ltac:(lia)) as (ps & Hps & Hlen & Hread).
    set (item := writeFloatLE x0 ++ writeFloatLE y0 ++ le32 a0 ++ le32 (Z.of_nat i)).
    assert (Hitem : length item = 16%nat).
    { unfold item. rewrite !length_app, !writeFloatLE_length. reflexivity. }
    exists (item :: ps).
    split.
    { cbn [touches_from payloads]. unfold TouchItem_getPayload.
      cbn [touch_action touch_id touch_x touch_y].
      rewrite !writeUInt32LE_Z by lia. cbn [obind]. rewrite Hps. cbn [obind].
      unfold item, concat. cbn [List.concat]. now rewrite app_nil_r. }
    assert (Hcat : concat (item :: ps) = item ++ concat ps) by reflexivity.
    rewrite Hcat.
    split.
    { rewrite byteLength_app, Hlen. unfold byteLength. rewrite Hitem.
      cbn [length]. lia. }
    intros k x y action Hk. destruct k as [|k].
    + injection Hk as <- <- <-. rewrite Nat.mul_0_r, Nat.add_0_r.
      cbn [drop Nat.add]. unfold item. rewrite <- !app_assoc.
      split; [now apply take_front|].
      split.
      { replace (drop 4 (writeFloatLE x0 ++ writeFloatLE y0 ++ le32 a0
                         ++ le32 (Z.of_nat i) ++ concat ps))
          with (writeFloatLE y0 ++ le32 a0 ++ le32 (Z.of_nat i) ++ concat ps)
          by (rewrite <- (writeFloatLE_length x0); now rewrite drop_app_length).
        now apply take_front. }
      split.
      { replace (16 * Z.of_nat 0 + 8) with (byteLength (writeFloatLE x0 ++ writeFloatLE y0))
          by (unfold byteLength; rewrite length_app, !writeFloatLE_length; reflexivity).
        rewrite (app_assoc (writeFloatLE x0)).
        apply readUInt32LE_le32. lia. }
      replace (16 * Z.of_nat 0 + 12)
        with (byteLength (writeFloatLE x0 ++ writeFloatLE y0 ++ le32 a0))
        by (unfold byteLength; rewrite !length_app, !writeFloatLE_length; reflexivity).
      replace (writeFloatLE x0 ++ writeFloatLE y0 ++ le32 a0 ++ le32 (Z.of_nat i) ++ concat ps)
        with ((writeFloatLE x0 ++ writeFloatLE y0 ++ le32 a0)
              ++ le32 (Z.of_nat i) ++ concat ps)
        by (now rewrite <- !app_assoc).
      apply readUInt32LE_le32. lia.
    + cbn in Hk. destruct (Hread k x y action Hk) as (Rx & Ry & Ra & Ri).
      assert (Hdrop : forall c : nat,
                 drop (16 * S k + c) (item ++ concat ps) = drop (16 * k + c) (concat ps)).
      { intros c. replace (16 * S k + c)%nat with (length item + (16 * k + c))%nat
          by (rewrite Hitem; lia).
        apply drop_app_add. }
      assert (Hoff : forall c : Z, 0 <= c ->
                 readUInt32LE (item ++ concat ps) (16 * Z.of_nat (S k) + c)
                 = readUInt32LE (concat ps) (16 * Z.of_nat k + c)).
      { intros c Hc.
        replace (16 * Z.of_nat (S k) + c) with (byteLength item + (16 * Z.of_nat k + c))
          by (unfold byteLength; rewrite Hitem; lia).
        apply readUInt32LE_app_r. lia. }
      pose proof (Hdrop 0%nat) as H0. rewrite !Nat.add_0_r in H0.
      rewrite H0, Hdrop, !Hoff by lia.
      split; [exact Rx|]. split; [exact Ry|]. split; [exact Ra|].
      rewrite Ri. f_equal. lia.
Qed.

(** X22: the payload of a SendMultiTouch holds 16 bytes for each touch, in
    the order of the list: the four bytes of x, the four bytes of y, the
    action, and the position of the touch in the list, counted from 0, as
    its id. *)
Theorem SendMultiTouch_layout (touchData : list (Q * Q * Z)) :
  Forall (fun t => uint32 (snd t)) touchData ->
  Z.of_nat (length touchData) <= 4294967296 ->
  exists payload,
    SendMultiTouch_getPayload writeFloatLE (new_SendMultiTouch touchData) = Ok payload
    /\ byteLength payload = 16 * Z.of_nat (length touchData)
    /\ forall (k : nat) (x y : Q) (action : Z),
         touchData !! k = Some (x, y, action) ->
         take 4 (drop (16 * k) payload) = writeFloatLE x
         /\ take 4 (drop (16 * k + 4) payload) = writeFloatLE y
         /\ readUInt32LE payload (16 * Z.of_nat k + 8) = Ok action
         /\ readUInt32LE payload (16 * Z.of_nat k + 12) = Ok (Z.of_nat k).
Proof.
  intros Hall Hn.
  destruct (payloads_layout touchData 0 Hall Hn) as (ps & Hps & Hlen & Hread).
  exists (concat ps). unfold SendMultiTouch_getPayload, new_SendMultiTouch.
  rewrite Hps. split; [reflexivity|]. split; [exact Hlen|]. exact Hread.
Qed.

End MultiTouch.

Lemma SendMultiTouch_layout_witness :
  exists payload,
    SendMultiTouch_getPayload (fun _ => [0; 0; 0; 0])
      (new_SendMultiTouch [((1 # 2)%Q, (1 # 4)%Q, 1); ((3 # 4)%Q, (1 # 4)%Q, 2)])
    = Ok payload
    /\ byteLength payload = 32
    /\ readUInt32LE payload 28 = Ok 1.
Proof.
  destruct (SendMultiTouch_layout (fun _ => [0; 0; 0; 0]) (fun _ => eq_refl)
              [((1 # 2)%Q, (1 # 4)%Q, 1); ((3 # 4)%Q, (1 # 4)%Q, 2)])
    as (payload & Hp & Hl & Hr).
  - repeat constructor; cbn; lia.
  - cbn. lia.
  - exists payload. split; [exact Hp|]. split; [exact Hl|].
    exact (proj2 (proj2 (proj2 (Hr 1%nat (3 # 4)%Q (1 # 4)%Q 2 eq_refl)))).
Defined.

End MultiTouchSpec.

(** ** The manager's disconnect *)

Module DisconnectSpec.
Import Buffer Sendable Driver Observed Manager.

Section Disconnect.
Context {ReadableMessage : Type}.

Local Abbreviation disconnect_ := (disconnect (ReadableMessage := ReadableMessage)).

(** X23: [disconnect()] of a manager whose driver holds the manager's
    device, or holds none, calls the device's [close()] at most once: through
    the driver when the driver holds the device, directly when the driver
    holds none and the device is still open, and not at all otherwise.  When
    that call succeeds the manager ends without driver and device, not
    connected, and 'disconnected' is emitted.  When it rejects,
    [disconnect()] rejects too: the manager keeps its device and its
    [isConnected], and 'disconnected' is not emitted. *)
Theorem disconnect_closes_once (m : Manager) (s : Driver.Driver)
    (w : World ReadableMessage) (h : nat) (d : USBDevice) :
  m.(driver) = true -> m.(device) = Some h -> w.(devices) !! h = Some d ->
  s.(_device) = Some h \/ s.(_device) = None ->
  let res := disconnect_ m (s, w) in
  let st' := snd (snd res) in
  let called := match s.(_device) with Some _ => true | None => d.(opened) end in
  (d.(on_close) = Ok tt ->
   fst res = (Ok tt, true)
   /\ fst (snd res) = mkManager false None false
   /\ closes (snd st').(trace)
      = (closes w.(trace) + if called then 1 else 0)%nat
   /\ opened_at (snd st') h = false
   /\ (fst st').(_device) = None)
  /\ (forall e, d.(on_close) = Throw e -> called = true ->
        fst res = (Throw e, false)
        /\ (fst (snd res)).(device) = Some h
        /\ (fst (snd res)).(isConnected) = m.(isConnected)
        /\ closes (snd st').(trace) = S (closes w.(trace))).
Proof.
  intros Hdrv Hdev Hd Hs. cbn zeta.
  assert (Hcl : forall w0 : World ReadableMessage,
             closes (trace (log (CallClose h) w0)) = S (closes (trace w0))).
  { intros w0. cbn [log trace]. unfold closes.
    rewrite List.filter_app, length_app. cbn. lia. }
  unfold disconnect. rewrite Hdrv.
  destruct Hs as [Hs|Hs].
  - (* the driver holds the device *)
    rewrite Hs. unfold close, close_enter. rewrite Hs.
    set (st1 := match _heartbeatInterval s with
                | Some t => (set_heartbeat None s, clearInterval t w)
                | None => (s, w)
                end).
    assert (H1 : (snd st1).(devices) = w.(devices) /\ (snd st1).(trace) = w.(trace))
      by (unfold st1; destruct (_heartbeatInterval s); split; reflexivity).
    destruct H1 as [D1 T1].
    unfold close_resume. cbn [log devices]. rewrite D1, Hd.
    split.
    + intros Hok. rewrite Hok. unfold disconnect_device.
      cbn [device driver isConnected fst snd set_devices devices].
      rewrite Hdev, lookup_insert_eq. cbn [set_opened opened negb fst snd].
      split; [reflexivity|]. split; [reflexivity|].
      cbn [set_devices trace]. rewrite Hcl, T1.
      split; [lia|].
      split; [unfold opened_at; cbn [set_devices devices]; now rewrite lookup_insert_eq|].
      reflexivity.
    + intros e He _. rewrite He. cbn [fst snd].
      split; [reflexivity|]. split; [exact Hdev|]. split; [reflexivity|].
      now rewrite Hcl, T1.
  - (* the driver holds no device *)
    rewrite Hs. rewrite (DriverSpec.close_without_device (s, w) Hs).
    unfold disconnect_device.
    cbn [device driver isConnected fst snd]. rewrite Hdev, Hd.
    destruct (opened d) eqn:Hop; cbn [negb].
    + split.
      * intros Hok. rewrite Hok. cbn [fst snd].
        split; [reflexivity|]. split; [reflexivity|].
        cbn [set_devices trace]. rewrite Hcl.
        split; [lia|].
        split; [unfold opened_at; cbn [set_devices devices]; now rewrite lookup_insert_eq|].
        exact Hs.
      * intros e He _. rewrite He. cbn [fst snd device isConnected].
        split; [reflexivity|]. split; [reflexivity|]. split; [reflexivity|].
        apply Hcl.
    + split.
      * intros _. cbn [fst snd].
        split; [reflexivity|]. split; [reflexivity|].
        split; [lia|].
        split; [unfold opened_at; now rewrite Hd|].
        exact Hs.
      * intros e _ Hc. discriminate.
Qed.

End Disconnect.

Lemma disconnect_closes_once_witness :
  fst (disconnect (mkManager true (Some 0%nat) true) (Bench.ready, Bench.world Bench.dongle))
  = (Ok tt, true)
  /\ fst (snd (disconnect (mkManager true (Some 0%nat) true)
                 (Bench.ready, Bench.world Bench.dongle)))
     = mkManager false None false.
Proof.
  destruct (proj1 (disconnect_closes_once (ReadableMessage := Z * bytes)
                     (mkManager true (Some 0%nat) true) Bench.ready
                     (Bench.world Bench.dongle) 0%nat Bench.dongle
                     eq_refl eq_refl eq_refl (or_introl eq_refl)) eq_refl)
    as (R & M & _).
  split; [exact R | exact M].
Defined.

End DisconnectSpec.
